(** * Cup tipover physics: a shallow embedding of the numerical core

    The TypeScript sources embedded here are
    - [lib/tipover-physics.ts]   (module [TipoverPhysics]),
    - [lib/cylinder-fitting.ts]  (module [CylinderFitting]),
    - [lib/volume-detection.ts]  (module [VolumeDetection]).

    A JavaScript [number] is modelled by a real number of [R]: arithmetic is
    the exact arithmetic of the reals, so rounding and overflow of IEEE
    doubles are outside the model.  The two places where the exported
    functions can produce a [NaN] from finite inputs (the square root of a
    negative radicand in [fitCircle2D], the division 0/0 in
    [dominantEigenvector]) are modelled explicitly; every other square root
    is taken of a sum of squares.  [Math.random] is modelled by a stream of
    reals that the functions consume through a cursor; the rejection loop of
    [fitCircleRANSAC] takes fuel.

    One test of the sources depends on rounding itself: the tolerance test
    [Math.abs(det) < 1e-10] of [fitCircle2D] compares a determinant that is
    0 in exact arithmetic whenever the points are collinear, and that the
    doubles compute with rounding errors.  Module [Binary64] embeds
    [fitCircle2D] a second time over the binary64 numbers of [PrimFloat], and
    the statements on what [fitCircle2D] rejects are made there. *)

From Stdlib Require Import Reals Lra Lia List ZArith Bool.
From Stdlib Require String.
From Stdlib Require Floats QArith.
Import ListNotations.
Set Warnings "-inexact-float".

Open Scope R_scope.

(** ** The [Math] primitives used by the sources *)

Module JSMath.

(** [Math.atan2(y, x)] on finite reals (the sign of zero is not modelled). *)
Definition atan2 (y x : R) : R :=
  if Rlt_dec 0 x then atan (y / x)
  else if Rlt_dec x 0 then
    if Rle_dec 0 y then atan (y / x) + PI else atan (y / x) - PI
  else if Rlt_dec 0 y then PI / 2
  else if Rlt_dec y 0 then - PI / 2
  else 0.

(** [Math.sqrt]: [None] stands for [NaN], the value on a negative argument. *)
Definition sqrt (v : R) : option R :=
  if Rlt_dec v 0 then None else Some (R_sqrt.sqrt v).

(** [Math.floor], as an integer. *)
Definition floor (v : R) : Z := Int_part v.

End JSMath.

(** ** lib/tipover-physics.ts *)

Module TipoverPhysics.

Record Vector3 : Type := mkVector3 { x : R; y : R; z : R }.

Record CylinderParams : Type := mkCylinderParams {
  center : Vector3;      (* base center *)
  radius : R;
  height : R
}.

Record PhysicsState : Type := mkPhysicsState {
  fillLevel : R;
  tiltAngle : R;
  centerOfMass : Vector3;
  criticalTipoverAngle_ : R;
  liquidVolume : R;
  volumePoured_ : R;
  isStable : bool;
  stabilityMargin : R
}.

Definition calculateCenterOfMass
    (cupMass : R) (cupCentroid : Vector3)
    (liquidVolume liquidDensity : R) (liquidCentroid : Vector3) : Vector3 :=
  let liquidMass := liquidVolume * liquidDensity in
  let totalMass := cupMass + liquidMass in
  if Req_dec_T totalMass 0 then cupCentroid
  else
    {| x := (cupMass * x cupCentroid + liquidMass * x liquidCentroid) / totalMass;
       y := (cupMass * y cupCentroid + liquidMass * y liquidCentroid) / totalMass;
       z := (cupMass * z cupCentroid + liquidMass * z liquidCentroid) / totalMass |}.

Definition calculateLiquidCentroid (cylinder : CylinderParams) (fillLevel : R)
  : Vector3 :=
  let liquidHeight := height cylinder * fillLevel in
  {| x := x (center cylinder);
     y := y (center cylinder) + liquidHeight / 2;
     z := z (center cylinder) |}.

Definition calculateLiquidVolume (cylinder : CylinderParams) (fillLevel : R) : R :=
  let liquidHeight := height cylinder * fillLevel in
  PI * radius cylinder ^ 2 * liquidHeight.

(** The radicand of [horizontalDist] is a sum of two squares, so the real
    square root is [Math.sqrt] there. *)
Definition criticalTipoverAngle
    (centerOfMass : Vector3) (baseRadius : R) (baseCenter : Vector3) : R :=
  let horizontalDist :=
    sqrt ((x centerOfMass - x baseCenter) ^ 2 +
          (z centerOfMass - z baseCenter) ^ 2) in
  let verticalDist := y centerOfMass - y baseCenter in
  if Rle_dec verticalDist 0 then PI / 2
  else
    let effectiveRadius := baseRadius - horizontalDist in
    if Rle_dec effectiveRadius 0 then 0
    else JSMath.atan2 effectiveRadius verticalDist.

Definition volumePoured
    (tiltAngle : R) (cylinder : CylinderParams) (fillLevel : R) : R :=
  if Rle_dec tiltAngle 0 then 0
  else
    let liquidHeight := height cylinder * fillLevel in
    let r := radius cylinder in
    let rimDropOnLowSide := 2 * r * sin tiltAngle in
    let liquidHeightAboveRim :=
      liquidHeight * cos tiltAngle -
      (height cylinder - liquidHeight) * tan tiltAngle in
    if Rle_dec liquidHeightAboveRim 0 then 0
    else
      let spillHeight := Rmin liquidHeightAboveRim rimDropOnLowSide in
      let spillVolume := spillHeight * r * r * sin tiltAngle in
      Rmax 0 spillVolume.

Definition calculatePhysicsState
    (cylinder : CylinderParams) (fillLevel tiltAngle : R)
    (cupMass liquidDensity : R) : PhysicsState :=
  let fillLevel := Rmax 0 (Rmin 1 fillLevel) in
  let tiltAngle := Rmax 0 (Rmin (PI / 2) tiltAngle) in
  let cupCentroid :=
    {| x := x (center cylinder);
       y := y (center cylinder) + height cylinder / 2;
       z := z (center cylinder) |} in
  let liquidVolume := calculateLiquidVolume cylinder fillLevel in
  let liquidCentroid := calculateLiquidCentroid cylinder fillLevel in
  let centerOfMass :=
    calculateCenterOfMass cupMass cupCentroid liquidVolume liquidDensity
      liquidCentroid in
  let baseCenter :=
    {| x := x (center cylinder);
       y := y (center cylinder);
       z := z (center cylinder) |} in
  let criticalAngle :=
    criticalTipoverAngle centerOfMass (radius cylinder) baseCenter in
  let poured := volumePoured tiltAngle cylinder fillLevel in
  let isStable := if Rlt_dec tiltAngle criticalAngle then true else false in
  let stabilityMargin := (criticalAngle - tiltAngle) * (180 / PI) in
  {| fillLevel := fillLevel;
     tiltAngle := tiltAngle;
     centerOfMass := centerOfMass;
     criticalTipoverAngle_ := criticalAngle;
     liquidVolume := liquidVolume;
     volumePoured_ := poured;
     isStable := isStable;
     stabilityMargin := stabilityMargin |}.

(** The default arguments of [calculatePhysicsState]. *)
Definition defaultCupMass : R := 3 / 10.
Definition defaultLiquidDensity : R := 1000.

Record LiquidSurface : Type := mkLiquidSurface {
  highSide : R;
  lowSide : R;
  spilling : bool
}.

Definition getLiquidSurfaceWhenTilted
    (tiltAngle : R) (cylinder : CylinderParams) (fillLevel : R) : LiquidSurface :=
  let liquidHeight := height cylinder * fillLevel in
  let r := radius cylinder in
  let heightChange := r * tan tiltAngle in
  let highSide := liquidHeight + heightChange in
  let lowSide := liquidHeight - heightChange in
  let spilling :=
    (if Rlt_dec (height cylinder) highSide then true else false) &&
    (if Rlt_dec lowSide (height cylinder) then true else false) in
  {| highSide := Rmin highSide (height cylinder);
     lowSide := Rmax 0 lowSide;
     spilling := spilling || (if Rle_dec lowSide 0 then true else false) |}.

Definition toDegrees (radians : R) : R := radians * (180 / PI).

Definition toRadians (degrees : R) : R := degrees * (PI / 180).

End TipoverPhysics.

(** ** Outcomes of the randomized code

    A run of the randomized fitter either returns, or raises the
    [TypeError] of destructuring an undefined array element, or is still in
    its rejection loop when the fuel is spent. *)

Inductive Outcome (A : Type) : Type :=
| Done (a : A)
| Throws
| OutOfFuel.

Arguments Done {A} a.
Arguments Throws {A}.
Arguments OutOfFuel {A}.

(** A computation that reads [Math.random]: the cursor of the random stream
    goes in, the result comes out with the new cursor. *)
Definition Rand (A : Type) : Type := nat -> Outcome (A * nat).

Definition ret {A} (a : A) : Rand A := fun k => Done (a, k).

Definition bind {A B} (m : Rand A) (f : A -> Rand B) : Rand B :=
  fun k =>
    match m k with
    | Done (a, k') => f a k'
    | Throws => Throws
    | OutOfFuel => OutOfFuel
    end.

Notation "x <- m ;; f" := (bind m (fun x => f))
  (at level 61, m at next level, right associativity).

(** ** lib/cylinder-fitting.ts *)

Module CylinderFitting.

Definition Point2 : Type := (R * R)%type.
Definition Point3 : Type := (R * R * R)%type.

(** A three-component array whose entries may all be [NaN] ([None]). *)
Definition Axis : Type := option Point3.

Module Circle2D.
Record t : Type := mk { center : Point2; radius : R }.
End Circle2D.

Module CylinderFit.
Record t : Type := mk {
  center : Point3;       (* center of the cylinder base *)
  radius : R;
  height : R;
  axis : Axis;
  confidence : R
}.
End CylinderFit.

(** [Array.prototype.map] with the index. *)
Fixpoint mapi_from {A B} (i : nat) (f : A -> nat -> B) (l : list A) : list B :=
  match l with
  | [] => []
  | a :: l' => f a i :: mapi_from (S i) f l'
  end.

Definition mapi {A B} (f : A -> nat -> B) (l : list A) : list B :=
  mapi_from 0 f l.

(** [m[i][j]] on a matrix given by its rows. *)
Definition entry (m : list (list R)) (i j : nat) : R :=
  nth j (nth i m []) 0.

Definition determinant3x3 (m : list (list R)) : R :=
  entry m 0 0 * (entry m 1 1 * entry m 2 2 - entry m 1 2 * entry m 2 1) -
  entry m 0 1 * (entry m 1 0 * entry m 2 2 - entry m 1 2 * entry m 2 0) +
  entry m 0 2 * (entry m 1 0 * entry m 2 1 - entry m 1 1 * entry m 2 0).

Definition replaceColumn (m : list (list R)) (col : list R) (idx : nat)
  : list (list R) :=
  mapi (fun row i =>
          mapi (fun val j => if Nat.eqb j idx then nth i col 0 else val) row) m.

(** The nine running sums of the accumulation loop of [fitCircle2D]. *)
Record Sums : Type := mkSums {
  sumX : R; sumY : R; sumX2 : R; sumY2 : R;
  sumXY : R; sumX3 : R; sumY3 : R; sumX2Y : R; sumXY2 : R
}.

Definition zeroSums : Sums := mkSums 0 0 0 0 0 0 0 0 0.

Definition addPoint (s : Sums) (p : Point2) : Sums :=
  let '(x, y) := p in
  {| sumX := sumX s + x;
     sumY := sumY s + y;
     sumX2 := sumX2 s + x * x;
     sumY2 := sumY2 s + y * y;
     sumXY := sumXY s + x * y;
     sumX3 := sumX3 s + x * x * x;
     sumY3 := sumY3 s + y * y * y;
     sumX2Y := sumX2Y s + x * x * y;
     sumXY2 := sumXY2 s + x * y * y |}.

Definition sums (points : list Point2) : Sums :=
  fold_left addPoint points zeroSums.

(** The matrix [A] and the right-hand side [B] of the normal equations. *)
Definition matrixA (points : list Point2) : list (list R) :=
  let s := sums points in
  let n := INR (length points) in
  [ [sumX2 s; sumXY s; sumX s];
    [sumXY s; sumY2 s; sumY s];
    [sumX s; sumY s; n] ].

Definition vectorB (points : list Point2) : list R :=
  let s := sums points in
  [ (sumX3 s + sumXY2 s) / 2;
    (sumX2Y s + sumY3 s) / 2;
    (sumX2 s + sumY2 s) / 2 ].

(** The argument of the square root that gives the radius. *)
Definition radicand (points : list Point2) : R :=
  let A := matrixA points in
  let B := vectorB points in
  let det := determinant3x3 A in
  let a := determinant3x3 (replaceColumn A B 0) / det in
  let b := determinant3x3 (replaceColumn A B 1) / det in
  let c := determinant3x3 (replaceColumn A B 2) / det in
  c + a * a + b * b.

(** In this module the tolerance test is taken on the exact determinant;
    [Binary64.fitCircle2D] takes it on the determinant that the doubles
    compute. *)
Definition fitCircle2D (points : list Point2) : option Circle2D.t :=
  if (length points <? 3)%nat then None
  else
    let A := matrixA points in
    let B := vectorB points in
    let det := determinant3x3 A in
    if Rlt_dec (Rabs det) 1e-10 then None
    else
      let a := determinant3x3 (replaceColumn A B 0) / det in
      let b := determinant3x3 (replaceColumn A B 1) / det in
      let c := determinant3x3 (replaceColumn A B 2) / det in
      match JSMath.sqrt (c + a * a + b * b) with
      | None => None                          (* !isFinite(NaN) *)
      | Some radius =>
          if Rle_dec radius 0 then None
          else Some {| Circle2D.center := (a, b); Circle2D.radius := radius |}
      end.

(** [|dist(point, center) - radius|], the residual of a point. *)
Definition residual (circle : Circle2D.t) (p : Point2) : R :=
  let '(x, y) := p in
  Rabs (sqrt ((x - fst (Circle2D.center circle)) ^ 2 +
              (y - snd (Circle2D.center circle)) ^ 2)
        - Circle2D.radius circle).

Definition isInlier (circle : Circle2D.t) (threshold : R) (p : Point2) : bool :=
  if Rlt_dec (residual circle p) threshold then true else false.

(** [Set.prototype.add]: a set keeps its elements in insertion order. *)
Definition setAdd (i : Z) (indices : list Z) : list Z :=
  if existsb (Z.eqb i) indices then indices else indices ++ [i].

(** [points[i]]: [None] is [undefined]. *)
Definition at_index {A} (points : list A) (i : Z) : option A :=
  if (i <? 0)%Z then None else nth_error points (Z.to_nat i).

Fixpoint lookupAll {A} (points : list A) (indices : list Z) : option (list A) :=
  match indices with
  | [] => Some []
  | i :: rest =>
      match at_index points i, lookupAll points rest with
      | Some p, Some ps => Some (p :: ps)
      | _, _ => None
      end
  end.

Section Randomized.

(** [random k] is the value of the [k]-th call of [Math.random]. *)
Variable random : nat -> R.

(** The value of one call of [Math.random]. *)
Definition Math_random : Rand R := fun k => Done (random k, S k).

(** [while (indices.size < 3) indices.add(floor(random() * n))]. *)
Fixpoint drawIndices (fuel : nat) (n : nat) (indices : list Z) : Rand (list Z) :=
  if (length indices <? 3)%nat then
    match fuel with
    | O => fun _ => OutOfFuel
    | S fuel' =>
        u <- Math_random ;;
        drawIndices fuel' n (setAdd (JSMath.floor (u * INR n)) indices)
    end
  else ret indices.

(** The body of the loop over [iter], from the state [(bestCircle,
    bestInliers)] with [iterations] rounds to go. *)
Fixpoint ransacLoop (fuel : nat) (points : list Point2) (threshold : R)
    (iterations : nat) (bestCircle : option Circle2D.t) (bestInliers : nat)
  : Rand (option Circle2D.t) :=
  match iterations with
  | O => ret bestCircle
  | S iterations' =>
      indices <- drawIndices fuel (length points) [] ;;
      match lookupAll points indices with
      | None => fun _ => Throws
      | Some sample =>
          match fitCircle2D sample with
          | None =>
              ransacLoop fuel points threshold iterations' bestCircle bestInliers
          | Some circle =>
              let inliers := length (filter (isInlier circle threshold) points) in
              if (bestInliers <? inliers)%nat
              then ransacLoop fuel points threshold iterations' (Some circle) inliers
              else ransacLoop fuel points threshold iterations' bestCircle bestInliers
          end
      end
  end.

(** The refit on the inliers of the winning circle. *)
Definition refit (points : list Point2) (threshold : R)
    (bestCircle : option Circle2D.t) : option Circle2D.t :=
  match bestCircle with
  | None => None
  | Some best =>
      let inlierPoints := filter (isInlier best threshold) points in
      if (3 <=? length inlierPoints)%nat then
        match fitCircle2D inlierPoints with
        | Some refined => Some refined
        | None => Some best
        end
      else Some best
  end.

Definition fitCircleRANSAC (fuel : nat) (points : list Point2)
    (iterations : nat) (threshold : R) : Rand (option Circle2D.t) :=
  if (length points <? 3)%nat then ret None
  else
    bestCircle <- ransacLoop fuel points threshold iterations None 0 ;;
    ret (refit points threshold bestCircle).

(** [positions.map(([x, y, z]) => [x, z])]. *)
Definition projectedPoints (positions : list Point3) : list Point2 :=
  map (fun '(x, y, z) => (x, z)) positions.

(** The running minimum and maximum of the height: [None] is the initial
    [Infinity] (resp. [-Infinity]). *)
Definition minStep (acc : option R) (v : R) : option R :=
  match acc with None => Some v | Some m => Some (Rmin m v) end.

Definition maxStep (acc : option R) (v : R) : option R :=
  match acc with None => Some v | Some m => Some (Rmax m v) end.

Definition heightExtent (positions : list Point3) : option R * option R :=
  fold_left (fun '(minY, maxY) '(_, y, _) => (minStep minY y, maxStep maxY y))
    positions (None, None).

Definition totalError (circle : Circle2D.t) (positions : list Point3) : R :=
  fold_left
    (fun totalError '(x, _, z) =>
       let dist := sqrt ((x - fst (Circle2D.center circle)) ^ 2 +
                         (z - snd (Circle2D.center circle)) ^ 2) in
       totalError + Rabs (dist - Circle2D.radius circle))
    positions 0.

Definition fitCylinder (fuel : nat) (positions : list Point3) (axis : Axis)
  : Rand (option CylinderFit.t) :=
  if (length positions <? 10)%nat then ret None
  else
    circle <- fitCircleRANSAC fuel (projectedPoints positions) 200 0.05 ;;
    match circle with
    | None => ret None
    | Some circle =>
        match heightExtent positions with
        | (Some minY, Some maxY) =>
            let height := maxY - minY in
            if Rle_dec height 0 then ret None
            else
              let avgError :=
                totalError circle positions / INR (length positions) in
              let confidence :=
                Rmax 0 (1 - avgError / Circle2D.radius circle) in
              ret (Some {| CylinderFit.center :=
                             (fst (Circle2D.center circle), minY,
                              snd (Circle2D.center circle));
                           CylinderFit.radius := Circle2D.radius circle;
                           CylinderFit.height := height;
                           CylinderFit.axis := axis;
                           CylinderFit.confidence := confidence |})
        | _ => ret None      (* -Infinity - Infinity <= 0 *)
        end
    end.

(** The default value of the parameter [axis]. *)
Definition defaultAxis : Axis := Some (0, 1, 0).

End Randomized.

End CylinderFitting.

(** ** lib/cylinder-fitting.ts: [fitCircle2D] in double precision

    The same function over the binary64 numbers of [PrimFloat]: IEEE 754
    double precision with rounding to nearest, the arithmetic of a
    JavaScript [number].  Every operation of the source is one operation
    here, in the order in which the source evaluates it; [Math.abs],
    [Math.sqrt] and [isFinite] are [abs], [sqrt] and [is_finite]. *)

Module Binary64.

Import PrimFloat.
Local Open Scope float_scope.
Definition Point2 : Type := (float * float)%type.

Module Circle2D.
Record t : Type := mk { center : Point2; radius : float }.
End Circle2D.

(** [points.length] as a number (an array has fewer than 2^32 elements, so
    the conversion is exact). *)
Definition lengthOf {A} (points : list A) : float :=
  of_uint63 (Uint63.of_Z (Z.of_nat (length points))).

(** [m[i][j]] on a matrix given by its rows. *)
Definition entry (m : list (list float)) (i j : nat) : float :=
  nth j (nth i m []) 0.

Definition determinant3x3 (m : list (list float)) : float :=
  entry m 0 0 * (entry m 1 1 * entry m 2 2 - entry m 1 2 * entry m 2 1) -
  entry m 0 1 * (entry m 1 0 * entry m 2 2 - entry m 1 2 * entry m 2 0) +
  entry m 0 2 * (entry m 1 0 * entry m 2 1 - entry m 1 1 * entry m 2 0).

Definition replaceColumn (m : list (list float)) (col : list float) (idx : nat)
  : list (list float) :=
  CylinderFitting.mapi
    (fun row i =>
       CylinderFitting.mapi
         (fun val j => if Nat.eqb j idx then nth i col 0 else val) row) m.

(** The nine running sums of the accumulation loop. *)
Record Sums : Type := mkSums {
  sumX : float; sumY : float; sumX2 : float; sumY2 : float;
  sumXY : float; sumX3 : float; sumY3 : float; sumX2Y : float; sumXY2 : float
}.

Definition zeroSums : Sums := mkSums 0 0 0 0 0 0 0 0 0.

Definition addPoint (s : Sums) (p : Point2) : Sums :=
  let '(x, y) := p in
  {| sumX := sumX s + x;
     sumY := sumY s + y;
     sumX2 := sumX2 s + x * x;
     sumY2 := sumY2 s + y * y;
     sumXY := sumXY s + x * y;
     sumX3 := sumX3 s + x * x * x;
     sumY3 := sumY3 s + y * y * y;
     sumX2Y := sumX2Y s + x * x * y;
     sumXY2 := sumXY2 s + x * y * y |}.

Definition sums (points : list Point2) : Sums :=
  fold_left addPoint points zeroSums.

Definition matrixA (points : list Point2) : list (list float) :=
  let s := sums points in
  let n := lengthOf points in
  [ [sumX2 s; sumXY s; sumX s];
    [sumXY s; sumY2 s; sumY s];
    [sumX s; sumY s; n] ].

Definition vectorB (points : list Point2) : list float :=
  let s := sums points in
  [ (sumX3 s + sumXY2 s) / 2;
    (sumX2Y s + sumY3 s) / 2;
    (sumX2 s + sumY2 s) / 2 ].

(** The argument of the square root that gives the radius. *)
Definition radicand (points : list Point2) : float :=
  let A := matrixA points in
  let B := vectorB points in
  let det := determinant3x3 A in
  let a := determinant3x3 (replaceColumn A B 0) / det in
  let b := determinant3x3 (replaceColumn A B 1) / det in
  let c := determinant3x3 (replaceColumn A B 2) / det in
  c + a * a + b * b.

Definition fitCircle2D (points : list Point2) : option Circle2D.t :=
  if (length points <? 3)%nat then None
  else
    let A := matrixA points in
    let B := vectorB points in
    let det := determinant3x3 A in
    if abs det <? 1e-10 then None
    else
      let a := determinant3x3 (replaceColumn A B 0) / det in
      let b := determinant3x3 (replaceColumn A B 1) / det in
      let c := determinant3x3 (replaceColumn A B 2) / det in
      let radius := sqrt (c + a * a + b * b) in
      if negb (is_finite radius) || (radius <=? 0) then None
      else Some {| Circle2D.center := (a, b); Circle2D.radius := radius |}.

(** *** Vocabulary: the exact value of a double *)

(** The rational number that a finite double stands for. *)
Definition exact (v : float) : option QArith_base.Q :=
  match FloatOps.Prim2SF v with
  | SpecFloat.S754_zero _ => Some (QArith_base.inject_Z 0)
  | SpecFloat.S754_finite s m e =>
      Some (QArith_base.Qmult
              (QArith_base.inject_Z (SpecFloat.cond_Zopp s (Zpos m)))
              (QArith_base.Qpower (QArith_base.inject_Z 2) e))
  | _ => None
  end.

(** The cross product of the two edge vectors from the first point, on the
    exact values of the coordinates. *)
Definition crossProduct (p1 p2 p3 : Point2) : option QArith_base.Q :=
  match exact (fst p1), exact (snd p1), exact (fst p2), exact (snd p2),
        exact (fst p3), exact (snd p3) with
  | Some x1, Some y1, Some x2, Some y2, Some x3, Some y3 =>
      Some (QArith_base.Qminus
              (QArith_base.Qmult (QArith_base.Qminus x2 x1) (QArith_base.Qminus y3 y1))
              (QArith_base.Qmult (QArith_base.Qminus x3 x1) (QArith_base.Qminus y2 y1)))
  | _, _, _, _, _, _ => None
  end.

(** Three points with finite coordinates are collinear when that cross
    product is 0: no rounding enters this test. *)
Definition collinear (p1 p2 p3 : Point2) : Prop :=
  exists q, crossProduct p1 p2 p3 = Some q /\ QArith_base.Qeq q (QArith_base.inject_Z 0).

(** *** Samples *)





End Binary64.

(** ** lib/ply-parser.ts: the part of a parsed file that the detector reads *)

Module PlyParser.

Import CylinderFitting.

(** The optional [color] and [normal] of a point, and the fields
    [positions] and [vertexCount] of the file, are never read by the
    detector. *)
Record PlyPoint : Type := mkPlyPoint { position : Point3 }.

Module Bounds.
Record t : Type := mk { min : Point3; max : Point3; center : Point3 }.
End Bounds.

Record ParsedPly : Type := mkParsedPly {
  points : list PlyPoint;
  bounds : Bounds.t
}.

Definition getPositions (ply : ParsedPly) : list Point3 :=
  map position (points ply).

(** A property of the vertex element, as read from the header; the optional
    [isList] is [false] when absent. *)
Record PlyProperty : Type := mkPlyProperty {
  name : String.string;
  type : String.string;
  isList : bool;
  countType : option String.string
}.

(** [Array.prototype.findIndex]: the first index that passes the test, or
    -1; [i] is the index of the head of [l]. *)
Fixpoint findIndex_from {A} (test : A -> bool) (l : list A) (i : Z) : Z :=
  match l with
  | [] => (-1)%Z
  | a :: l' => if test a then i else findIndex_from test l' (i + 1)%Z
  end.

Definition findIndex {A} (test : A -> bool) (l : list A) : Z :=
  findIndex_from test l 0%Z.

Fixpoint getPropertyIndex (properties : list PlyProperty)
    (names : list String.string) : Z :=
  match names with
  | [] => (-1)%Z
  | n :: names' =>
      let idx := findIndex (fun p => String.eqb (name p) n) properties in
      if (idx =? -1)%Z then getPropertyIndex properties names' else idx
  end.

End PlyParser.

(** ** lib/volume-detection.ts *)

Module VolumeDetection.

Import CylinderFitting PlyParser.

Inductive Orientation : Type := upright | inverted | sideways.

Module VolumeDetectionResult.
Record t : Type := mk {
  cylinder : CylinderFit.t;
  rimHeight : R;
  baseHeight : R;
  interiorVolume : R;
  orientation : Orientation
}.
End VolumeDetectionResult.

(** [p[1]], the vertical coordinate. *)
Definition coordY (p : Point3) : R := let '(_, y, _) := p in y.

Definition meanOf (positions : list Point3) : Point3 :=
  let n := INR (length positions) in
  let '(meanX, meanY, meanZ) :=
    fold_left (fun '(meanX, meanY, meanZ) '(x, y, z) =>
                 (meanX + x, meanY + y, meanZ + z))
      positions (0, 0, 0) in
  (meanX / n, meanY / n, meanZ / n).

Definition computeCovariance (positions : list Point3) : list (list R) :=
  let n := INR (length positions) in
  let '(meanX, meanY, meanZ) := meanOf positions in
  let '(c00, c01, c02, c11, c12, c22) :=
    fold_left
      (fun '(c00, c01, c02, c11, c12, c22) '(x, y, z) =>
         let dx := x - meanX in
         let dy := y - meanY in
         let dz := z - meanZ in
         (c00 + dx * dx, c01 + dx * dy, c02 + dx * dz,
          c11 + dy * dy, c12 + dy * dz, c22 + dz * dz))
      positions (0, 0, 0, 0, 0, 0) in
  let cov := [ [c00; c01; c02]; [c01; c11; c12]; [c02; c12; c22] ] in
  map (fun row => map (fun v => v / n) row) cov.

(** One round of the power iteration.  The normalisation divides by
    [len]; when [len] is 0 all three components of [newV] are 0 and the
    quotients are [NaN], which every later round keeps. *)
Definition powerStep (cov : list (list R)) (v : Axis) : Axis :=
  match v with
  | None => None
  | Some (v0, v1, v2) =>
      let newV0 := entry cov 0 0 * v0 + entry cov 0 1 * v1 + entry cov 0 2 * v2 in
      let newV1 := entry cov 1 0 * v0 + entry cov 1 1 * v1 + entry cov 1 2 * v2 in
      let newV2 := entry cov 2 0 * v0 + entry cov 2 1 * v1 + entry cov 2 2 * v2 in
      let len := sqrt (newV0 ^ 2 + newV1 ^ 2 + newV2 ^ 2) in
      if Req_dec_T len 0 then None
      else Some (newV0 / len, newV1 / len, newV2 / len)
  end.

Definition dominantEigenvector (cov : list (list R)) : Axis :=
  Nat.iter 50 (powerStep cov) (Some (1, 0, 0)).

Definition detectOrientation (positions : list Point3) : Axis * Orientation :=
  let cov := computeCovariance positions in
  let principal := dominantEigenvector cov in
  match principal with
  | None => (principal, sideways)          (* Math.abs(NaN) > 0.7 is false *)
  | Some (_, p1, _) =>
      let verticalDot := Rabs p1 in
      if Rlt_dec 0.7 verticalDot then
        (Some (0, 1, 0), if Rlt_dec 0 p1 then upright else inverted)
      else (principal, sideways)
  end.

Definition inSlice (height thickness : R) (p : Point3) : bool :=
  if Rlt_dec (Rabs (coordY p - height)) (thickness / 2) then true else false.

Definition sliceAtHeight (positions : list Point3) (height thickness : R)
  : list Point2 :=
  map (fun '(x, _, z) => (x, z)) (filter (inSlice height thickness) positions).

Module Density.
Record t : Type := mk { height : R; count : nat }.
End Density.

(** The list [densities] after the first loop of [findRimHeight]. *)
Definition densitiesOf (positions : list Point3) (minY maxY : R) (numSlices : nat)
  : list Density.t :=
  let sliceThickness := (maxY - minY) / INR numSlices in
  map (fun i =>
         let height := minY + (INR i + 0.5) * sliceThickness in
         let slice := sliceAtHeight positions height sliceThickness in
         {| Density.height := height; Density.count := length slice |})
      (seq 0 numSlices).

(** [Math.max(...counts)] of a non-empty array of counts (for no count at
    all there is no band whose count the threshold is compared with). *)
Definition maxCount (counts : list nat) : nat := fold_right Nat.max 0%nat counts.

Definition findRimHeight (positions : list Point3) (minY maxY : R)
    (numSlices : nat) : R :=
  let densities := densitiesOf positions minY maxY numSlices in
  let maxDensity := maxCount (map Density.count densities) in
  let threshold := INR maxDensity * 0.3 in
  match find (fun d => if Rlt_dec threshold (INR (Density.count d))
                       then true else false)
             (rev densities) with
  | Some d => Density.height d
  | None => maxY
  end.

(** The default value of the parameter [numSlices]. *)
Definition defaultNumSlices : nat := 20.

Section Randomized.

Variable random : nat -> R.

Definition detectVolume (fuel : nat) (ply : ParsedPly)
  : Rand (option VolumeDetectionResult.t) :=
  let positions := getPositions ply in
  if (length positions <? 100)%nat then ret None
  else
    let '(axis, orientation) := detectOrientation positions in
    let minY := coordY (Bounds.min (bounds ply)) in
    let maxY := coordY (Bounds.max (bounds ply)) in
    let rimHeight := findRimHeight positions minY maxY defaultNumSlices in
    let rimPoints := sliceAtHeight positions rimHeight ((maxY - minY) * 0.1) in
    rimCircle <- fitCircleRANSAC random fuel rimPoints 200 0.05 ;;
    match rimCircle with
    | None =>
        cylinder <- fitCylinder random fuel positions defaultAxis ;;
        match cylinder with
        | None => ret None
        | Some cylinder =>
            let volume :=
              PI * CylinderFit.radius cylinder ^ 2 * CylinderFit.height cylinder in
            ret (Some {| VolumeDetectionResult.cylinder := cylinder;
                         VolumeDetectionResult.rimHeight :=
                           coordY (CylinderFit.center cylinder) +
                           CylinderFit.height cylinder;
                         VolumeDetectionResult.baseHeight :=
                           coordY (CylinderFit.center cylinder);
                         VolumeDetectionResult.interiorVolume := volume;
                         VolumeDetectionResult.orientation := orientation |})
        end
    | Some rimCircle =>
        let interiorRadius := Circle2D.radius rimCircle * 0.85 in
        let baseHeight := minY in
        let height := rimHeight - baseHeight in
        let cylinder :=
          {| CylinderFit.center :=
               (fst (Circle2D.center rimCircle), baseHeight,
                snd (Circle2D.center rimCircle));
             CylinderFit.radius := interiorRadius;
             CylinderFit.height := Rmax 0.01 height;
             CylinderFit.axis := axis;
             CylinderFit.confidence := 0.8 |} in
        let volume := PI * interiorRadius ^ 2 * height in
        ret (Some {| VolumeDetectionResult.cylinder := cylinder;
                     VolumeDetectionResult.rimHeight := rimHeight;
                     VolumeDetectionResult.baseHeight := baseHeight;
                     VolumeDetectionResult.interiorVolume := Rmax 0 volume;
                     VolumeDetectionResult.orientation := orientation |})
    end.

End Randomized.

Definition volumeToML (volumeCubicUnits unitScale : R) : R :=
  volumeCubicUnits * 1e6 * unitScale ^ 3.

Definition estimateCupMass (outerRadius height wallThickness density : R) : R :=
  let innerRadius := outerRadius - wallThickness in
  let shellVolume := PI * (outerRadius ^ 2 - innerRadius ^ 2) * height in
  let baseVolume := PI * outerRadius ^ 2 * wallThickness in
  (shellVolume + baseVolume) * density.

(** The default arguments of [estimateCupMass]. *)
Definition defaultWallThickness : R := 0.005.
Definition defaultCupDensity : R := 2400.

End VolumeDetection.

(** ** app/page.tsx: the values that the page derives from a detection *)

Module Page.

Import CylinderFitting VolumeDetection.

(** components/CylinderControls.tsx *)
Record CylinderAdjustments : Type := mkCylinderAdjustments {
  rotationX : R; rotationY : R; rotationZ : R;
  offsetX : R; offsetY : R; offsetZ : R;
  radiusScale : R; heightScale : R
}.

Definition defaultAdjustments : CylinderAdjustments :=
  {| rotationX := 0; rotationY := 0; rotationZ := 0;
     offsetX := 0; offsetY := 0; offsetZ := 0;
     radiusScale := 1; heightScale := 1 |}.

Definition estimateUnitScale (cylinder : CylinderFit.t) : R :=
  let detectedHeight := CylinderFit.height cylinder in
  if Rlt_dec detectedHeight 0.5 then 1
  else if Rlt_dec detectedHeight 50 then 0.01
  else 0.001.

(** The memoised value [adjustedCylinder]; [None] is [null]. *)
Definition adjustedCylinder (volumeResult : option VolumeDetectionResult.t)
    (cylinderAdjustments : CylinderAdjustments) : option CylinderFit.t :=
  match volumeResult with
  | None => None
  | Some volumeResult =>
      let cyl := VolumeDetectionResult.cylinder volumeResult in
      let adj := cylinderAdjustments in
      let '(c0, c1, c2) := CylinderFit.center cyl in
      Some {| CylinderFit.center :=
                (c0 + offsetX adj, c1 + offsetY adj, c2 + offsetZ adj);
              CylinderFit.radius := CylinderFit.radius cyl * radiusScale adj;
              CylinderFit.height := CylinderFit.height cyl * heightScale adj;
              CylinderFit.axis := CylinderFit.axis cyl;
              CylinderFit.confidence := CylinderFit.confidence cyl |}
  end.

(** The memoised value [physicsState]; [tiltAngle] is in degrees. *)
Definition physicsState (adjustedCylinder : option CylinderFit.t)
    (fillLevel tiltAngle : R) : option TipoverPhysics.PhysicsState :=
  match adjustedCylinder with
  | None => None
  | Some adjustedCylinder =>
      let unitScale := estimateUnitScale adjustedCylinder in
      let '(c0, c1, c2) := CylinderFit.center adjustedCylinder in
      let cylinderParams :=
        {| TipoverPhysics.center := TipoverPhysics.mkVector3 c0 c1 c2;
           TipoverPhysics.radius := CylinderFit.radius adjustedCylinder;
           TipoverPhysics.height := CylinderFit.height adjustedCylinder |} in
      let cupMass :=
        estimateCupMass (CylinderFit.radius adjustedCylinder * unitScale)
          (CylinderFit.height adjustedCylinder * unitScale)
          defaultWallThickness defaultCupDensity in
      Some (TipoverPhysics.calculatePhysicsState cylinderParams fillLevel
              (TipoverPhysics.toRadians tiltAngle) cupMass 1000)
  end.

(** The memoised value [volumeML]. *)
Definition volumeML (adjustedCylinder : option CylinderFit.t) : R :=
  match adjustedCylinder with
  | None => 0
  | Some adjustedCylinder =>
      let unitScale := estimateUnitScale adjustedCylinder in
      let volume :=
        PI * CylinderFit.radius adjustedCylinder ^ 2 *
        CylinderFit.height adjustedCylinder in
      volumeToML volume unitScale
  end.

End Page.

(** ** Vocabulary of the statements *)

Module Vocabulary.

Import CylinderFitting PlyParser VolumeDetection.

(** Three points are collinear when the two edge vectors from the first
    point have a zero cross product. *)
Definition collinear (p1 p2 p3 : Point2) : Prop :=
  (fst p2 - fst p1) * (snd p3 - snd p1) = (fst p3 - fst p1) * (snd p2 - snd p1).

(** A circle is acceptable when its radius is positive. *)
Definition positiveCircle (c : option Circle2D.t) : Prop :=
  match c with
  | None => True
  | Some c => 0 < Circle2D.radius c
  end.

(** A fitted cylinder with another value in its field [axis]. *)
Definition withAxis (axis : Axis) (c : CylinderFit.t) : CylinderFit.t :=
  {| CylinderFit.center := CylinderFit.center c;
     CylinderFit.radius := CylinderFit.radius c;
     CylinderFit.height := CylinderFit.height c;
     CylinderFit.axis := axis;
     CylinderFit.confidence := CylinderFit.confidence c |}.

(** The points near the rim that [detectVolume] hands to the circle fit
    (the value of [rimPoints] in the source). *)
Definition rimPointsOf (ply : ParsedPly) : list Point2 :=
  let positions := getPositions ply in
  let minY := coordY (Bounds.min (bounds ply)) in
  let maxY := coordY (Bounds.max (bounds ply)) in
  sliceAtHeight positions (findRimHeight positions minY maxY defaultNumSlices)
    ((maxY - minY) * 0.1).

(** The projection that the specification describes for [fitCylinder], in
    the specification's words: a point is projected onto the plane
    orthogonal to the axis by dropping its coordinate along the axis. *)
Inductive CoordinateAxis : Type := alongX | alongY | alongZ.

Definition axisVector (a : CoordinateAxis) : Axis :=
  match a with
  | alongX => Some (1, 0, 0)
  | alongY => Some (0, 1, 0)
  | alongZ => Some (0, 0, 1)
  end.

Definition dropAxisCoordinate (a : CoordinateAxis) (p : Point3) : Point2 :=
  let '(px, py, pz) := p in
  match a with
  | alongX => (py, pz)
  | alongY => (px, pz)
  | alongZ => (px, py)
  end.

(** The relations between the running sums when every point satisfies
    [x^2 + y^2 = 2 a x + 2 b y + c0]; [n] counts the points summed so far. *)
Definition sumsOnCircle (a b c0 : R) (s : Sums) (n : R) : Prop :=
  sumX3 s + sumXY2 s = 2 * a * sumX2 s + 2 * b * sumXY s + c0 * sumX s /\
  sumX2Y s + sumY3 s = 2 * a * sumXY s + 2 * b * sumY2 s + c0 * sumY s /\
  sumX2 s + sumY2 s = 2 * a * sumX s + 2 * b * sumY s + c0 * n.

(** The best circle of a run is a fit of the points when it is the
    algebraic fit of some of them. *)
Definition fitOfPoints (points : list Point2) (c : option Circle2D.t) : Prop :=
  match c with
  | None => True
  | Some c => exists sample, incl sample points /\ fitCircle2D sample = Some c
  end.

(** A run yields no result when it does not return a value [Some _]. *)
Definition noResult {A : Type} (o : Outcome (option A * nat)) : Prop :=
  match o with
  | Done (Some _, _) => False
  | _ => True
  end.

End Vocabulary.

(** ** Concrete inputs on which the theorems below are exercised *)

Module Samples.

Import TipoverPhysics.

Definition origin : Vector3 := mkVector3 0 0 0.
Definition aboveOrigin : Vector3 := mkVector3 0 1 0.
Definition unitCup : CylinderParams := mkCylinderParams origin 1 1.

Import CylinderFitting PlyParser.

(** A thimble, in metres: rings of five points on the circle of centre
    (0.005, 0) and radius 0.005 at twenty levels, the point at the middle
    of the bottom and one point on the upper edge. *)
Definition ringXZ : list Point2 :=
  [(0, 0); (0.01, 0); (0.005, 0.005); (0.005, -0.005); (0.008, 0.004)].

Definition ringAt (level : R) : list Point3 :=
  map (fun '(px, pz) => (px, level, pz)) ringXZ.

Definition levelY (i : nat) : R := (2 * INR i + 1) / 5000.

Definition thimblePositions : list Point3 :=
  flat_map (fun i => ringAt (levelY i)) (seq 0 20) ++
  [(0.005, 0, 0); (0, 0.008, 0)].

Definition thimble : ParsedPly :=
  {| points := map mkPlyPoint thimblePositions;
     bounds := {| Bounds.min := (0, 0, -0.005);
                  Bounds.max := (0.01, 0.008, 0.005);
                  Bounds.center := (0.005, 0.004, 0) |} |}.

Definition thimbleRim : list Point2 := ringXZ ++ [(0, 0)].

Definition thimbleCircle : Circle2D.t :=
  {| Circle2D.center := (0.005, 0); Circle2D.radius := 0.005 |}.

(** A random source that repeats 0, 1/6, 2/6. *)
Definition cyclicStream (k : nat) : R := INR (k mod 3) / 6.

(** One point only, in the topmost of the twenty bands of [0, 20]. *)
Definition onePointHigh : list Point3 := [(0, 19.5, 0)].

(** Ten points around the [x] axis. *)
Definition tenPoints : list Point3 :=
  [ (1, 2, 3); (2, 3, 2); (3, 2, 1); (4, 1, 2); (5, 2, 3);
    (6, 3, 2); (7, 2, 1); (8, 1, 2); (9, 2, 3); (10, 3, 2) ].

(** Ten points at the heights 0 to 9 on the cylinder of radius 1 around the
    vertical line through (1, 0). *)
Definition tenOnCylinder : list Point3 :=
  [ (0, 0, 0); (2, 1, 0); (1, 2, 1); (1, 3, -1); (1.6, 4, 0.8);
    (1.6, 5, -0.8); (0.4, 6, 0.8); (0.4, 7, -0.8); (1.8, 8, 0.6); (0.2, 9, 0.6) ].

Definition unitCircleAt1 : Circle2D.t :=
  {| Circle2D.center := (1, 0); Circle2D.radius := 1 |}.

(** A random source that repeats 0, 1/n, 2/n. *)
Definition cyclicStreamOf (n k : nat) : R := INR (k mod 3) / INR n.

(** A hundred points at one place. *)
Definition flatCloud : list Point3 := repeat (0, 1, 0) 100.

Definition flatPly : ParsedPly :=
  {| points := map mkPlyPoint flatCloud;
     bounds := {| Bounds.min := (0, 1, 0);
                  Bounds.max := (0, 1, 0);
                  Bounds.center := (0, 1, 0) |} |}.

(** Ten points in the vertical plane [x = z]. *)
Definition tenInPlane : list Point3 :=
  [ (0, 0, 0); (1, 1, 1); (2, 2, 2); (3, 3, 3); (4, 4, 4);
    (5, 5, 5); (6, 6, 6); (7, 7, 7); (8, 8, 8); (9, 9, 9) ].

Import String.

(** The vertex properties of a file with positions and 8-bit colours named
    by their initials. *)
Definition colouredProperties : list PlyProperty :=
  map (fun n => mkPlyProperty n "float"%string false None)
      [ "x"%string; "y"%string; "z"%string; "r"%string; "g"%string; "b"%string ].

Definition colourNames : list string := [ "red"; "r" ]%string.
Definition alphaNames : list string := [ "alpha"; "a" ]%string.

End Samples.

(** * Properties of the tipover physics engine *)

Section PhysicsProperties.

Import TipoverPhysics Samples.

Lemma Vector3_eta (v : Vector3) : {| x := x v; y := y v; z := z v |} = v.
Proof. destruct v; reflexivity. Qed.

(** In the quadrant where both arguments are positive [Math.atan2] is the
    arctangent of the quotient, an angle strictly between 0 and a right
    angle. *)
Lemma atan2_first_quadrant (e v : R) :
  0 < e -> 0 < v ->
  JSMath.atan2 e v = atan (e / v) /\ 0 < atan (e / v) < PI / 2.
Proof.
  intros He Hv. unfold JSMath.atan2.
  destruct (Rlt_dec 0 v) as [_ | Hn]; [ | contradiction ].
  split; [ reflexivity | ].
  assert (Hq : 0 < e / v) by (apply Rdiv_lt_0_compat; assumption).
  split.
  - rewrite <- atan_0. apply atan_increasing. exact Hq.
  - apply atan_bound.
Qed.

(** C1: [criticalTipoverAngle] is a right angle when the centre of mass is
    at or below the base ([v <= 0]); otherwise it is 0 when the effective
    radius [baseRadius - h] is not positive, and [atan2(effectiveRadius, v)]
    when it is. *)
Theorem criticalTipoverAngle_cases
    (centerOfMass : Vector3) (baseRadius : R) (baseCenter : Vector3) :
  let v := y centerOfMass - y baseCenter in
  let h := sqrt ((x centerOfMass - x baseCenter) ^ 2 +
                 (z centerOfMass - z baseCenter) ^ 2) in
  let effectiveRadius := baseRadius - h in
  (v <= 0 ->
     criticalTipoverAngle centerOfMass baseRadius baseCenter = PI / 2) /\
  (0 < v -> effectiveRadius <= 0 ->
     criticalTipoverAngle centerOfMass baseRadius baseCenter = 0) /\
  (0 < v -> 0 < effectiveRadius ->
     criticalTipoverAngle centerOfMass baseRadius baseCenter =
     JSMath.atan2 effectiveRadius v).
Proof.
  intros v h effectiveRadius. unfold criticalTipoverAngle.
  fold v. fold h. fold effectiveRadius.
  repeat split.
  - intros Hv. destruct (Rle_dec v 0); [ reflexivity | contradiction ].
  - intros Hv He.
    destruct (Rle_dec v 0); [ lra | ].
    destruct (Rle_dec effectiveRadius 0); [ reflexivity | contradiction ].
  - intros Hv He.
    destruct (Rle_dec v 0); [ lra | ].
    destruct (Rle_dec effectiveRadius 0); [ lra | reflexivity ].
Qed.

(** C10: for every centre of mass, base centre and base radius (of any
    sign) the critical angle lies in [0, PI/2]; in the [atan2] branch, where
    both arguments are positive, it lies strictly inside. *)
Theorem criticalTipoverAngle_range
    (centerOfMass : Vector3) (baseRadius : R) (baseCenter : Vector3) :
  let v := y centerOfMass - y baseCenter in
  let h := sqrt ((x centerOfMass - x baseCenter) ^ 2 +
                 (z centerOfMass - z baseCenter) ^ 2) in
  0 <= criticalTipoverAngle centerOfMass baseRadius baseCenter <= PI / 2 /\
  (0 < v -> 0 < baseRadius - h ->
     criticalTipoverAngle centerOfMass baseRadius baseCenter =
     atan ((baseRadius - h) / v) /\
     0 < criticalTipoverAngle centerOfMass baseRadius baseCenter < PI / 2) /\
  (v <= 0 \/ baseRadius - h <= 0 ->
     criticalTipoverAngle centerOfMass baseRadius baseCenter = 0 \/
     criticalTipoverAngle centerOfMass baseRadius baseCenter = PI / 2).
Proof.
  intros v h. unfold criticalTipoverAngle. fold v. fold h.
  pose proof PI2_RGT_0 as Hpi.
  destruct (Rle_dec v 0) as [Hv | Hv].
  - repeat split; try lra; intros _; right; reflexivity.
  - destruct (Rle_dec (baseRadius - h) 0) as [He | He].
    + repeat split; try lra; intros _; left; reflexivity.
    + destruct (atan2_first_quadrant (baseRadius - h) v) as [Heq Hb]; [ lra | lra | ].
      rewrite Heq. repeat split; lra.
Qed.

(** C2: [volumePoured] is 0 for a tilt that is not positive; for a positive
    tilt it is 0 when the liquid does not stand above the low rim, and
    otherwise the wedge [min(liquidHeightAboveRim, rimDropOnLowSide) * r^2 *
    sin(tilt)] floored at 0.  In particular nothing is poured upright. *)
Theorem volumePoured_cases
    (tiltAngle : R) (cylinder : CylinderParams) (fillLevel : R) :
  let r := radius cylinder in
  let liquidHeight := height cylinder * fillLevel in
  let rimDropOnLowSide := 2 * r * sin tiltAngle in
  let liquidHeightAboveRim :=
    liquidHeight * cos tiltAngle -
    (height cylinder - liquidHeight) * tan tiltAngle in
  (tiltAngle <= 0 -> volumePoured tiltAngle cylinder fillLevel = 0) /\
  (0 < tiltAngle -> liquidHeightAboveRim <= 0 ->
     volumePoured tiltAngle cylinder fillLevel = 0) /\
  (0 < tiltAngle -> 0 < liquidHeightAboveRim ->
     volumePoured tiltAngle cylinder fillLevel =
     Rmax 0 (Rmin liquidHeightAboveRim rimDropOnLowSide * r ^ 2 * sin tiltAngle)) /\
  volumePoured 0 cylinder fillLevel = 0.
Proof.
  intros r liquidHeight rimDropOnLowSide liquidHeightAboveRim.
  unfold volumePoured.
  fold r. fold liquidHeight. fold rimDropOnLowSide. fold liquidHeightAboveRim.
  repeat split.
  - intros Ht. destruct (Rle_dec tiltAngle 0); [ reflexivity | contradiction ].
  - intros Ht Ha.
    destruct (Rle_dec tiltAngle 0); [ lra | ].
    destruct (Rle_dec liquidHeightAboveRim 0); [ reflexivity | contradiction ].
  - intros Ht Ha.
    destruct (Rle_dec tiltAngle 0); [ lra | ].
    destruct (Rle_dec liquidHeightAboveRim 0); [ lra | ].
    f_equal. ring.
  - destruct (Rle_dec 0 0); [ reflexivity | lra ].
Qed.

Lemma clamp_range (lo hi v : R) : lo <= hi -> lo <= Rmax lo (Rmin hi v) <= hi.
Proof.
  intros H. split.
  - apply Rmax_l.
  - apply Rmax_lub; [ exact H | apply Rmin_l ].
Qed.

Lemma clamp_idempotent (lo hi v : R) :
  lo <= hi -> Rmax lo (Rmin hi (Rmax lo (Rmin hi v))) = Rmax lo (Rmin hi v).
Proof.
  intros H. destruct (clamp_range lo hi v H) as [Hl Hh].
  rewrite (Rmin_right hi (Rmax lo (Rmin hi v))) by exact Hh.
  apply Rmax_right. exact Hl.
Qed.

(** C3: [calculatePhysicsState] clamps the fill level to [0,1] and the tilt
    to [0, PI/2] before it computes anything; the cup is stable exactly when
    the clamped tilt is below the critical angle, and the stability margin
    is their signed difference in degrees, negative exactly when the clamped
    tilt exceeds the critical angle. *)
Theorem calculatePhysicsState_stability
    (cylinder : CylinderParams) (fill tilt cupMass liquidDensity : R) :
  let st := calculatePhysicsState cylinder fill tilt cupMass liquidDensity in
  let clampedFill := Rmax 0 (Rmin 1 fill) in
  let clampedTilt := Rmax 0 (Rmin (PI / 2) tilt) in
  fillLevel st = clampedFill /\ 0 <= clampedFill <= 1 /\
  tiltAngle st = clampedTilt /\ 0 <= clampedTilt <= PI / 2 /\
  st = calculatePhysicsState cylinder clampedFill clampedTilt cupMass liquidDensity /\
  liquidVolume st = calculateLiquidVolume cylinder clampedFill /\
  volumePoured_ st = volumePoured clampedTilt cylinder clampedFill /\
  criticalTipoverAngle_ st =
    criticalTipoverAngle (centerOfMass st) (radius cylinder) (center cylinder) /\
  (isStable st = true <-> clampedTilt < criticalTipoverAngle_ st) /\
  stabilityMargin st = (criticalTipoverAngle_ st - clampedTilt) * (180 / PI) /\
  (stabilityMargin st < 0 <-> criticalTipoverAngle_ st < clampedTilt).
Proof.
  intros st clampedFill clampedTilt.
  pose proof PI2_RGT_0 as Hpi2. pose proof PI_RGT_0 as Hpi.
  assert (Hf : 0 <= clampedFill <= 1) by (apply clamp_range; lra).
  assert (Ht : 0 <= clampedTilt <= PI / 2) by (apply clamp_range; lra).
  assert (Hdeg : 0 < 180 / PI) by (apply Rdiv_lt_0_compat; lra).
  split; [ reflexivity | ]. split; [ exact Hf | ].
  split; [ reflexivity | ]. split; [ exact Ht | ].
  split.
  { unfold st, clampedFill, clampedTilt, calculatePhysicsState.
    rewrite !clamp_idempotent by lra. reflexivity. }
  split; [ reflexivity | ]. split; [ reflexivity | ].
  split.
  { unfold st, calculatePhysicsState; cbn [criticalTipoverAngle_ centerOfMass].
    rewrite Vector3_eta. reflexivity. }
  split.
  { unfold st, calculatePhysicsState;
      cbn [isStable criticalTipoverAngle_]. fold clampedFill. fold clampedTilt.
    match goal with |- context [Rlt_dec ?a ?b] => destruct (Rlt_dec a b) end.
    - split; intros _; [ assumption | reflexivity ].
    - split; [ discriminate | contradiction ]. }
  split; [ reflexivity | ].
  unfold st, calculatePhysicsState;
    cbn [stabilityMargin criticalTipoverAngle_]. fold clampedFill. fold clampedTilt.
  match goal with |- (?c - _) * _ < 0 <-> _ => set (crit := c) end.
  split; intros H; nra.
Qed.

(** C9: [calculateCenterOfMass] never divides by a zero total mass: it
    returns the cup centroid when [cupMass + liquidVolume * liquidDensity]
    is 0, and the mass-weighted average of the two centroids otherwise. *)
Theorem calculateCenterOfMass_total
    (cupMass : R) (cupCentroid : Vector3)
    (liquidVolume liquidDensity : R) (liquidCentroid : Vector3) :
  let liquidMass := liquidVolume * liquidDensity in
  let totalMass := cupMass + liquidMass in
  (totalMass = 0 ->
     calculateCenterOfMass cupMass cupCentroid liquidVolume liquidDensity
       liquidCentroid = cupCentroid) /\
  (totalMass <> 0 ->
     calculateCenterOfMass cupMass cupCentroid liquidVolume liquidDensity
       liquidCentroid =
     {| x := (cupMass * x cupCentroid + liquidMass * x liquidCentroid) / totalMass;
        y := (cupMass * y cupCentroid + liquidMass * y liquidCentroid) / totalMass;
        z := (cupMass * z cupCentroid + liquidMass * z liquidCentroid) / totalMass |}).
Proof.
  intros liquidMass totalMass. unfold calculateCenterOfMass.
  fold liquidMass. fold totalMass.
  destruct (Req_dec_T totalMass 0) as [H0 | H0]; split; intros H;
    solve [ reflexivity | contradiction ].
Qed.

(** *** The physics theorems at concrete inputs *)

Lemma sqrt_origin : sqrt ((0 - 0) ^ 2 + (0 - 0) ^ 2) = 0.
Proof. replace ((0 - 0) ^ 2 + (0 - 0) ^ 2) with 0 by ring. apply sqrt_0. Qed.

Lemma criticalTipoverAngle_cases_witness :
  (y origin - y origin <= 0 /\
   criticalTipoverAngle origin 1 origin = PI / 2) /\
  (0 < y aboveOrigin - y origin /\
   criticalTipoverAngle aboveOrigin 0 origin = 0) /\
  (0 < y aboveOrigin - y origin /\
   criticalTipoverAngle aboveOrigin 1 origin = JSMath.atan2 (1 - 0) (1 - 0)).
Proof.
  destruct (criticalTipoverAngle_cases origin 1 origin) as (H1 & _ & _).
  destruct (criticalTipoverAngle_cases aboveOrigin 0 origin) as (_ & H2 & _).
  destruct (criticalTipoverAngle_cases aboveOrigin 1 origin) as (_ & _ & H3).
  cbn [x y z origin aboveOrigin] in *. rewrite sqrt_origin in *.
  split; [ | split ].
  - split; [ lra | apply H1; lra ].
  - split; [ lra | apply H2; lra ].
  - split; [ lra | apply H3; lra ].
Defined.

Lemma criticalTipoverAngle_range_witness :
  0 < y aboveOrigin - y origin /\
  0 < criticalTipoverAngle aboveOrigin 1 origin < PI / 2.
Proof.
  destruct (criticalTipoverAngle_range aboveOrigin 1 origin) as (_ & H & _).
  cbn [x y z origin aboveOrigin] in *. rewrite sqrt_origin in *.
  split; [ lra | apply H; lra ].
Defined.

Lemma volumePoured_cases_witness :
  volumePoured (-1) unitCup 1 = 0 /\
  volumePoured (PI / 4) unitCup 0 = 0 /\
  volumePoured (PI / 4) unitCup 1 =
    Rmax 0 (Rmin (1 * 1 * cos (PI / 4) - (1 - 1 * 1) * tan (PI / 4))
                 (2 * 1 * sin (PI / 4)) * 1 ^ 2 * sin (PI / 4)).
Proof.
  pose proof PI_RGT_0 as Hpi.
  assert (Hcos : 0 < cos (PI / 4)) by (apply cos_gt_0; lra).
  assert (Htan : 0 < tan (PI / 4)) by (apply tan_gt_0; lra).
  destruct (volumePoured_cases (-1) unitCup 1) as (H1 & _).
  destruct (volumePoured_cases (PI / 4) unitCup 0) as (_ & H2 & _).
  destruct (volumePoured_cases (PI / 4) unitCup 1) as (_ & _ & H3 & _).
  cbn [radius height unitCup] in *.
  split; [ apply H1; lra | split ].
  - apply H2; lra.
  - apply H3; lra.
Defined.

Lemma calculatePhysicsState_stability_witness :
  fillLevel (calculatePhysicsState unitCup 2 (-1) defaultCupMass
               defaultLiquidDensity) = 1 /\
  tiltAngle (calculatePhysicsState unitCup 2 (-1) defaultCupMass
               defaultLiquidDensity) = 0.
Proof.
  pose proof PI2_RGT_0 as Hpi.
  destruct (calculatePhysicsState_stability unitCup 2 (-1) defaultCupMass
              defaultLiquidDensity) as (Hf & _ & Ht & _).
  rewrite Hf, Ht. split.
  - rewrite Rmin_left by lra. apply Rmax_right. lra.
  - rewrite Rmin_right by lra. apply Rmax_left. lra.
Defined.

Lemma calculateCenterOfMass_total_witness :
  calculateCenterOfMass 0 aboveOrigin 0 1000 origin = aboveOrigin /\
  calculateCenterOfMass 1 aboveOrigin 1 1 origin =
    mkVector3 ((1 * 0 + 1 * 1 * 0) / (1 + 1 * 1))
              ((1 * 1 + 1 * 1 * 0) / (1 + 1 * 1))
              ((1 * 0 + 1 * 1 * 0) / (1 + 1 * 1)).
Proof.
  destruct (calculateCenterOfMass_total 0 aboveOrigin 0 1000 origin) as (H0 & _).
  destruct (calculateCenterOfMass_total 1 aboveOrigin 1 1 origin) as (_ & H1).
  split.
  - apply H0. lra.
  - apply H1. lra.
Defined.

End PhysicsProperties.

(** * Properties of the circle and cylinder fitters *)

Section CircleFitProperties.

Import CylinderFitting Vocabulary Samples.

Lemma fitCircle2D_Some_inv (points : list Point2) (c : Circle2D.t) :
  fitCircle2D points = Some c ->
  (3 <= length points)%nat /\
  1e-10 <= Rabs (determinant3x3 (matrixA points)) /\
  0 < radicand points /\
  Circle2D.radius c = sqrt (radicand points) /\
  0 < Circle2D.radius c.
Proof.
  unfold fitCircle2D. fold (radicand points).
  destruct (Nat.ltb_spec (length points) 3) as [ | Hlen ]; [ discriminate | ].
  destruct (Rlt_dec _ _) as [ | Hdet ]; [ discriminate | ].
  unfold JSMath.sqrt.
  destruct (Rlt_dec (radicand points) 0) as [ | Hrad ]; [ discriminate | ].
  destruct (Rle_dec (sqrt (radicand points)) 0) as [ | Hr ]; [ discriminate | ].
  intros H. injection H as <-. cbn [Circle2D.radius].
  repeat split; try lra; try assumption.
  destruct (Rle_lt_dec (radicand points) 0) as [Hle | ]; [ | assumption ].
  rewrite sqrt_neg_0 in Hr by exact Hle. lra.
Qed.

(** Every circle that [fitCircle2D] returns has a positive radius. *)
Lemma fitCircle2D_radius_pos (points : list Point2) (c : Circle2D.t) :
  fitCircle2D points = Some c -> 0 < Circle2D.radius c.
Proof. intros H. apply (fitCircle2D_Some_inv points c H). Qed.

(** For three points the determinant of the normal equations is the square
    of the doubled signed area of their triangle. *)
Lemma determinant_three_points (x1 y1 x2 y2 x3 y3 : R) :
  determinant3x3 (matrixA [(x1, y1); (x2, y2); (x3, y3)]) =
  ((x2 - x1) * (y3 - y1) - (x3 - x1) * (y2 - y1)) ^ 2.
Proof.
  unfold determinant3x3, matrixA, sums, entry.
  cbn [fold_left addPoint zeroSums nth length INR
       sumX sumY sumX2 sumY2 sumXY sumX3 sumY3 sumX2Y sumXY2].
  ring.
Qed.

End CircleFitProperties.

(** * What [fitCircle2D] rejects, on the computed values *)

Section CircleFitDoubleProperties.

Import PrimFloat Binary64.
Local Open Scope float_scope.







End CircleFitDoubleProperties.

Section RandomizedFitProperties.

Import CylinderFitting Vocabulary Samples.

Variable random : nat -> R.

Lemma bind_Done_inv {A B} (m : Rand A) (f : A -> Rand B) (k k' : nat) (b : B) :
  bind m f k = Done (b, k') ->
  exists a k1, m k = Done (a, k1) /\ f a k1 = Done (b, k').
Proof.
  unfold bind. destruct (m k) as [[a k1] | | ]; try discriminate.
  intros H. exists a, k1. split; [ reflexivity | exact H ].
Qed.

Lemma ret_Done_inv {A} (a b : A) (k k' : nat) :
  ret a k = Done (b, k') -> a = b /\ k = k'.
Proof. unfold ret. intros H. injection H as -> ->. split; reflexivity. Qed.

(** The loop of [fitCircleRANSAC] only ever stores circles produced by
    [fitCircle2D], so the best circle keeps a positive radius. *)
Lemma ransacLoop_positive (fuel : nat) (points : list Point2) (threshold : R) :
  forall (iterations : nat) (bestCircle : option Circle2D.t) (bestInliers k k' : nat)
         (result : option Circle2D.t),
    positiveCircle bestCircle ->
    ransacLoop random fuel points threshold iterations bestCircle bestInliers k
      = Done (result, k') ->
    positiveCircle result.
Proof.
  induction iterations as [ | iterations IH ];
    intros bestCircle bestInliers k k' result Hbest Hrun.
  - cbn in Hrun. apply ret_Done_inv in Hrun as [<- _]. exact Hbest.
  - cbn [ransacLoop] in Hrun.
    apply bind_Done_inv in Hrun as (indices & k1 & _ & Hrun).
    destruct (lookupAll points indices) as [sample | ]; [ | discriminate ].
    destruct (fitCircle2D sample) as [circle | ] eqn:Hfit.
    + destruct (_ <? _)%nat.
      * eapply IH; [ | exact Hrun ].
        cbn. eapply fitCircle2D_radius_pos. exact Hfit.
      * eapply IH; [ exact Hbest | exact Hrun ].
    + eapply IH; [ exact Hbest | exact Hrun ].
Qed.

Lemma refit_positive (points : list Point2) (threshold : R)
    (bestCircle : option Circle2D.t) :
  positiveCircle bestCircle -> positiveCircle (refit points threshold bestCircle).
Proof.
  unfold refit. destruct bestCircle as [best | ]; [ | trivial ].
  intros Hbest. destruct (_ <=? _)%nat; [ | exact Hbest ].
  destruct (fitCircle2D _) as [refined | ] eqn:Hfit; [ | exact Hbest ].
  cbn. eapply fitCircle2D_radius_pos. exact Hfit.
Qed.

(** Every circle returned by [fitCircleRANSAC] has a positive radius. *)
Lemma fitCircleRANSAC_positive (fuel : nat) (points : list Point2)
    (iterations : nat) (threshold : R) (k k' : nat) (circle : Circle2D.t) :
  fitCircleRANSAC random fuel points iterations threshold k = Done (Some circle, k') ->
  0 < Circle2D.radius circle.
Proof.
  unfold fitCircleRANSAC. destruct (_ <? _)%nat.
  - intros H. apply ret_Done_inv in H as [H _]. discriminate.
  - intros H. apply bind_Done_inv in H as (best & k1 & Hloop & H).
    apply ret_Done_inv in H as [H _].
    apply ransacLoop_positive in Hloop; [ | exact I ].
    apply (refit_positive points threshold) in Hloop. rewrite H in Hloop. exact Hloop.
Qed.

(** *** No [TypeError] when [Math.random] keeps its contract

    [Math.random] returns a number in [0, 1); the drawn indices are then
    valid, and no run raises. *)

Lemma floor_index_range (u : R) (n : nat) :
  0 <= u < 1 -> (0 < n)%nat ->
  (0 <= JSMath.floor (u * INR n) < Z.of_nat n)%Z.
Proof.
  intros Hu Hn. unfold JSMath.floor.
  assert (HnR : 0 < INR n) by (apply lt_0_INR; exact Hn).
  destruct (base_Int_part (u * INR n)) as [Hle Hgt].
  split.
  - assert (H : (-1 < Int_part (u * INR n))%Z) by (apply lt_IZR; nra).
    lia.
  - apply lt_IZR. rewrite <- INR_IZR_INZ. nra.
Qed.

Lemma setAdd_range (n : nat) (i : Z) (indices : list Z) :
  (0 <= i < Z.of_nat n)%Z ->
  Forall (fun j => (0 <= j < Z.of_nat n)%Z) indices ->
  Forall (fun j => (0 <= j < Z.of_nat n)%Z) (setAdd i indices).
Proof.
  intros Hi Hall. unfold setAdd. destruct (existsb _ _); [ exact Hall | ].
  apply Forall_app. split; [ exact Hall | ]. constructor; [ exact Hi | constructor ].
Qed.

Lemma drawIndices_range (Hrandom : forall k, 0 <= random k < 1) (n : nat) :
  (0 < n)%nat ->
  forall (fuel : nat) (indices : list Z) (k k' : nat) (drawn : list Z),
    Forall (fun j => (0 <= j < Z.of_nat n)%Z) indices ->
    drawIndices random fuel n indices k = Done (drawn, k') ->
    Forall (fun j => (0 <= j < Z.of_nat n)%Z) drawn.
Proof.
  intros Hn. induction fuel as [ | fuel IH ]; intros indices k k' drawn Hall Hrun.
  - cbn [drawIndices] in Hrun. destruct (_ <? _)%nat; [ discriminate | ].
    apply ret_Done_inv in Hrun as [<- _]. exact Hall.
  - cbn [drawIndices] in Hrun. destruct (_ <? _)%nat.
    + unfold bind, Math_random in Hrun.
      eapply IH; [ | exact Hrun ].
      apply setAdd_range; [ | exact Hall ].
      apply floor_index_range; [ apply Hrandom | exact Hn ].
    + apply ret_Done_inv in Hrun as [<- _]. exact Hall.
Qed.

Lemma drawIndices_never_throws (n fuel : nat) :
  forall (indices : list Z) (k : nat),
    drawIndices random fuel n indices k <> Throws.
Proof.
  induction fuel as [ | fuel IH ]; intros indices k; cbn [drawIndices];
    destruct (_ <? _)%nat; try discriminate.
  unfold bind, Math_random. apply IH.
Qed.

Lemma lookupAll_in_range {A} (points : list A) (indices : list Z) :
  Forall (fun j => (0 <= j < Z.of_nat (length points))%Z) indices ->
  exists sample, lookupAll points indices = Some sample.
Proof.
  induction 1 as [ | i indices Hi _ (sample & IH) ]; [ exists []; reflexivity | ].
  cbn [lookupAll]. unfold at_index.
  destruct (Z.ltb_spec i 0) as [ | _ ]; [ lia | ].
  destruct (nth_error points (Z.to_nat i)) as [ p | ] eqn:Hp.
  - rewrite IH. exists (p :: sample). reflexivity.
  - apply nth_error_None in Hp. lia.
Qed.

Lemma ransacLoop_never_throws (Hrandom : forall k, 0 <= random k < 1)
    (fuel : nat) (points : list Point2) (threshold : R) :
  (0 < length points)%nat ->
  forall (iterations : nat) (bestCircle : option Circle2D.t) (bestInliers k : nat),
    ransacLoop random fuel points threshold iterations bestCircle bestInliers k
      <> Throws.
Proof.
  intros Hlen.
  induction iterations as [ | iterations IH ]; intros bestCircle bestInliers k;
    [ discriminate | ].
  cbn [ransacLoop]. unfold bind at 1.
  destruct (drawIndices random fuel (length points) [] k)
    as [[indices k1] | | ] eqn:Hdraw.
  - apply (drawIndices_range Hrandom _ Hlen) in Hdraw; [ | constructor ].
    destruct (lookupAll_in_range points indices Hdraw) as (sample & ->).
    destruct (fitCircle2D sample); [ destruct (_ <? _)%nat | ]; apply IH.
  - exfalso. exact (drawIndices_never_throws _ _ _ _ Hdraw).
  - discriminate.
Qed.

Lemma fitCircleRANSAC_never_throws (Hrandom : forall k, 0 <= random k < 1)
    (fuel : nat) (points : list Point2) (iterations : nat) (threshold : R) (k : nat) :
  fitCircleRANSAC random fuel points iterations threshold k <> Throws.
Proof.
  unfold fitCircleRANSAC.
  destruct (Nat.ltb_spec (length points) 3) as [ | Hlen ]; [ discriminate | ].
  unfold bind.
  destruct (ransacLoop random fuel points threshold iterations None 0 k)
    as [[best k1] | | ] eqn:Hloop; try discriminate.
  exfalso. revert Hloop. apply ransacLoop_never_throws; [ exact Hrandom | lia ].
Qed.

(** What a successful [fitCylinder] returns. *)
Lemma fitCylinder_Some_inv (fuel : nat) (positions : list Point3) (axis : Axis)
    (k k' : nat) (cylinder : CylinderFit.t) :
  fitCylinder random fuel positions axis k = Done (Some cylinder, k') ->
  exists circle minY maxY,
    fitCircleRANSAC random fuel (projectedPoints positions) 200 0.05 k
      = Done (Some circle, k') /\
    heightExtent positions = (Some minY, Some maxY) /\
    0 < maxY - minY /\
    CylinderFit.radius cylinder = Circle2D.radius circle /\
    CylinderFit.height cylinder = maxY - minY /\
    CylinderFit.center cylinder =
      (fst (Circle2D.center circle), minY, snd (Circle2D.center circle)) /\
    CylinderFit.axis cylinder = axis.
Proof.
  unfold fitCylinder. destruct (_ <? _)%nat.
  - intros H. apply ret_Done_inv in H as [H _]. discriminate.
  - intros H. apply bind_Done_inv in H as ([circle | ] & k1 & Hfit & H).
    + destruct (heightExtent positions) as [[minY | ] [maxY | ]];
        try (apply ret_Done_inv in H as [H _]; discriminate).
      destruct (Rle_dec (maxY - minY) 0) as [ | Hh ];
        [ apply ret_Done_inv in H as [H _]; discriminate | ].
      apply ret_Done_inv in H as [H <-]. injection H as <-.
      exists circle, minY, maxY. cbn. repeat split; try reflexivity; try assumption. lra.
    + apply ret_Done_inv in H as [H _]. discriminate.
Qed.

(** The result of [fitCylinder] depends on the parameter [axis] only
    through the field [axis]: the projection and the fit ignore it. *)
Lemma fitCylinder_axis_irrelevant (fuel : nat) (positions : list Point3)
    (axis : Axis) (k : nat) :
  fitCylinder random fuel positions axis k =
  match fitCylinder random fuel positions defaultAxis k with
  | Done (r, k') => Done (option_map (withAxis axis) r, k')
  | Throws => Throws
  | OutOfFuel => OutOfFuel
  end.
Proof.
  unfold fitCylinder. destruct (_ <? _)%nat; [ reflexivity | ].
  unfold bind.
  destruct (fitCircleRANSAC random fuel (projectedPoints positions) 200 0.05 k)
    as [[[circle | ] k1] | | ]; try reflexivity.
  destruct (heightExtent positions) as [[minY | ] [maxY | ]]; try reflexivity.
  destruct (Rle_dec (maxY - minY) 0); reflexivity.
Qed.

Lemma projectedPoints_drop_Y (positions : list Point3) :
  projectedPoints positions = map (dropAxisCoordinate alongY) positions.
Proof.
  unfold projectedPoints. apply map_ext. intros [[px py] pz]. reflexivity.
Qed.

(** C6 (amended): whatever axis is supplied, [fitCylinder] hands to the
    circle fit the [(x, z)] components of every point, which is the
    projection orthogonal to the vertical axis; the supplied axis is only
    copied into the result. *)
Theorem fitCylinder_projects_onto_XZ (fuel : nat) (positions : list Point3)
    (axis : Axis) (k : nat) :
  projectedPoints positions = map (dropAxisCoordinate alongY) positions /\
  fitCylinder random fuel positions axis k =
    match fitCylinder random fuel positions (axisVector alongY) k with
    | Done (r, k') => Done (option_map (withAxis axis) r, k')
    | Throws => Throws
    | OutOfFuel => OutOfFuel
    end /\
  (forall (cylinder : CylinderFit.t) (k' : nat),
     fitCylinder random fuel positions axis k = Done (Some cylinder, k') ->
     exists circle,
       fitCircleRANSAC random fuel (map (dropAxisCoordinate alongY) positions)
         200 0.05 k = Done (Some circle, k') /\
       CylinderFit.radius cylinder = Circle2D.radius circle /\
       dropAxisCoordinate alongY (CylinderFit.center cylinder) =
         Circle2D.center circle /\
       CylinderFit.axis cylinder = axis).
Proof.
  split; [ apply projectedPoints_drop_Y | split ].
  - apply fitCylinder_axis_irrelevant.
  - intros cylinder k' H.
    apply fitCylinder_Some_inv in H
      as (circle & minY & maxY & Hfit & _ & _ & Hr & _ & Hc & Ha).
    exists circle. rewrite <- projectedPoints_drop_Y.
    split; [ exact Hfit | ]. split; [ exact Hr | ]. split; [ | exact Ha ].
    rewrite Hc. cbn [dropAxisCoordinate]. destruct (Circle2D.center circle).
    reflexivity.
Qed.

End RandomizedFitProperties.

(** * Properties of the volume detector *)

Section RimDetectionProperties.

Import CylinderFitting VolumeDetection Samples.

Lemma inSlice_spec (height thickness : R) (p : Point3) :
  inSlice height thickness p = true <-> Rabs (coordY p - height) < thickness / 2.
Proof.
  unfold inSlice. destruct (Rlt_dec _ _) as [H | H].
  - split; [ intros _; exact H | reflexivity ].
  - split; [ discriminate | contradiction ].
Qed.

Lemma sliceAtHeight_length (positions : list Point3) (height thickness : R) :
  length (sliceAtHeight positions height thickness) =
  length (filter (inSlice height thickness) positions).
Proof. unfold sliceAtHeight. apply length_map. Qed.

(** Scanning [f 0, ..., f (n-1)] from the last index down finds the
    greatest index that passes the test. *)
Lemma find_rev_topmost {A} (test : A -> bool) (f : nat -> A) (n i : nat) :
  (i < n)%nat -> test (f i) = true ->
  (forall j, (i < j < n)%nat -> test (f j) = false) ->
  find test (rev (map f (seq 0 n))) = Some (f i).
Proof.
  induction n as [ | n IH ]; intros Hi Hpass Habove; [ lia | ].
  rewrite seq_S, map_app, rev_app_distr. cbn [map rev app find Nat.add].
  destruct (Nat.eq_dec i n) as [-> | Hne].
  - rewrite Hpass. reflexivity.
  - rewrite (Habove n) by lia. apply IH; [ lia | exact Hpass | ].
    intros j Hj. apply Habove. lia.
Qed.

Lemma find_rev_none {A} (test : A -> bool) (f : nat -> A) (n : nat) :
  (forall j, (j < n)%nat -> test (f j) = false) ->
  find test (rev (map f (seq 0 n))) = None.
Proof.
  induction n as [ | n IH ]; intros Hfail; [ reflexivity | ].
  rewrite seq_S, map_app, rev_app_distr. cbn [map rev app find Nat.add].
  rewrite (Hfail n) by lia. apply IH. intros j Hj. apply Hfail. lia.
Qed.

Lemma maxCount_upper (counts : list nat) (m : nat) :
  (forall c, In c counts -> (c <= m)%nat) -> (maxCount counts <= m)%nat.
Proof.
  induction counts as [ | c counts IH ]; intros H; [ cbn; lia | ].
  change (Nat.max c (maxCount counts) <= m)%nat.
  apply Nat.max_lub.
  - apply H. left. reflexivity.
  - apply IH. intros c' Hc'. apply H. right. exact Hc'.
Qed.

Lemma maxCount_lower (counts : list nat) (c : nat) :
  In c counts -> (c <= maxCount counts)%nat.
Proof.
  induction counts as [ | c' counts IH ]; intros H; [ contradiction | ].
  change (c <= Nat.max c' (maxCount counts))%nat.
  destruct H as [-> | H]; [ lia | ]. specialize (IH H). lia.
Qed.

(** The greatest of the band counts, characterised. *)
Lemma maxCount_bands (count : nat -> nat) (n m : nat) :
  (forall i, (i < n)%nat -> (count i <= m)%nat) ->
  (exists i, (i < n)%nat /\ count i = m) ->
  maxCount (map count (seq 0 n)) = m.
Proof.
  intros Hub (i & Hi & Hm). apply Nat.le_antisymm.
  - apply maxCount_upper. intros c Hc.
    apply in_map_iff in Hc as (j & <- & Hj). apply in_seq in Hj. apply Hub. lia.
  - rewrite <- Hm. apply maxCount_lower. apply in_map_iff.
    exists i. split; [ reflexivity | apply in_seq; lia ].
Qed.

Lemma INR_20 : INR 20 = 20.
Proof. rewrite INR_IZR_INZ. reflexivity. Qed.

(** The scan of [findRimHeight] in terms of the band counts. *)
Lemma findRimHeight_scan
    (positions : list Point3) (minY maxY : R) (maxDensity : nat) :
  let thickness := (maxY - minY) / 20 in
  let centre := fun i : nat => minY + (INR i + 0.5) * thickness in
  let count := fun i : nat =>
    length (filter (inSlice (centre i) thickness) positions) in
  let threshold := 0.3 * INR maxDensity in
  (forall i, (i < 20)%nat -> (count i <= maxDensity)%nat) ->
  (exists i, (i < 20)%nat /\ count i = maxDensity) ->
  (forall i, (i < 20)%nat ->
     threshold < INR (count i) ->
     (forall j, (i < j < 20)%nat -> INR (count j) <= threshold) ->
     findRimHeight positions minY maxY defaultNumSlices = centre i) /\
  ((forall i, (i < 20)%nat -> INR (count i) <= threshold) ->
     findRimHeight positions minY maxY defaultNumSlices = maxY).
Proof.
  intros thickness centre count threshold Hub Hmax.
  unfold findRimHeight, densitiesOf, defaultNumSlices.
  rewrite map_map. cbn [Density.count].
  rewrite INR_20. fold thickness.
  rewrite (map_ext _ count) by (intros i; apply sliceAtHeight_length).
  rewrite (maxCount_bands count 20 maxDensity Hub Hmax).
  replace (INR maxDensity * 0.3) with threshold by (unfold threshold; ring).
  set (band := fun i : nat =>
    {| Density.height := centre i;
       Density.count := length (sliceAtHeight positions (centre i) thickness) |}).
  change (map _ (seq 0 20)) with (map band (seq 0 20)).
  set (test := fun d : Density.t =>
    if Rlt_dec threshold (INR (Density.count d)) then true else false).
  assert (Htest : forall i, test (band i) = true <-> threshold < INR (count i)).
  { intros i. unfold test, band. cbn [Density.count].
    replace (length (sliceAtHeight positions (centre i) thickness))
      with (count i) by (symmetry; apply sliceAtHeight_length).
    destruct (Rlt_dec threshold (INR (count i))) as [H | H].
    - split; [ intros _; exact H | reflexivity ].
    - split; [ discriminate | contradiction ]. }
  split.
  - intros i Hi Hpass Habove.
    rewrite (find_rev_topmost test band 20 i Hi).
    + reflexivity.
    + apply Htest. exact Hpass.
    + intros j Hj. destruct (test (band j)) eqn:Hj'; [ | reflexivity ].
      apply Htest in Hj'. specialize (Habove j Hj). lra.
  - intros Hnone. rewrite (find_rev_none test band 20); [ reflexivity | ].
    intros j Hj. destruct (test (band j)) eqn:Hj'; [ | reflexivity ].
    apply Htest in Hj'. specialize (Hnone j Hj). lra.
Qed.

(** C7: rim detection cuts [minY, maxY] into 20 bands of equal thickness,
    counts in each band the points whose height is strictly within half a
    thickness of the band's centre, and returns the centre of the topmost
    band whose count strictly exceeds 0.3 times the greatest count; when no
    band does, it returns [maxY]. *)
Theorem findRimHeight_topmost_dense_band
    (positions : list Point3) (minY maxY : R) (maxDensity : nat) :
  let thickness := (maxY - minY) / 20 in
  let centre := fun i : nat => minY + (INR i + 0.5) * thickness in
  let count := fun i : nat =>
    length (filter (fun p => if Rlt_dec (Rabs (coordY p - centre i)) (thickness / 2)
                             then true else false) positions) in
  let threshold := 0.3 * INR maxDensity in
  (forall i, (i < 20)%nat -> (count i <= maxDensity)%nat) ->
  (exists i, (i < 20)%nat /\ count i = maxDensity) ->
  (forall i, (i < 20)%nat ->
     threshold < INR (count i) ->
     (forall j, (i < j < 20)%nat -> INR (count j) <= threshold) ->
     findRimHeight positions minY maxY defaultNumSlices = centre i) /\
  ((forall i, (i < 20)%nat -> INR (count i) <= threshold) ->
     findRimHeight positions minY maxY defaultNumSlices = maxY).
Proof. exact (findRimHeight_scan positions minY maxY maxDensity). Qed.

Lemma findRimHeight_topmost_dense_band_witness :
  findRimHeight onePointHigh 0 20 defaultNumSlices = 19.5 /\
  findRimHeight [] 0 20 defaultNumSlices = 20.
Proof.
  split.
  - destruct (findRimHeight_topmost_dense_band onePointHigh 0 20 1) as [Htop _].
    + intros i _. apply (filter_length_le _ onePointHigh).
    + exists 19%nat. split; [ lia | ].
      cbn [onePointHigh filter coordY INR].
      destruct (Rlt_dec _ _) as [ _ | Hn ]; [ reflexivity | ].
      exfalso. apply Hn. apply Rabs_def1; lra.
    + rewrite (Htop 19%nat).
      * cbn [INR]. lra.
      * lia.
      * cbn [onePointHigh filter coordY INR].
        destruct (Rlt_dec (Rabs _) _) as [ _ | Hn ].
        -- cbn [length INR]. lra.
        -- exfalso. apply Hn. apply Rabs_def1; lra.
      * intros j Hj. lia.
  - destruct (findRimHeight_topmost_dense_band [] 0 20 0) as [_ Hnone].
    + intros i _. cbn. lia.
    + exists 0%nat. split; [ lia | reflexivity ].
    + apply Hnone. intros i _. cbn [filter length INR]. lra.
Defined.

End RimDetectionProperties.

Section DetectVolumeProperties.

Import CylinderFitting PlyParser VolumeDetection Vocabulary.

Variable random : nat -> R.

(** The two ways in which [detectVolume] returns a result. *)
Lemma detectVolume_Some_inv (fuel : nat) (ply : ParsedPly) (k k' : nat)
    (res : VolumeDetectionResult.t) :
  detectVolume random fuel ply k = Done (Some res, k') ->
  let positions := getPositions ply in
  let minY := coordY (Bounds.min (bounds ply)) in
  let maxY := coordY (Bounds.max (bounds ply)) in
  let rimHeight := findRimHeight positions minY maxY defaultNumSlices in
  (100 <= length positions)%nat /\
  ((exists rimCircle,
      fitCircleRANSAC random fuel (rimPointsOf ply) 200 0.05 k
        = Done (Some rimCircle, k') /\
      res =
      {| VolumeDetectionResult.cylinder :=
           {| CylinderFit.center :=
                (fst (Circle2D.center rimCircle), minY,
                 snd (Circle2D.center rimCircle));
              CylinderFit.radius := Circle2D.radius rimCircle * 0.85;
              CylinderFit.height := Rmax 0.01 (rimHeight - minY);
              CylinderFit.axis := fst (detectOrientation positions);
              CylinderFit.confidence := 0.8 |};
         VolumeDetectionResult.rimHeight := rimHeight;
         VolumeDetectionResult.baseHeight := minY;
         VolumeDetectionResult.interiorVolume :=
           Rmax 0 (PI * (Circle2D.radius rimCircle * 0.85) ^ 2 * (rimHeight - minY));
         VolumeDetectionResult.orientation := snd (detectOrientation positions) |})
   \/
   (exists k1 cylinder,
      fitCircleRANSAC random fuel (rimPointsOf ply) 200 0.05 k = Done (None, k1) /\
      fitCylinder random fuel positions defaultAxis k1 = Done (Some cylinder, k') /\
      res =
      {| VolumeDetectionResult.cylinder := cylinder;
         VolumeDetectionResult.rimHeight :=
           coordY (CylinderFit.center cylinder) + CylinderFit.height cylinder;
         VolumeDetectionResult.baseHeight := coordY (CylinderFit.center cylinder);
         VolumeDetectionResult.interiorVolume :=
           PI * CylinderFit.radius cylinder ^ 2 * CylinderFit.height cylinder;
         VolumeDetectionResult.orientation := snd (detectOrientation positions) |})).
Proof.
  unfold detectVolume, rimPointsOf.
  destruct (Nat.ltb_spec (length (getPositions ply)) 100) as [ Hlen | Hlen ].
  - intros H. apply ret_Done_inv in H as [H _]. discriminate.
  - destruct (detectOrientation (getPositions ply)) as [axis orientation].
    intros H. cbn zeta. split; [ exact Hlen | ].
    apply bind_Done_inv in H as ([rimCircle | ] & k1 & Hrim & H).
    + apply ret_Done_inv in H as [H <-]. injection H as <-.
      left. exists rimCircle. split; [ exact Hrim | reflexivity ].
    + apply bind_Done_inv in H as ([cylinder | ] & k2 & Hcyl & H).
      * apply ret_Done_inv in H as [H <-]. injection H as <-.
        right. exists k1, cylinder. repeat split; assumption.
      * apply ret_Done_inv in H as [H _]. discriminate.
Qed.

(** When the circle fit on the rim points succeeds, [detectVolume] returns
    the interior cylinder built from it. *)
Lemma detectVolume_normal_path (fuel : nat) (ply : ParsedPly) (k k' : nat)
    (rimCircle : Circle2D.t) :
  (100 <= length (getPositions ply))%nat ->
  fitCircleRANSAC random fuel (rimPointsOf ply) 200 0.05 k
    = Done (Some rimCircle, k') ->
  exists res, detectVolume random fuel ply k = Done (Some res, k').
Proof.
  intros Hlen Hrim. unfold detectVolume.
  destruct (Nat.ltb_spec (length (getPositions ply)) 100) as [ | _ ]; [ lia | ].
  destruct (detectOrientation (getPositions ply)) as [axis orientation].
  unfold bind. unfold rimPointsOf in Hrim. rewrite Hrim.
  eexists. reflexivity.
Qed.

(** C4 (amended): on the normal path the interior cylinder has radius 0.85
    times the rim radius, stands on the bottom of the bounds under the rim
    centre, has the height [rimHeight - baseHeight] floored at 0.01 and the
    confidence 0.8; the interior volume is [PI * radius^2 * (rimHeight -
    baseHeight)] floored at 0, computed from the height before its floor,
    so it is the volume of the returned cylinder whenever that height is at
    least 0.01. *)
Theorem detectVolume_normal_path_result (fuel : nat) (ply : ParsedPly)
    (k k' : nat) (rimCircle : Circle2D.t) :
  let positions := getPositions ply in
  let minY := coordY (Bounds.min (bounds ply)) in
  let maxY := coordY (Bounds.max (bounds ply)) in
  (100 <= length positions)%nat ->
  fitCircleRANSAC random fuel (rimPointsOf ply) 200 0.05 k
    = Done (Some rimCircle, k') ->
  exists res,
    detectVolume random fuel ply k = Done (Some res, k') /\
    let cylinder := VolumeDetectionResult.cylinder res in
    let rimHeight := VolumeDetectionResult.rimHeight res in
    let baseHeight := VolumeDetectionResult.baseHeight res in
    rimHeight = findRimHeight positions minY maxY defaultNumSlices /\
    baseHeight = minY /\
    CylinderFit.radius cylinder = 0.85 * Circle2D.radius rimCircle /\
    CylinderFit.center cylinder =
      (fst (Circle2D.center rimCircle), baseHeight,
       snd (Circle2D.center rimCircle)) /\
    CylinderFit.height cylinder = Rmax 0.01 (rimHeight - baseHeight) /\
    CylinderFit.confidence cylinder = 0.8 /\
    VolumeDetectionResult.interiorVolume res =
      Rmax 0 (PI * CylinderFit.radius cylinder ^ 2 * (rimHeight - baseHeight)) /\
    (0.01 <= rimHeight - baseHeight ->
     VolumeDetectionResult.interiorVolume res =
       PI * CylinderFit.radius cylinder ^ 2 * CylinderFit.height cylinder).
Proof.
  intros positions minY maxY Hlen Hrim.
  destruct (detectVolume_normal_path fuel ply k k' rimCircle Hlen Hrim) as (res & Hres).
  exists res. split; [ exact Hres | ].
  pose proof (fitCircleRANSAC_positive _ _ _ _ _ _ _ _ Hrim) as Hpos.
  apply detectVolume_Some_inv in Hres as (_ & [(c & Hc & ->) | (k1 & cyl & Hnone & _)]).
  - rewrite Hrim in Hc. injection Hc as <-.
    cbn [VolumeDetectionResult.cylinder VolumeDetectionResult.rimHeight
         VolumeDetectionResult.baseHeight VolumeDetectionResult.interiorVolume
         CylinderFit.radius CylinderFit.center CylinderFit.height
         CylinderFit.confidence].
    fold positions. fold minY. fold maxY.
    repeat split; try reflexivity; try ring.
    intros Hh. rewrite (Rmax_right 0.01) by exact Hh.
    apply Rmax_right.
    pose proof PI_RGT_0 as Hpi.
    apply Rmult_le_pos; [ apply Rmult_le_pos; [ lra | apply pow2_ge_0 ] | lra ].
  - rewrite Hrim in Hnone. discriminate.
Qed.

(** C8: every result of [detectVolume], on the rim-circle path and on the
    full-cylinder fallback, has a cylinder of positive radius and positive
    height. *)
Theorem detectVolume_cylinder_positive (fuel : nat) (ply : ParsedPly)
    (k k' : nat) (res : VolumeDetectionResult.t) :
  detectVolume random fuel ply k = Done (Some res, k') ->
  0 < CylinderFit.radius (VolumeDetectionResult.cylinder res) /\
  0 < CylinderFit.height (VolumeDetectionResult.cylinder res).
Proof.
  intros H.
  apply detectVolume_Some_inv in H
    as (_ & [(c & Hc & ->) | (k1 & cyl & _ & Hcyl & ->)]).
  - apply fitCircleRANSAC_positive in Hc.
    cbn [VolumeDetectionResult.cylinder CylinderFit.radius CylinderFit.height].
    split; [ lra | ].
    eapply Rlt_le_trans; [ | apply Rmax_l ]. lra.
  - cbn [VolumeDetectionResult.cylinder].
    apply fitCylinder_Some_inv in Hcyl
      as (circle & minY & maxY & Hfit & _ & Hh & Hr & Hheight & _).
    apply fitCircleRANSAC_positive in Hfit.
    rewrite Hr, Hheight. split; assumption.
Qed.

End DetectVolumeProperties.

(** * A complete run of the detector on a small cup *)

Section ThimbleRun.

Import CylinderFitting PlyParser VolumeDetection Vocabulary Samples.

Lemma thimble_positions : getPositions thimble = thimblePositions.
Proof. reflexivity. Qed.

Lemma thimble_length : length (getPositions thimble) = 102%nat.
Proof. reflexivity. Qed.

Lemma inSlice_in (h t px py pz : R) :
  h - t / 2 < py < h + t / 2 -> inSlice h t (px, py, pz) = true.
Proof.
  intros H. apply inSlice_spec. cbn [coordY]. apply Rabs_def1; lra.
Qed.

Lemma inSlice_out (h t px py pz : R) :
  py <= h - t / 2 \/ h + t / 2 <= py -> inSlice h t (px, py, pz) = false.
Proof.
  intros H. destruct (inSlice h t (px, py, pz)) eqn:E; [ | reflexivity ].
  apply inSlice_spec in E. cbn [coordY] in E. apply Rabs_def2 in E. lra.
Qed.

Lemma filter_ring_in (h t level : R) (rest : list Point3) :
  h - t / 2 < level < h + t / 2 ->
  filter (inSlice h t) (ringAt level ++ rest) =
  ringAt level ++ filter (inSlice h t) rest.
Proof.
  intros H. unfold ringAt, ringXZ. cbn [map app filter].
  rewrite !inSlice_in by exact H. reflexivity.
Qed.

Lemma filter_ring_out (h t level : R) (rest : list Point3) :
  level <= h - t / 2 \/ h + t / 2 <= level ->
  filter (inSlice h t) (ringAt level ++ rest) = filter (inSlice h t) rest.
Proof.
  intros H. unfold ringAt, ringXZ. cbn [map app filter].
  rewrite !inSlice_out by exact H. reflexivity.
Qed.

Lemma filter_point_in (h t px py pz : R) (rest : list Point3) :
  h - t / 2 < py < h + t / 2 ->
  filter (inSlice h t) ((px, py, pz) :: rest) =
  (px, py, pz) :: filter (inSlice h t) rest.
Proof. intros H. cbn [filter]. rewrite inSlice_in by exact H. reflexivity. Qed.

Lemma filter_point_out (h t px py pz : R) (rest : list Point3) :
  py <= h - t / 2 \/ h + t / 2 <= py ->
  filter (inSlice h t) ((px, py, pz) :: rest) = filter (inSlice h t) rest.
Proof. intros H. cbn [filter]. rewrite inSlice_out by exact H. reflexivity. Qed.

(** Decides, ring after ring and point after point, which of the thimble's
    points lie in a slice. *)
Ltac slice_thimble :=
  unfold thimblePositions; cbn [flat_map seq];
  rewrite filter_app;
  unfold levelY; cbn [INR];
  repeat first
    [ rewrite filter_ring_in by lra
    | rewrite filter_ring_out by lra
    | rewrite filter_point_in by lra
    | rewrite filter_point_out by lra ];
  cbn [filter app].

Lemma thimble_band_count (i : nat) :
  (i < 20)%nat ->
  length (filter (inSlice (0 + (INR i + 0.5) * ((0.008 - 0) / 20))
                          ((0.008 - 0) / 20)) thimblePositions) = 5%nat.
Proof.
  intros Hi.
  do 20 (destruct i as [ | i ]; [ slice_thimble; reflexivity | ]).
  lia.
Qed.

Lemma thimble_rim_height :
  findRimHeight thimblePositions 0 0.008 defaultNumSlices = 0.0078.
Proof.
  destruct (findRimHeight_scan thimblePositions 0 0.008 5) as [Htop _].
  - intros i Hi. rewrite thimble_band_count by exact Hi. lia.
  - exists 19%nat. split; [ lia | apply thimble_band_count; lia ].
  - rewrite (Htop 19%nat).
    + cbn [INR]. lra.
    + lia.
    + rewrite thimble_band_count by lia. cbn [INR]. lra.
    + intros j Hj. lia.
Qed.

Lemma thimble_rim_points : rimPointsOf thimble = thimbleRim.
Proof.
  unfold rimPointsOf. rewrite thimble_positions.
  cbn [thimble bounds Bounds.min Bounds.max coordY].
  rewrite thimble_rim_height. unfold sliceAtHeight.
  slice_thimble. reflexivity.
Qed.

(** The cyclic source yields the indices 0, 1, 2 at every third call. *)
Lemma cyclic_floor (k m : nat) :
  (k mod 3 = m)%nat -> JSMath.floor (cyclicStream k * INR 6) = Z.of_nat m.
Proof.
  intros <-. unfold JSMath.floor, cyclicStream.
  replace (INR (k mod 3) / 6 * INR 6) with (INR (k mod 3)).
  - apply Int_part_INR.
  - cbn [INR]. field.
Qed.

Lemma cyclic_draw (fuel j : nat) :
  drawIndices cyclicStream (3 + fuel) 6 [] (3 * j)%nat =
  Done ([0%Z; 1%Z; 2%Z], (3 * j + 3)%nat).
Proof.
  assert (H0 : ((3 * j) mod 3 = 0)%nat)
    by (rewrite Nat.mul_comm; apply Nat.Div0.mod_mul).
  assert (H1 : ((S (3 * j)) mod 3 = 1)%nat)
    by (replace (S (3 * j)) with (1 + j * 3)%nat by lia;
        rewrite Nat.Div0.mod_add; reflexivity).
  assert (H2 : ((S (S (3 * j))) mod 3 = 2)%nat)
    by (replace (S (S (3 * j))) with (2 + j * 3)%nat by lia;
        rewrite Nat.Div0.mod_add; reflexivity).
  cbn [drawIndices Nat.add length Nat.ltb Nat.leb].
  unfold bind, Math_random.
  rewrite (cyclic_floor _ _ H0).
  cbn [Z.of_nat setAdd existsb app length Nat.ltb Nat.leb].
  rewrite (cyclic_floor _ _ H1).
  cbn [Z.of_nat Pos.of_succ_nat setAdd existsb Z.eqb orb app length Nat.ltb Nat.leb].
  rewrite (cyclic_floor _ _ H2).
  cbn [Z.of_nat Pos.of_succ_nat Pos.succ setAdd existsb Z.eqb Pos.eqb orb app
       length Nat.ltb Nat.leb].
  destruct fuel; cbn [drawIndices length Nat.ltb Nat.leb];
    unfold ret; repeat f_equal; lia.
Qed.

(** The value of [fitCircle2D] once the four determinants are known. *)
Lemma fitCircle2D_value (points : list Point2) (det a b c r : R) :
  (3 <= length points)%nat ->
  determinant3x3 (matrixA points) = det ->
  1e-10 <= Rabs det ->
  determinant3x3 (replaceColumn (matrixA points) (vectorB points) 0) = a * det ->
  determinant3x3 (replaceColumn (matrixA points) (vectorB points) 1) = b * det ->
  determinant3x3 (replaceColumn (matrixA points) (vectorB points) 2) = c * det ->
  0 < r -> c + a * a + b * b = r * r ->
  fitCircle2D points =
  Some {| Circle2D.center := (a, b); Circle2D.radius := r |}.
Proof.
  intros Hlen Hdet Hbig Ha Hb Hc Hr Hrad. unfold fitCircle2D.
  destruct (Nat.ltb_spec (length points) 3) as [ | _ ]; [ lia | ].
  rewrite Hdet, Ha, Hb, Hc.
  destruct (Rlt_dec (Rabs det) 1e-10) as [ | _ ]; [ lra | ].
  assert (Hnz : det <> 0).
  { intros ->. rewrite Rabs_R0 in Hbig. lra. }
  replace (a * det / det) with a by (field; exact Hnz).
  replace (b * det / det) with b by (field; exact Hnz).
  replace (c * det / det) with c by (field; exact Hnz).
  rewrite Hrad. unfold JSMath.sqrt.
  destruct (Rlt_dec (r * r) 0) as [ | _ ]; [ nra | ].
  rewrite sqrt_square by lra.
  destruct (Rle_dec r 0) as [ | _ ]; [ lra | ]. reflexivity.
Qed.

Ltac determinant_value :=
  cbv [determinant3x3 matrixA vectorB sums fold_left addPoint zeroSums entry nth
       replaceColumn mapi mapi_from Nat.eqb length INR
       sumX sumY sumX2 sumY2 sumXY sumX3 sumY3 sumX2Y sumXY2
       thimbleRim ringXZ app];
  lra.

Lemma thimble_sample_fit :
  fitCircle2D [(0, 0); (0.01, 0); (0.005, 0.005)] = Some thimbleCircle.
Proof.
  apply (fitCircle2D_value _ 2.5e-9 0.005 0 0 0.005).
  - cbn. lia.
  - determinant_value.
  - rewrite Rabs_pos_eq; lra.
  - determinant_value.
  - determinant_value.
  - determinant_value.
  - lra.
  - lra.
Qed.

Lemma thimble_rim_fit : fitCircle2D thimbleRim = Some thimbleCircle.
Proof.
  apply (fitCircle2D_value _ 3.06e-8 0.005 0 0 0.005).
  - cbn. lia.
  - determinant_value.
  - rewrite Rabs_pos_eq; lra.
  - determinant_value.
  - determinant_value.
  - determinant_value.
  - lra.
  - lra.
Qed.

(** A point on the circle is an inlier for every positive threshold. *)
Lemma isInlier_on_circle (cx cz r threshold px pz : R) :
  0 <= r -> 0 < threshold ->
  (px - cx) ^ 2 + (pz - cz) ^ 2 = r * r ->
  isInlier {| Circle2D.center := (cx, cz); Circle2D.radius := r |} threshold
    (px, pz) = true.
Proof.
  intros Hr Ht Hon. unfold isInlier, residual.
  cbn [Circle2D.center Circle2D.radius fst snd].
  rewrite Hon, sqrt_square by exact Hr.
  replace (r - r) with 0 by ring. rewrite Rabs_R0.
  destruct (Rlt_dec 0 threshold); [ reflexivity | contradiction ].
Qed.

Lemma thimble_rim_inliers :
  filter (isInlier thimbleCircle 0.05) thimbleRim = thimbleRim.
Proof.
  unfold thimbleRim, ringXZ, thimbleCircle. cbn [app filter].
  rewrite !isInlier_on_circle by lra. reflexivity.
Qed.

(** With the cyclic source every round draws the same sample, so the best
    circle is the circle of that sample from the first round on. *)
Lemma ransacLoop_settled (fuel : nat) (points : list Point2) (threshold : R)
    (sample : list Point2) (circle : Circle2D.t) :
  length points = 6%nat ->
  lookupAll points [0%Z; 1%Z; 2%Z] = Some sample ->
  fitCircle2D sample = Some circle ->
  forall iterations j,
    ransacLoop cyclicStream (3 + fuel) points threshold iterations (Some circle)
      (length (filter (isInlier circle threshold) points)) (3 * j)%nat =
    Done (Some circle, (3 * (j + iterations))%nat).
Proof.
  intros Hlen Hsample Hfit.
  induction iterations as [ | iterations IH ]; intros j.
  - cbn [ransacLoop]. unfold ret. do 2 apply f_equal. lia.
  - cbn [ransacLoop]. unfold bind at 1. rewrite Hlen, cyclic_draw.
    rewrite Hsample, Hfit, Nat.ltb_irrefl.
    replace (3 * j + 3)%nat with (3 * (j + 1))%nat by lia.
    rewrite IH. do 2 apply f_equal. lia.
Qed.

Lemma ransacLoop_cyclic (fuel : nat) (points : list Point2) (threshold : R)
    (sample : list Point2) (circle : Circle2D.t) (iterations : nat) :
  length points = 6%nat ->
  lookupAll points [0%Z; 1%Z; 2%Z] = Some sample ->
  fitCircle2D sample = Some circle ->
  (0 < length (filter (isInlier circle threshold) points))%nat ->
  ransacLoop cyclicStream (3 + fuel) points threshold (S iterations) None 0 0%nat =
  Done (Some circle, (3 * S iterations)%nat).
Proof.
  intros Hlen Hsample Hfit Hin.
  cbn [ransacLoop]. unfold bind at 1.
  pose proof (cyclic_draw fuel 0) as Hdraw.
  change (3 * 0)%nat with 0%nat in Hdraw.
  change (0 + 3)%nat with (3 * 1)%nat in Hdraw.
  rewrite Hlen, Hdraw, Hsample, Hfit.
  destruct (Nat.ltb_spec 0 (length (filter (isInlier circle threshold) points)))
    as [ _ | ]; [ | lia ].
  rewrite (ransacLoop_settled fuel points threshold sample circle Hlen Hsample Hfit).
  do 2 apply f_equal. lia.
Qed.

Lemma thimble_rim_circle (fuel : nat) :
  fitCircleRANSAC cyclicStream (3 + fuel) (rimPointsOf thimble) 200 0.05 0%nat =
  Done (Some thimbleCircle, 600%nat).
Proof.
  rewrite thimble_rim_points. unfold fitCircleRANSAC.
  change (length thimbleRim <? 3)%nat with false. cbv iota.
  unfold bind.
  rewrite (ransacLoop_cyclic fuel thimbleRim 0.05 _ thimbleCircle 199
             eq_refl eq_refl thimble_sample_fit).
  - unfold ret, refit. rewrite thimble_rim_inliers.
    change (3 <=? length thimbleRim)%nat with true. cbv iota.
    rewrite thimble_rim_fit. reflexivity.
  - rewrite thimble_rim_inliers. cbn. lia.
Qed.

(** The detector returns on the thimble, through the rim-circle path. *)
Lemma thimble_run :
  exists res, detectVolume cyclicStream 3 thimble 0%nat = Done (Some res, 600%nat).
Proof.
  apply (detectVolume_normal_path cyclicStream 3 thimble 0 600 thimbleCircle).
  - rewrite thimble_length. lia.
  - exact (thimble_rim_circle 0).
Qed.

Lemma detectVolume_normal_path_result_witness :
  exists res,
    detectVolume cyclicStream 3 thimble 0%nat = Done (Some res, 600%nat) /\
    CylinderFit.radius (VolumeDetectionResult.cylinder res) = 0.85 * 0.005 /\
    CylinderFit.height (VolumeDetectionResult.cylinder res) = 0.01 /\
    CylinderFit.confidence (VolumeDetectionResult.cylinder res) = 0.8 /\
    VolumeDetectionResult.baseHeight res = 0 /\
    VolumeDetectionResult.rimHeight res = 0.0078.
Proof.
  destruct (detectVolume_normal_path_result cyclicStream 3 thimble 0 600 thimbleCircle)
    as (res & Hres & Hrim & Hbase & Hradius & _ & Hheight & Hconf & _).
  - rewrite thimble_length. lia.
  - exact (thimble_rim_circle 0).
  - rewrite thimble_positions in Hrim.
    cbn [thimble bounds Bounds.min Bounds.max coordY] in Hrim, Hbase.
    rewrite thimble_rim_height in Hrim.
    exists res. split; [ exact Hres | ].
    split; [ exact Hradius | ].
    split; [ rewrite Hheight, Hrim, Hbase; apply Rmax_left; lra | ].
    split; [ exact Hconf | ].
    split; [ exact Hbase | exact Hrim ].
Defined.

(** On the thimble the rim fit succeeds and the volume of the returned
    cylinder is not negative, yet the interior volume is not that volume:
    it is computed from the height 0.0078, the cylinder has the height
    0.01. *)
Lemma detectVolume_volume_ignores_height_floor :
  exists res,
    detectVolume cyclicStream 3 thimble 0%nat = Done (Some res, 600%nat) /\
    fitCircleRANSAC cyclicStream 3 (rimPointsOf thimble) 200 0.05 0%nat =
      Done (Some thimbleCircle, 600%nat) /\
    0 <= PI * CylinderFit.radius (VolumeDetectionResult.cylinder res) ^ 2 *
         CylinderFit.height (VolumeDetectionResult.cylinder res) /\
    VolumeDetectionResult.interiorVolume res <>
      PI * CylinderFit.radius (VolumeDetectionResult.cylinder res) ^ 2 *
      CylinderFit.height (VolumeDetectionResult.cylinder res).
Proof.
  destruct thimble_run as (res & Hres). exists res.
  split; [ exact Hres | ]. split; [ exact (thimble_rim_circle 0) | ].
  pose proof PI_RGT_0 as Hpi.
  apply detectVolume_Some_inv in Hres
    as (_ & [(c & Hc & ->) | (k1 & cyl & Hnone & _)]).
  - pose proof (thimble_rim_circle 0) as Hrim. cbn [Nat.add] in Hrim.
    rewrite Hrim in Hc. injection Hc as <-.
    rewrite thimble_positions.
    cbn [thimble bounds Bounds.min Bounds.max coordY
         VolumeDetectionResult.cylinder VolumeDetectionResult.interiorVolume
         CylinderFit.radius CylinderFit.height thimbleCircle Circle2D.radius].
    rewrite thimble_rim_height.
    rewrite (Rmax_left 0.01) by lra.
    rewrite Rmax_right by nra.
    split; nra.
  - pose proof (thimble_rim_circle 0) as Hrim. cbn [Nat.add] in Hrim.
    rewrite Hrim in Hnone. discriminate.
Qed.

Lemma detectVolume_cylinder_positive_witness :
  exists res,
    detectVolume cyclicStream 3 thimble 0%nat = Done (Some res, 600%nat) /\
    0 < CylinderFit.radius (VolumeDetectionResult.cylinder res) /\
    0 < CylinderFit.height (VolumeDetectionResult.cylinder res).
Proof.
  destruct thimble_run as (res & Hres). exists res.
  split; [ exact Hres | ].
  exact (detectVolume_cylinder_positive cyclicStream 3 thimble 0 600 res Hres).
Defined.

End ThimbleRun.

(** * The projection of the cylinder fitter at a horizontal axis *)

Section ProjectionAtHorizontalAxis.

Import CylinderFitting Vocabulary Samples.

(** For the axis along [x] and ten points, the points that [fitCylinder]
    hands to the circle fit are not the components orthogonal to the
    axis. *)
Lemma fitCylinder_projection_ignores_axis :
  (10 <= length tenPoints)%nat /\
  projectedPoints tenPoints <> map (dropAxisCoordinate alongX) tenPoints /\
  forall (random : nat -> R) (fuel k : nat),
    fitCylinder random fuel tenPoints (axisVector alongX) k =
    bind (fitCircleRANSAC random fuel (map (dropAxisCoordinate alongY) tenPoints)
            200 0.05)
         (fun circle =>
            match circle with
            | None => ret None
            | Some circle =>
                ret (Some {| CylinderFit.center :=
                               (fst (Circle2D.center circle), 1,
                                snd (Circle2D.center circle));
                             CylinderFit.radius := Circle2D.radius circle;
                             CylinderFit.height := 2;
                             CylinderFit.axis := axisVector alongX;
                             CylinderFit.confidence :=
                               Rmax 0 (1 - totalError circle tenPoints / 10 /
                                           Circle2D.radius circle) |})
            end) k.
Proof.
  split; [ cbn [tenPoints length]; lia | split ].
  - unfold tenPoints. cbn [projectedPoints map dropAxisCoordinate].
    intros H. injection H as H _. lra.
  - intros random fuel k. unfold fitCylinder.
    change (length tenPoints <? 10)%nat with false. cbv iota.
    rewrite projectedPoints_drop_Y. unfold bind.
    destruct (fitCircleRANSAC random fuel _ 200 0.05 k) as [[[circle | ] k1] | | ];
      try reflexivity.
    assert (Hext : heightExtent tenPoints = (Some 1, Some 3)).
    { unfold heightExtent, tenPoints. cbn [fold_left minStep maxStep].
      repeat match goal with
             | |- context [Rmin ?a ?b] =>
                 first [ rewrite (Rmin_left a b) by lra
                       | rewrite (Rmin_right a b) by lra ]
             | |- context [Rmax ?a ?b] =>
                 first [ rewrite (Rmax_left a b) by lra
                       | rewrite (Rmax_right a b) by lra ]
             end.
      reflexivity. }
    rewrite Hext.
    destruct (Rle_dec (3 - 1) 0) as [ | _ ]; [ lra | ].
    unfold ret. do 3 f_equal.
    replace (3 - 1) with 2 by lra.
    replace (INR (length tenPoints)) with 10
      by (cbn [tenPoints length]; rewrite INR_IZR_INZ; reflexivity).
    reflexivity.
Qed.

Lemma fitCylinder_projects_onto_XZ_witness :
  projectedPoints tenPoints = map (dropAxisCoordinate alongY) tenPoints /\
  fitCylinder cyclicStream 3 tenPoints (axisVector alongX) 0%nat =
  match fitCylinder cyclicStream 3 tenPoints (axisVector alongY) 0%nat with
  | Done (r, k') => Done (option_map (withAxis (axisVector alongX)) r, k')
  | Throws => Throws
  | OutOfFuel => OutOfFuel
  end.
Proof.
  destruct (fitCylinder_projects_onto_XZ cyclicStream 3 tenPoints
              (axisVector alongX) 0) as (Hxz & Haxis & _).
  split; [ exact Hxz | exact Haxis ].
Defined.

End ProjectionAtHorizontalAxis.

(** * Further properties of the tipover physics engine *)

Section PhysicsExtras.

Import TipoverPhysics Samples.

(** X1: the liquid volume is 0 for an empty cup, [PI * r^2 * h] for a full
    one, and strictly increasing in the fill level when the radius is not 0
    and the height is positive. *)
Theorem calculateLiquidVolume_increasing (cylinder : CylinderParams) (f1 f2 : R) :
  radius cylinder <> 0 -> 0 < height cylinder -> f1 < f2 ->
  calculateLiquidVolume cylinder 0 = 0 /\
  calculateLiquidVolume cylinder 1 = PI * radius cylinder ^ 2 * height cylinder /\
  calculateLiquidVolume cylinder f1 < calculateLiquidVolume cylinder f2.
Proof.
  intros Hr Hh Hf. unfold calculateLiquidVolume.
  pose proof PI_RGT_0 as Hpi.
  assert (Hr2 : 0 < radius cylinder ^ 2)
    by (pose proof (Rsqr_pos_lt _ Hr) as H2; unfold Rsqr in H2; nra).
  assert (Hk : 0 < PI * radius cylinder ^ 2) by (apply Rmult_lt_0_compat; lra).
  split; [ ring | split; [ ring | ] ].
  apply Rmult_lt_compat_l; [ exact Hk | ].
  apply Rmult_lt_compat_l; assumption.
Qed.

Lemma calculateLiquidVolume_increasing_witness :
  calculateLiquidVolume unitCup 0 = 0 /\
  calculateLiquidVolume unitCup (1 / 2) < calculateLiquidVolume unitCup 1.
Proof.
  destruct (calculateLiquidVolume_increasing unitCup (1 / 2) 1) as (H0 & _ & Hlt).
  - cbn [unitCup radius]. lra.
  - cbn [unitCup height]. lra.
  - lra.
  - split; assumption.
Defined.

(** The centre of mass of the cup with its liquid lies on the cylinder's
    axis whatever the masses are. *)
Lemma centerOfMass_on_axis (cylinder : CylinderParams) (fill tilt cupMass density : R) :
  let st := calculatePhysicsState cylinder fill tilt cupMass density in
  x (centerOfMass st) = x (center cylinder) /\
  z (centerOfMass st) = z (center cylinder).
Proof.
  cbn zeta. unfold calculatePhysicsState. cbn [centerOfMass].
  unfold calculateCenterOfMass, calculateLiquidCentroid.
  destruct (Req_dec_T _ 0) as [ | Hne ]; cbn [x z]; split; try reflexivity;
    field; exact Hne.
Qed.

(** X2: with a positive cup mass, a liquid density that is not negative and
    a height that is not negative, the centre of mass lies on the axis,
    between the centroid of the liquid column and the centroid of the cup. *)
Theorem calculatePhysicsState_centerOfMass_between
    (cylinder : CylinderParams) (fill tilt cupMass density : R) :
  0 <= height cylinder -> 0 < cupMass -> 0 <= density ->
  let st := calculatePhysicsState cylinder fill tilt cupMass density in
  x (centerOfMass st) = x (center cylinder) /\
  z (centerOfMass st) = z (center cylinder) /\
  y (center cylinder) + height cylinder * fillLevel st / 2
    <= y (centerOfMass st)
    <= y (center cylinder) + height cylinder / 2.
Proof.
  intros Hh Hm Hd st.
  destruct (centerOfMass_on_axis cylinder fill tilt cupMass density) as [Hx Hz].
  split; [ exact Hx | split; [ exact Hz | ] ].
  unfold st, calculatePhysicsState. cbn [centerOfMass fillLevel].
  set (f := Rmax 0 (Rmin 1 fill)).
  assert (Hf : 0 <= f <= 1) by (apply clamp_range; lra).
  unfold calculateCenterOfMass, calculateLiquidCentroid, calculateLiquidVolume.
  set (lm := PI * radius cylinder ^ 2 * (height cylinder * f) * density).
  assert (Hlm : 0 <= lm).
  { unfold lm. pose proof PI_RGT_0. pose proof (pow2_ge_0 (radius cylinder)).
    apply Rmult_le_pos; [ | exact Hd ].
    apply Rmult_le_pos; [ apply Rmult_le_pos; lra | apply Rmult_le_pos; lra ]. }
  destruct (Req_dec_T (cupMass + lm) 0) as [ | _ ]; [ lra | ].
  cbn [x y z].
  assert (Ht : 0 < cupMass + lm) by lra.
  set (h := height cylinder) in *. set (cy := y (center cylinder)).
  assert (Hc : 0 <= cupMass * (h * (1 - f)))
    by (apply Rmult_le_pos; [ lra | apply Rmult_le_pos; lra ]).
  assert (Hl : 0 <= lm * (h * (1 - f)))
    by (apply Rmult_le_pos; [ lra | apply Rmult_le_pos; lra ]).
  split.
  - apply Rmult_le_reg_r with (cupMass + lm); [ exact Ht | ].
    replace ((cupMass * (cy + h / 2) + lm * (cy + h * f / 2)) / (cupMass + lm) *
             (cupMass + lm))
      with (cupMass * (cy + h / 2) + lm * (cy + h * f / 2)) by (field; lra).
    nra.
  - apply Rmult_le_reg_r with (cupMass + lm); [ exact Ht | ].
    replace ((cupMass * (cy + h / 2) + lm * (cy + h * f / 2)) / (cupMass + lm) *
             (cupMass + lm))
      with (cupMass * (cy + h / 2) + lm * (cy + h * f / 2)) by (field; lra).
    nra.
Qed.

Lemma calculatePhysicsState_centerOfMass_between_witness :
  y (center unitCup) + height unitCup *
    fillLevel (calculatePhysicsState unitCup (1 / 2) 0 defaultCupMass
                 defaultLiquidDensity) / 2
  <= y (centerOfMass (calculatePhysicsState unitCup (1 / 2) 0 defaultCupMass
                        defaultLiquidDensity))
  <= y (center unitCup) + height unitCup / 2.
Proof.
  apply (calculatePhysicsState_centerOfMass_between unitCup (1 / 2) 0
           defaultCupMass defaultLiquidDensity).
  - cbn [unitCup height]. lra.
  - unfold defaultCupMass. lra.
  - unfold defaultLiquidDensity. lra.
Defined.

(** The critical angle of a state, from the height of its centre of mass
    above the base. *)
Lemma critical_angle_of_state (cylinder : CylinderParams)
    (fill tilt cupMass density : R) :
  let st := calculatePhysicsState cylinder fill tilt cupMass density in
  let v := y (centerOfMass st) - y (center cylinder) in
  criticalTipoverAngle_ st =
  if Rle_dec v 0 then PI / 2
  else if Rle_dec (radius cylinder) 0 then 0
  else atan (radius cylinder / v).
Proof.
  intros st v.
  destruct (centerOfMass_on_axis cylinder fill tilt cupMass density) as [Hx Hz].
  fold st in Hx, Hz.
  assert (Hcrit : criticalTipoverAngle_ st =
            criticalTipoverAngle (centerOfMass st) (radius cylinder) (center cylinder)).
  { unfold st, calculatePhysicsState; cbn [criticalTipoverAngle_ centerOfMass].
    rewrite Vector3_eta. reflexivity. }
  rewrite Hcrit. unfold criticalTipoverAngle. rewrite Hx, Hz. fold v.
  replace ((x (center cylinder) - x (center cylinder)) ^ 2 +
           (z (center cylinder) - z (center cylinder)) ^ 2) with 0 by ring.
  rewrite sqrt_0. replace (radius cylinder - 0) with (radius cylinder) by ring.
  destruct (Rle_dec v 0) as [ | Hv ]; [ reflexivity | ].
  destruct (Rle_dec (radius cylinder) 0) as [ | Hr ]; [ reflexivity | ].
  apply atan2_first_quadrant; lra.
Qed.

Lemma upright_stable_facts
    (cylinder : CylinderParams) (fill tilt cupMass density : R) :
  0 < radius cylinder ->
  let st := calculatePhysicsState cylinder fill tilt cupMass density in
  0 < criticalTipoverAngle_ st <= PI / 2 /\
  (tilt <= 0 -> isStable st = true /\ 0 < stabilityMargin st).
Proof.
  intros Hr st.
  pose proof PI2_RGT_0 as Hpi2. pose proof PI_RGT_0 as Hpi.
  assert (Hcrit : 0 < criticalTipoverAngle_ st <= PI / 2).
  { unfold st. rewrite critical_angle_of_state.
    destruct (Rle_dec _ 0) as [ | Hv ]; [ lra | ].
    destruct (Rle_dec (radius cylinder) 0) as [ | _ ]; [ lra | ].
    match goal with |- context [atan (?r / ?v)] =>
      destruct (atan2_first_quadrant r v) as [_ Hb]; [ lra | lra | lra ] end. }
  split; [ exact Hcrit | ].
  intros Ht.
  assert (Hclamp : Rmax 0 (Rmin (PI / 2) tilt) = 0).
  { rewrite Rmin_right by lra. apply Rmax_left. exact Ht. }
  assert (Hst : isStable st =
                  (if Rlt_dec (Rmax 0 (Rmin (PI / 2) tilt)) (criticalTipoverAngle_ st)
                   then true else false)) by reflexivity.
  assert (Hmargin : stabilityMargin st =
            (criticalTipoverAngle_ st - Rmax 0 (Rmin (PI / 2) tilt)) * (180 / PI))
    by reflexivity.
  rewrite Hst, Hmargin, Hclamp. split.
  - destruct (Rlt_dec 0 (criticalTipoverAngle_ st)); [ reflexivity | lra ].
  - apply Rmult_lt_0_compat; [ lra | apply Rdiv_lt_0_compat; lra ].
Qed.

(** X3: a cylinder of positive radius has a positive critical angle whatever
    its height, its fill and the masses are; a cup that is not tilted
    (tilt at most 0) is therefore stable, with a positive margin. *)
Theorem calculatePhysicsState_upright_stable
    (cylinder : CylinderParams) (fill tilt cupMass density : R) :
  0 < radius cylinder ->
  let st := calculatePhysicsState cylinder fill tilt cupMass density in
  0 < criticalTipoverAngle_ st <= PI / 2 /\
  (tilt <= 0 -> isStable st = true /\ 0 < stabilityMargin st).
Proof. exact (upright_stable_facts cylinder fill tilt cupMass density). Qed.

Lemma calculatePhysicsState_upright_stable_witness :
  isStable (calculatePhysicsState unitCup (1 / 2) 0 defaultCupMass
              defaultLiquidDensity) = true.
Proof.
  destruct (calculatePhysicsState_upright_stable unitCup (1 / 2) 0 defaultCupMass
              defaultLiquidDensity) as (_ & H).
  - cbn [unitCup radius]. lra.
  - apply H. lra.
Defined.

(** The height of the centre of mass above the base, for a positive cup
    mass. *)
Lemma centerOfMass_height (cylinder : CylinderParams)
    (fill tilt cupMass density : R) :
  0 <= height cylinder -> 0 < cupMass -> 0 <= density ->
  let st := calculatePhysicsState cylinder fill tilt cupMass density in
  let lm := liquidVolume st * density in
  0 <= lm /\
  y (centerOfMass st) - y (center cylinder) =
    (cupMass * (height cylinder / 2) +
     lm * (height cylinder * fillLevel st / 2)) / (cupMass + lm).
Proof.
  intros Hh Hm Hd st lm.
  unfold lm, st, calculatePhysicsState. cbn [centerOfMass fillLevel liquidVolume].
  set (f := Rmax 0 (Rmin 1 fill)).
  assert (Hf : 0 <= f <= 1) by (apply clamp_range; lra).
  unfold calculateCenterOfMass, calculateLiquidCentroid, calculateLiquidVolume.
  set (m := PI * radius cylinder ^ 2 * (height cylinder * f) * density).
  assert (Hlm : 0 <= m).
  { unfold m. pose proof PI_RGT_0. pose proof (pow2_ge_0 (radius cylinder)).
    apply Rmult_le_pos; [ | exact Hd ].
    apply Rmult_le_pos; [ apply Rmult_le_pos; lra | apply Rmult_le_pos; lra ]. }
  split; [ exact Hlm | ].
  destruct (Req_dec_T (cupMass + m) 0) as [ | _ ]; [ lra | ].
  cbn [y]. field. lra.
Qed.

(** X4: with positive radius, height and cup mass and a density that is not
    negative, the critical angle is the arctangent of the radius over the
    height of the centre of mass above the base, which is positive and at
    most half the cup height; the critical angle is thus never below
    [atan(2r/h)], the value it takes for the empty cup. *)
Theorem calculatePhysicsState_critical_angle
    (cylinder : CylinderParams) (fill tilt cupMass density : R) :
  0 < radius cylinder -> 0 < height cylinder -> 0 < cupMass -> 0 <= density ->
  let st := calculatePhysicsState cylinder fill tilt cupMass density in
  let v := y (centerOfMass st) - y (center cylinder) in
  0 < v <= height cylinder / 2 /\
  criticalTipoverAngle_ st = atan (radius cylinder / v) /\
  atan (2 * radius cylinder / height cylinder) <= criticalTipoverAngle_ st /\
  (fill <= 0 ->
   criticalTipoverAngle_ st = atan (2 * radius cylinder / height cylinder)).
Proof.
  intros Hr Hh Hm Hd st v.
  destruct (centerOfMass_height cylinder fill tilt cupMass density)
    as [Hlm Hv]; [ lra | lra | lra | ].
  fold st in Hlm, Hv. fold v in Hv.
  assert (Hfill : fillLevel st = Rmax 0 (Rmin 1 fill)) by reflexivity.
  assert (Hf : 0 <= fillLevel st <= 1) by (rewrite Hfill; apply clamp_range; lra).
  set (lm := liquidVolume st * density) in *.
  set (h := height cylinder) in *. set (f := fillLevel st) in *.
  assert (Hvpos : 0 < v).
  { rewrite Hv. apply Rdiv_lt_0_compat; [ | lra ].
    assert (0 <= lm * (h * f / 2)) by (apply Rmult_le_pos; nra). nra. }
  assert (Hvle : v <= h / 2).
  { rewrite Hv. apply Rmult_le_reg_r with (cupMass + lm); [ lra | ].
    replace ((cupMass * (h / 2) + lm * (h * f / 2)) / (cupMass + lm) * (cupMass + lm))
      with (cupMass * (h / 2) + lm * (h * f / 2)) by (field; lra).
    assert (0 <= lm * (h * (1 - f))) by (apply Rmult_le_pos; nra). nra. }
  assert (Hcrit : criticalTipoverAngle_ st = atan (radius cylinder / v)).
  { unfold st. rewrite critical_angle_of_state. fold st. fold v.
    destruct (Rle_dec v 0) as [ | _ ]; [ lra | ].
    destruct (Rle_dec (radius cylinder) 0) as [ | _ ]; [ lra | reflexivity ]. }
  split; [ split; assumption | ]. split; [ exact Hcrit | ].
  assert (Hq : 2 * radius cylinder / h <= radius cylinder / v).
  { unfold Rdiv. apply Rmult_le_reg_r with (h * v); [ nra | ].
    replace (2 * radius cylinder * / h * (h * v)) with (2 * radius cylinder * v)
      by (field; lra).
    replace (radius cylinder * / v * (h * v)) with (radius cylinder * h)
      by (field; lra).
    nra. }
  split.
  - rewrite Hcrit. destruct Hq as [Hlt | Heq].
    + left. apply atan_increasing. exact Hlt.
    + right. rewrite Heq. reflexivity.
  - intros Hempty. rewrite Hcrit. f_equal.
    assert (Hc0 : Rmax 0 (Rmin 1 fill) = 0)
      by (rewrite Rmin_right by lra; apply Rmax_left; exact Hempty).
    assert (Hlm0 : lm = 0).
    { unfold lm.
      change (liquidVolume st)
        with (calculateLiquidVolume cylinder (Rmax 0 (Rmin 1 fill))).
      rewrite Hc0. unfold calculateLiquidVolume. ring. }
    rewrite Hv, Hlm0. field. lra.
Qed.

Lemma calculatePhysicsState_critical_angle_witness :
  criticalTipoverAngle_ (calculatePhysicsState unitCup 0 0 defaultCupMass
                           defaultLiquidDensity) =
  atan (2 * radius unitCup / height unitCup).
Proof.
  destruct (calculatePhysicsState_critical_angle unitCup 0 0 defaultCupMass
              defaultLiquidDensity) as (_ & _ & _ & H).
  - cbn [unitCup radius]. lra.
  - cbn [unitCup height]. lra.
  - unfold defaultCupMass. lra.
  - unfold defaultLiquidDensity. lra.
  - apply H. lra.
Defined.

Lemma clamp_monotone (lo hi a b : R) :
  a <= b -> Rmax lo (Rmin hi a) <= Rmax lo (Rmin hi b).
Proof.
  intros H. apply Rle_max_compat_l. apply Rle_min_compat_l. exact H.
Qed.

(** X5: the critical angle of a state does not depend on the tilt, and
    stability is monotone in the tilt: a cup that is stable at one tilt is
    stable at every smaller tilt, so [isStable] changes at most once as the
    tilt grows. *)
Theorem calculatePhysicsState_stable_below
    (cylinder : CylinderParams) (fill tilt1 tilt2 cupMass density : R) :
  tilt1 <= tilt2 ->
  criticalTipoverAngle_ (calculatePhysicsState cylinder fill tilt1 cupMass density) =
  criticalTipoverAngle_ (calculatePhysicsState cylinder fill tilt2 cupMass density) /\
  (isStable (calculatePhysicsState cylinder fill tilt2 cupMass density) = true ->
   isStable (calculatePhysicsState cylinder fill tilt1 cupMass density) = true).
Proof.
  intros Hle. split; [ reflexivity | ].
  pose proof (clamp_monotone 0 (PI / 2) tilt1 tilt2 Hle) as Hc.
  unfold calculatePhysicsState. cbn [isStable].
  set (crit := criticalTipoverAngle _ _ _).
  destruct (Rlt_dec (Rmax 0 (Rmin (PI / 2) tilt2)) crit) as [H2 | ]; [ | discriminate ].
  intros _.
  destruct (Rlt_dec (Rmax 0 (Rmin (PI / 2) tilt1)) crit) as [ | H1 ]; [ reflexivity | lra ].
Qed.

Lemma calculatePhysicsState_stable_below_witness :
  criticalTipoverAngle_ (calculatePhysicsState unitCup 1 0 defaultCupMass
                           defaultLiquidDensity) =
  criticalTipoverAngle_ (calculatePhysicsState unitCup 1 1 defaultCupMass
                           defaultLiquidDensity).
Proof.
  apply (calculatePhysicsState_stable_below unitCup 1 0 1 defaultCupMass
           defaultLiquidDensity).
  lra.
Defined.

Lemma trig_first_quadrant (t : R) :
  0 < t < PI / 2 -> 0 < sin t <= 1 /\ 0 < cos t <= 1 /\ 0 < tan t.
Proof.
  intros Ht. pose proof PI_RGT_0 as Hpi.
  pose proof (SIN_bound t) as [_ Hs]. pose proof (COS_bound t) as [_ Hc].
  repeat split; try assumption.
  - apply sin_gt_0; lra.
  - apply cos_gt_0; lra.
  - apply tan_gt_0; lra.
Qed.

(** X6: the poured volume is never negative, and for a tilt below a right
    angle, a height that is not negative and a fill level in [0, 1] it never
    exceeds the volume of liquid in the cup; an empty cup pours nothing. *)
Theorem volumePoured_bounded
    (tiltAngle : R) (cylinder : CylinderParams) (fillLevel : R) :
  0 <= height cylinder -> 0 <= fillLevel <= 1 -> tiltAngle < PI / 2 ->
  0 <= volumePoured tiltAngle cylinder fillLevel
    <= calculateLiquidVolume cylinder fillLevel /\
  (fillLevel = 0 -> volumePoured tiltAngle cylinder fillLevel = 0).
Proof.
  intros Hh Hf Ht.
  pose proof PI_RGT_0 as Hpi. pose proof PI2_1 as Hpi2.
  pose proof (pow2_ge_0 (radius cylinder)) as Hr2.
  assert (Hlh : 0 <= height cylinder * fillLevel) by (apply Rmult_le_pos; lra).
  assert (Hlv : 0 <= calculateLiquidVolume cylinder fillLevel).
  { unfold calculateLiquidVolume.
    apply Rmult_le_pos; [ apply Rmult_le_pos; lra | exact Hlh ]. }
  assert (Hbounds : 0 <= volumePoured tiltAngle cylinder fillLevel
                      <= calculateLiquidVolume cylinder fillLevel).
  { unfold volumePoured.
    destruct (Rle_dec tiltAngle 0) as [ | Hpos ]; [ lra | ].
    destruct (trig_first_quadrant tiltAngle) as ((Hs0 & Hs1) & (Hc0 & Hc1) & Htan);
      [ lra | ].
    set (lh := height cylinder * fillLevel) in *.
    set (above := lh * cos tiltAngle - (height cylinder - lh) * tan tiltAngle).
    destruct (Rle_dec above 0) as [ | Habove ]; [ lra | ].
    split; [ apply Rmax_l | ].
    apply Rmax_lub; [ exact Hlv | ].
    set (sh := Rmin above (2 * radius cylinder * sin tiltAngle)).
    assert (Hlhle : lh <= height cylinder) by (unfold lh; nra).
    assert (Hsh : sh <= lh).
    { apply Rle_trans with above; [ apply Rmin_l | ]. unfold above.
      assert (0 <= (height cylinder - lh) * tan tiltAngle)
        by (apply Rmult_le_pos; lra).
      assert (lh * cos tiltAngle <= lh * 1)
        by (apply Rmult_le_compat_l; lra).
      lra. }
    unfold calculateLiquidVolume. fold lh.
    replace (sh * radius cylinder * radius cylinder * sin tiltAngle)
      with (radius cylinder ^ 2 * (sh * sin tiltAngle)) by ring.
    replace (PI * radius cylinder ^ 2 * lh)
      with (radius cylinder ^ 2 * (PI * lh)) by ring.
    apply Rmult_le_compat_l; [ exact Hr2 | ].
    destruct (Rle_lt_dec 0 sh) as [Hsh0 | Hsh0].
    - apply Rle_trans with (lh * 1).
      + apply Rmult_le_compat; lra.
      + nra.
    - assert (sh * sin tiltAngle <= 0) by nra.
      assert (0 <= PI * lh) by (apply Rmult_le_pos; lra). lra. }
  split; [ exact Hbounds | ].
  intros H0. assert (Hz : calculateLiquidVolume cylinder fillLevel = 0)
    by (unfold calculateLiquidVolume; rewrite H0; ring).
  lra.
Qed.

Lemma volumePoured_bounded_witness :
  0 <= volumePoured (PI / 4) unitCup 1 <= calculateLiquidVolume unitCup 1 /\
  volumePoured (PI / 4) unitCup 0 = 0.
Proof.
  pose proof PI_RGT_0 as Hpi.
  destruct (volumePoured_bounded (PI / 4) unitCup 1) as (Hb & _);
    [ cbn [unitCup height]; lra | lra | lra | ].
  destruct (volumePoured_bounded (PI / 4) unitCup 0) as (_ & H0);
    [ cbn [unitCup height]; lra | lra | lra | ].
  split; [ exact Hb | apply H0; reflexivity ].
Defined.

Lemma tan_nonneg_first_quadrant (t : R) : 0 <= t < PI / 2 -> 0 <= tan t.
Proof.
  intros [[Hpos | <-] Hlt].
  - left. apply tan_gt_0; assumption.
  - rewrite tan_0. lra.
Qed.

(** X7: for a radius and a height that are not negative, a fill level in
    [0, 1] and a tilt in [0, PI/2), the reported surface stays inside the
    cup ([0 <= lowSide <= highSide <= height]); the cup is flagged as
    spilling exactly when the high side passes the rim or the low side
    reaches the bottom (an empty upright cup is flagged); and when it is not
    flagged, the two sides are the surface heights themselves, with the
    liquid height as their mean. *)
Theorem getLiquidSurfaceWhenTilted_inside
    (tiltAngle : R) (cylinder : CylinderParams) (fillLevel : R) :
  0 <= radius cylinder -> 0 <= height cylinder -> 0 <= fillLevel <= 1 ->
  0 <= tiltAngle < PI / 2 ->
  let s := getLiquidSurfaceWhenTilted tiltAngle cylinder fillLevel in
  let liquidHeight := height cylinder * fillLevel in
  let heightChange := radius cylinder * tan tiltAngle in
  0 <= lowSide s <= highSide s /\ highSide s <= height cylinder /\
  (spilling s = true <->
   height cylinder < liquidHeight + heightChange \/
   liquidHeight - heightChange <= 0) /\
  (spilling s = false ->
   highSide s = liquidHeight + heightChange /\
   lowSide s = liquidHeight - heightChange /\
   (highSide s + lowSide s) / 2 = liquidHeight).
Proof.
  intros Hr Hh Hf Ht s lh d.
  assert (Htan : 0 <= tan tiltAngle) by (apply tan_nonneg_first_quadrant; exact Ht).
  assert (Hd : 0 <= d) by (apply Rmult_le_pos; assumption).
  assert (Hlh : 0 <= lh <= height cylinder) by (unfold lh; nra).
  unfold s, getLiquidSurfaceWhenTilted. fold lh. fold d.
  cbn [highSide lowSide spilling].
  assert (Hspill :
    ((if Rlt_dec (height cylinder) (lh + d) then true else false) &&
     (if Rlt_dec (lh - d) (height cylinder) then true else false)
     || (if Rle_dec (lh - d) 0 then true else false))%bool = true <->
    height cylinder < lh + d \/ lh - d <= 0).
  { destruct (Rlt_dec (height cylinder) (lh + d));
      destruct (Rlt_dec (lh - d) (height cylinder));
      destruct (Rle_dec (lh - d) 0); cbn; split;
      try (intros _; lra); try reflexivity; try discriminate;
      intros [ | ]; lra. }
  split; [ | split; [ | split ] ].
  - split; [ apply Rmax_l | ].
    apply Rmax_lub; apply Rmin_glb; lra.
  - apply Rmin_r.
  - exact Hspill.
  - intros Hno.
    assert (Hin : ~ (height cylinder < lh + d \/ lh - d <= 0)).
    { intros H. apply Hspill in H. rewrite H in Hno. discriminate. }
    rewrite Rmin_left by lra. rewrite Rmax_right by lra.
    repeat split; try reflexivity. field.
Qed.

Lemma getLiquidSurfaceWhenTilted_inside_witness :
  spilling (getLiquidSurfaceWhenTilted 0 unitCup 0) = true /\
  highSide (getLiquidSurfaceWhenTilted 0 unitCup (1 / 2)) = 1 / 2.
Proof.
  pose proof PI2_RGT_0 as Hpi.
  destruct (getLiquidSurfaceWhenTilted_inside 0 unitCup 0) as (_ & _ & Hs & _);
    [ cbn [unitCup radius]; lra | cbn [unitCup height]; lra | lra | lra | ].
  destruct (getLiquidSurfaceWhenTilted_inside 0 unitCup (1 / 2)) as (_ & _ & Hs' & Hn);
    [ cbn [unitCup radius]; lra | cbn [unitCup height]; lra | lra | lra | ].
  cbn [unitCup radius height] in *. rewrite tan_0 in *.
  split.
  - apply Hs. right. lra.
  - assert (Hno : spilling (getLiquidSurfaceWhenTilted 0 unitCup (1 / 2)) = false)
      by (apply not_true_is_false; intros E; apply Hs' in E; lra).
    destruct (Hn Hno) as (Hhigh & _). rewrite Hhigh. lra.
Defined.

(** X8: [toDegrees] and [toRadians] are inverse to each other, and the
    stability margin of a state is [toDegrees] of the critical angle minus
    the clamped tilt. *)
Theorem toDegrees_toRadians_inverse (a : R) :
  toDegrees (toRadians a) = a /\ toRadians (toDegrees a) = a /\
  forall cylinder fill tilt cupMass density,
    let st := calculatePhysicsState cylinder fill tilt cupMass density in
    stabilityMargin st = toDegrees (criticalTipoverAngle_ st - tiltAngle st).
Proof.
  pose proof PI_RGT_0 as Hpi. unfold toDegrees, toRadians.
  split; [ field; lra | split; [ field; lra | reflexivity ] ].
Qed.

End PhysicsExtras.

(** * Further properties of the circle and cylinder fitters *)

Section CircleFitExtras.

Import CylinderFitting Vocabulary Samples.

Lemma sumsOnCircle_fold (a b c0 : R) (points : list Point2) :
  Forall (fun p => fst p * fst p + snd p * snd p =
                   2 * a * fst p + 2 * b * snd p + c0) points ->
  forall (s : Sums) (n : R),
    sumsOnCircle a b c0 s n ->
    sumsOnCircle a b c0 (fold_left addPoint points s) (n + INR (length points)).
Proof.
  induction 1 as [ | [px py] points Hp _ IH ]; intros s n Hs.
  - cbn [fold_left length INR]. replace (n + 0) with n by ring. exact Hs.
  - cbn [fold_left]. change (length ((px, py) :: points)) with (S (length points)).
    rewrite S_INR.
    replace (n + (INR (length points) + 1)) with ((n + 1) + INR (length points))
      by ring.
    apply IH. cbn [fst snd] in Hp.
    destruct Hs as (H1 & H2 & H3). unfold sumsOnCircle, addPoint.
    cbn [sumX sumY sumX2 sumY2 sumXY sumX3 sumY3 sumX2Y sumXY2].
    repeat split; nra.
Qed.

(** Cramer's rule for the determinants of [fitCircle2D]: when the right-hand
    side is the matrix applied to [(a, b, c)], replacing a column by it
    multiplies the determinant by the matching unknown. *)
Lemma cramer_three (m00 m01 m02 m11 m12 m22 a b c : R) :
  let A := [ [m00; m01; m02]; [m01; m11; m12]; [m02; m12; m22] ] in
  let B := [ m00 * a + m01 * b + m02 * c;
             m01 * a + m11 * b + m12 * c;
             m02 * a + m12 * b + m22 * c ] in
  determinant3x3 (replaceColumn A B 0) = a * determinant3x3 A /\
  determinant3x3 (replaceColumn A B 1) = b * determinant3x3 A /\
  determinant3x3 (replaceColumn A B 2) = c * determinant3x3 A.
Proof.
  cbv [determinant3x3 replaceColumn mapi mapi_from entry nth Nat.eqb].
  repeat split; ring.
Qed.

(** The fit of points that lie exactly on a circle. *)
Lemma fitCircle2D_on_circle (points : list Point2) (a b r : R) :
  Forall (fun p => (fst p - a) ^ 2 + (snd p - b) ^ 2 = r ^ 2) points ->
  (3 <= length points)%nat ->
  1e-10 <= Rabs (determinant3x3 (matrixA points)) ->
  0 < r ^ 2 + a ^ 2 + b ^ 2 ->
  fitCircle2D points =
  Some {| Circle2D.center := (a, b);
          Circle2D.radius := sqrt ((r ^ 2 + a ^ 2 + b ^ 2) / 2) |}.
Proof.
  intros Hon Hlen Hdet Hpos.
  set (c0 := r ^ 2 - a ^ 2 - b ^ 2).
  assert (Hs : sumsOnCircle a b c0 (sums points) (INR (length points))).
  { replace (INR (length points)) with (0 + INR (length points)) by ring.
    apply sumsOnCircle_fold.
    - eapply Forall_impl; [ | exact Hon ]. intros [px py] H. cbn [fst snd] in *.
      unfold c0. nra.
    - unfold sumsOnCircle, zeroSums.
      cbn [sumX sumY sumX2 sumY2 sumXY sumX3 sumY3 sumX2Y sumXY2]. repeat split; ring. }
  destruct Hs as (H1 & H2 & H3).
  assert (HB : vectorB points =
    [ sumX2 (sums points) * a + sumXY (sums points) * b + sumX (sums points) * (c0 / 2);
      sumXY (sums points) * a + sumY2 (sums points) * b + sumY (sums points) * (c0 / 2);
      sumX (sums points) * a + sumY (sums points) * b +
        INR (length points) * (c0 / 2) ]).
  { unfold vectorB. cbv zeta. rewrite H1, H2, H3.
    f_equal; [ field | f_equal; [ field | f_equal; field ] ]. }
  destruct (cramer_three (sumX2 (sums points)) (sumXY (sums points))
              (sumX (sums points)) (sumY2 (sums points)) (sumY (sums points))
              (INR (length points)) a b (c0 / 2)) as (Ca & Cb & Cc).
  cbv zeta in Ca, Cb, Cc. rewrite <- HB in Ca, Cb, Cc.
  change [ [sumX2 (sums points); sumXY (sums points); sumX (sums points)];
           [sumXY (sums points); sumY2 (sums points); sumY (sums points)];
           [sumX (sums points); sumY (sums points); INR (length points)] ]
    with (matrixA points) in Ca, Cb, Cc.
  assert (Hq : 0 < (r ^ 2 + a ^ 2 + b ^ 2) / 2) by lra.
  apply (fitCircle2D_value points (determinant3x3 (matrixA points)) a b (c0 / 2)).
  - exact Hlen.
  - reflexivity.
  - exact Hdet.
  - exact Ca.
  - exact Cb.
  - exact Cc.
  - apply sqrt_lt_R0. exact Hq.
  - rewrite sqrt_sqrt by lra. unfold c0. field.
Qed.

Lemma fitCircle2D_through_origin (points : list Point2) (a b r : R) :
  Forall (fun p => (fst p - a) ^ 2 + (snd p - b) ^ 2 = r ^ 2) points ->
  (3 <= length points)%nat ->
  1e-10 <= Rabs (determinant3x3 (matrixA points)) ->
  0 < r -> a ^ 2 + b ^ 2 = r ^ 2 ->
  fitCircle2D points = Some {| Circle2D.center := (a, b); Circle2D.radius := r |}.
Proof.
  intros Hon Hlen Hdet Hr Horigin.
  assert (Hr2 : 0 < r ^ 2) by nra.
  rewrite (fitCircle2D_on_circle points a b r Hon Hlen Hdet) by lra.
  do 2 f_equal.
  replace ((r ^ 2 + a ^ 2 + b ^ 2) / 2) with (r * r) by lra.
  apply sqrt_square. lra.
Qed.

(** X9: on three or more points that lie exactly on the circle of centre
    [(a, b)] and radius [r], with normal equations that are not degenerate,
    [fitCircle2D] returns the centre [(a, b)] exactly and the radius
    [sqrt((r^2 + a^2 + b^2) / 2)]; this is the radius [r] of the circle when
    the circle passes through the origin. *)
Theorem fitCircle2D_exact_points (points : list Point2) (a b r : R) :
  Forall (fun p => (fst p - a) ^ 2 + (snd p - b) ^ 2 = r ^ 2) points ->
  (3 <= length points)%nat ->
  1e-10 <= Rabs (determinant3x3 (matrixA points)) ->
  0 < r ->
  fitCircle2D points =
    Some {| Circle2D.center := (a, b);
            Circle2D.radius := sqrt ((r ^ 2 + a ^ 2 + b ^ 2) / 2) |} /\
  (a ^ 2 + b ^ 2 = r ^ 2 ->
   fitCircle2D points =
     Some {| Circle2D.center := (a, b); Circle2D.radius := r |}).
Proof.
  intros Hon Hlen Hdet Hr.
  pose proof (pow2_ge_0 a) as Ha2. pose proof (pow2_ge_0 b) as Hb2.
  assert (Hr2 : 0 < r ^ 2) by nra.
  assert (Hfit := fitCircle2D_on_circle points a b r Hon Hlen Hdet ltac:(lra)).
  split; [ exact Hfit | ].
  intros Horigin. apply fitCircle2D_through_origin; assumption.
Qed.

Lemma thimbleRim_determinant :
  determinant3x3 (matrixA thimbleRim) = 3.06e-8.
Proof.
  cbv [determinant3x3 matrixA sums fold_left addPoint zeroSums entry nth length INR
       sumX sumY sumX2 sumY2 sumXY sumX3 sumY3 sumX2Y sumXY2 thimbleRim ringXZ app].
  lra.
Qed.

Lemma fitCircle2D_exact_points_witness :
  fitCircle2D thimbleRim = Some thimbleCircle.
Proof.
  destruct (fitCircle2D_exact_points thimbleRim 0.005 0 0.005) as [_ H].
  - unfold thimbleRim, ringXZ. cbn [app].
    repeat constructor; cbn [fst snd]; lra.
  - cbn. lia.
  - rewrite thimbleRim_determinant. rewrite Rabs_pos_eq; lra.
  - lra.
  - apply H. lra.
Defined.

Lemma setAdd_NoDup (i : Z) (indices : list Z) :
  NoDup indices -> NoDup (setAdd i indices).
Proof.
  intros Hnd. unfold setAdd. destruct (existsb (Z.eqb i) indices) eqn:E; [ exact Hnd | ].
  apply NoDup_app; [ exact Hnd | constructor; [ intros [] | constructor ] | ].
  intros j Hj [<- | []].
  assert (existsb (Z.eqb i) indices = true); [ | congruence ].
  apply existsb_exists. exists i. split; [ exact Hj | apply Z.eqb_refl ].
Qed.

Lemma setAdd_length (i : Z) (indices : list Z) :
  (length indices <= length (setAdd i indices) <= S (length indices))%nat.
Proof.
  unfold setAdd. destruct (existsb _ _); [ lia | ]. rewrite length_app. cbn. lia.
Qed.

Lemma drawIndices_invariant (random : nat -> R) (n : nat) :
  forall (fuel : nat) (indices : list Z) (k k' : nat) (drawn : list Z),
    NoDup indices -> (length indices <= 3)%nat ->
    drawIndices random fuel n indices k = Done (drawn, k') ->
    NoDup drawn /\ length drawn = 3%nat /\ (k + (3 - length indices) <= k')%nat.
Proof.
  induction fuel as [ | fuel IH ]; intros indices k k' drawn Hnd Hlen Hrun;
    cbn [drawIndices] in Hrun;
    destruct (Nat.ltb_spec (length indices) 3) as [Hlt | Hge];
    try discriminate;
    try (apply ret_Done_inv in Hrun as [<- <-]; repeat split; [ exact Hnd | lia | lia ]).
  unfold bind, Math_random in Hrun.
  pose proof (setAdd_length (JSMath.floor (random k * INR n)) indices) as Hl.
  apply IH in Hrun as (H1 & H2 & H3);
    [ | apply setAdd_NoDup; exact Hnd | lia ].
  repeat split; [ exact H1 | exact H2 | lia ].
Qed.

(** X10: a sample drawn by the rejection loop of [fitCircleRANSAC] consists
    of exactly three pairwise distinct indices, and drawing it takes at
    least three calls of [Math.random]; when [Math.random] stays in [0, 1)
    the indices are valid positions of the point array. *)
Theorem drawIndices_three_distinct (random : nat -> R) (fuel n k k' : nat)
    (drawn : list Z) :
  drawIndices random fuel n [] k = Done (drawn, k') ->
  NoDup drawn /\ length drawn = 3%nat /\ (k + 3 <= k')%nat /\
  ((forall j, 0 <= random j < 1) -> (0 < n)%nat ->
   Forall (fun i => (0 <= i < Z.of_nat n)%Z) drawn).
Proof.
  intros Hrun.
  destruct (drawIndices_invariant random n fuel [] k k' drawn) as (H1 & H2 & H3);
    [ constructor | cbn; lia | exact Hrun | ].
  repeat split; [ exact H1 | exact H2 | cbn [length] in H3; lia | ].
  intros Hrandom Hn.
  eapply drawIndices_range; [ exact Hrandom | exact Hn | constructor | exact Hrun ].
Qed.

Lemma drawIndices_three_distinct_witness :
  drawIndices cyclicStream 3 6 [] 0%nat = Done ([0%Z; 1%Z; 2%Z], 3%nat) /\
  NoDup [0%Z; 1%Z; 2%Z].
Proof.
  pose proof (cyclic_draw 0 0) as Hdraw.
  split; [ exact Hdraw | ].
  apply (drawIndices_three_distinct cyclicStream 3 6 0 3 _ Hdraw).
Defined.

Lemma lookupAll_incl {A} (points : list A) :
  forall (indices : list Z) (sample : list A),
    lookupAll points indices = Some sample ->
    incl sample points /\ length sample = length indices.
Proof.
  induction indices as [ | i indices IH ]; intros sample H; cbn [lookupAll] in H.
  - injection H as <-. split; [ intros p [] | reflexivity ].
  - destruct (at_index points i) as [ p | ] eqn:Hp; [ | discriminate ].
    destruct (lookupAll points indices) as [ ps | ]; [ | discriminate ].
    injection H as <-. destruct (IH ps eq_refl) as [Hincl Hlen].
    split; [ | cbn; lia ].
    intros q [<- | Hq]; [ | apply Hincl; exact Hq ].
    unfold at_index in Hp. destruct (i <? 0)%Z; [ discriminate | ].
    eapply nth_error_In. exact Hp.
Qed.

(** A circle is a fit of the points when it is the algebraic fit of at least
    three of them. *)
Lemma ransacLoop_fit_of_points (random : nat -> R) (fuel : nat)
    (points : list Point2) (threshold : R) :
  forall (iterations : nat) (bestCircle : option Circle2D.t) (bestInliers k k' : nat)
         (result : option Circle2D.t),
    fitOfPoints points bestCircle ->
    ransacLoop random fuel points threshold iterations bestCircle bestInliers k
      = Done (result, k') ->
    fitOfPoints points result.
Proof.
  induction iterations as [ | iterations IH ];
    intros bestCircle bestInliers k k' result Hbest Hrun.
  - cbn in Hrun. apply ret_Done_inv in Hrun as [<- _]. exact Hbest.
  - cbn [ransacLoop] in Hrun.
    apply bind_Done_inv in Hrun as (indices & k1 & Hdraw & Hrun).
    destruct (lookupAll points indices) as [sample | ] eqn:Hsample; [ | discriminate ].
    destruct (fitCircle2D sample) as [circle | ] eqn:Hfit.
    + destruct (_ <? _)%nat.
      * eapply IH; [ | exact Hrun ].
        cbn. exists sample. split; [ | exact Hfit ].
        apply (lookupAll_incl points indices sample Hsample).
      * eapply IH; [ exact Hbest | exact Hrun ].
    + eapply IH; [ exact Hbest | exact Hrun ].
Qed.

Lemma ransacLoop_cursor (random : nat -> R) (fuel : nat)
    (points : list Point2) (threshold : R) :
  forall (iterations : nat) (bestCircle : option Circle2D.t) (bestInliers k k' : nat)
         (result : option Circle2D.t),
    ransacLoop random fuel points threshold iterations bestCircle bestInliers k
      = Done (result, k') ->
    (k + 3 * iterations <= k')%nat.
Proof.
  induction iterations as [ | iterations IH ];
    intros bestCircle bestInliers k k' result Hrun.
  - cbn in Hrun. apply ret_Done_inv in Hrun as [_ <-]. lia.
  - cbn [ransacLoop] in Hrun.
    apply bind_Done_inv in Hrun as (indices & k1 & Hdraw & Hrun).
    apply drawIndices_invariant in Hdraw as (_ & _ & Hk);
      [ | constructor | cbn; lia ].
    cbn [length] in Hk.
    destruct (lookupAll points indices) as [sample | ]; [ | discriminate ].
    destruct (fitCircle2D sample) as [circle | ];
      [ destruct (_ <? _)%nat | ]; apply IH in Hrun; lia.
Qed.

Lemma fitCircleRANSAC_cursor (random : nat -> R) (fuel : nat)
    (points : list Point2) (iterations : nat) (threshold : R) (k k' : nat)
    (circle : Circle2D.t) :
  fitCircleRANSAC random fuel points iterations threshold k = Done (Some circle, k') ->
  (k + 3 * iterations <= k')%nat.
Proof.
  unfold fitCircleRANSAC. destruct (_ <? _)%nat.
  - intros H. apply ret_Done_inv in H as [H _]. discriminate.
  - intros H. apply bind_Done_inv in H as (best & k1 & Hloop & H).
    apply ret_Done_inv in H as [_ <-].
    eapply ransacLoop_cursor. exact Hloop.
Qed.

(** X11: a circle returned by [fitCircleRANSAC] is the algebraic fit of a
    selection of at least three of the input points (the sample of a round,
    or the inliers of the best round), so its radius is positive; the run
    has called [Math.random] at least three times in each round. *)
Theorem fitCircleRANSAC_fit_of_points (random : nat -> R) (fuel : nat)
    (points : list Point2) (iterations : nat) (threshold : R) (k k' : nat)
    (circle : Circle2D.t) :
  fitCircleRANSAC random fuel points iterations threshold k = Done (Some circle, k') ->
  (exists sample,
     incl sample points /\ (3 <= length sample)%nat /\
     fitCircle2D sample = Some circle) /\
  0 < Circle2D.radius circle /\
  (k + 3 * iterations <= k')%nat.
Proof.
  intros Hrun.
  split; [ | split; [ eapply fitCircleRANSAC_positive; exact Hrun | ] ];
    [ | eapply fitCircleRANSAC_cursor; exact Hrun ].
  assert (Hfit : fitOfPoints points (Some circle)).
  { unfold fitCircleRANSAC in Hrun. destruct (_ <? _)%nat.
    - apply ret_Done_inv in Hrun as [H _]. discriminate.
    - apply bind_Done_inv in Hrun as (best & k1 & Hloop & H).
      apply ret_Done_inv in H as [H _].
      apply ransacLoop_fit_of_points in Hloop; [ | exact I ].
      unfold refit in H. destruct best as [best | ]; [ | discriminate ].
      destruct (_ <=? _)%nat; [ | injection H as <-; exact Hloop ].
      destruct (fitCircle2D (filter _ points)) as [refined | ] eqn:Hre;
        injection H as <-; [ | exact Hloop ].
      cbn. exists (filter (isInlier best threshold) points).
      split; [ apply incl_filter | exact Hre ]. }
  cbn in Hfit. destruct Hfit as (sample & Hincl & Hfit).
  exists sample. split; [ exact Hincl | split; [ | exact Hfit ] ].
  apply (fitCircle2D_Some_inv sample circle Hfit).
Qed.

Lemma fitCircleRANSAC_fit_of_points_witness :
  fitCircleRANSAC cyclicStream 3 (rimPointsOf thimble) 200 0.05 0%nat =
    Done (Some thimbleCircle, 600%nat) /\
  0 < Circle2D.radius thimbleCircle.
Proof.
  split; [ exact (thimble_rim_circle 0) | ].
  apply (fitCircleRANSAC_fit_of_points cyclicStream 3 (rimPointsOf thimble) 200 0.05
           0 600 thimbleCircle (thimble_rim_circle 0)).
Defined.

End CircleFitExtras.

Section CylinderFitExtras.

Import CylinderFitting VolumeDetection Vocabulary Samples.

(** The running minimum and maximum of [fitCylinder] enclose the heights of
    all points. *)
Lemma heightExtent_fold (positions : list Point3) :
  forall (a b : option R) (mn mx : option R),
    fold_left (fun '(minY, maxY) '(_, y, _) => (minStep minY y, maxStep maxY y))
      positions (a, b) = (mn, mx) ->
    (forall m, a = Some m -> exists lo, mn = Some lo /\ lo <= m) /\
    (forall m, b = Some m -> exists hi, mx = Some hi /\ m <= hi) /\
    Forall (fun p => exists lo hi,
              mn = Some lo /\ mx = Some hi /\ lo <= coordY p <= hi) positions.
Proof.
  induction positions as [ | [[px py] pz] positions IH ]; intros a b mn mx H.
  - cbn in H. injection H as <- <-. repeat split.
    + intros m ->. exists m. split; [ reflexivity | lra ].
    + intros m ->. exists m. split; [ reflexivity | lra ].
    + constructor.
  - cbn [fold_left] in H. apply IH in H as (Hlo & Hhi & Hall).
    assert (Ha : exists a', minStep a py = Some a' /\ a' <= py /\
                            forall m, a = Some m -> a' <= m).
    { destruct a as [m | ]; cbn.
      - exists (Rmin m py). repeat split; [ apply Rmin_r | ].
        intros m' H'. injection H' as <-. apply Rmin_l.
      - exists py. repeat split; [ lra | discriminate ]. }
    assert (Hb : exists b', maxStep b py = Some b' /\ py <= b' /\
                            forall m, b = Some m -> m <= b').
    { destruct b as [m | ]; cbn.
      - exists (Rmax m py). repeat split; [ apply Rmax_r | ].
        intros m' H'. injection H' as <-. apply Rmax_l.
      - exists py. repeat split; [ lra | discriminate ]. }
    destruct Ha as (a' & Ha' & Hapy & Haa). destruct Hb as (b' & Hb' & Hbpy & Hbb).
    destruct (Hlo a' Ha') as (lo & Hmn & Hlo').
    destruct (Hhi b' Hb') as (hi & Hmx & Hhi').
    repeat split.
    + intros m Hm. exists lo. split; [ exact Hmn | ]. specialize (Haa m Hm). lra.
    + intros m Hm. exists hi. split; [ exact Hmx | ]. specialize (Hbb m Hm). lra.
    + constructor; [ | exact Hall ].
      exists lo, hi. cbn [coordY]. repeat split; try assumption; lra.
Qed.

Lemma totalError_fold_nonneg (circle : Circle2D.t) (positions : list Point3) :
  forall acc, 0 <= acc ->
    0 <= fold_left
           (fun totalError '(px, _, pz) =>
              let dist := sqrt ((px - fst (Circle2D.center circle)) ^ 2 +
                                (pz - snd (Circle2D.center circle)) ^ 2) in
              totalError + Rabs (dist - Circle2D.radius circle))
           positions acc.
Proof.
  induction positions as [ | [[px py] pz] positions IH ]; intros acc Hacc.
  - exact Hacc.
  - cbn [fold_left]. apply IH.
    pose proof (Rabs_pos (sqrt ((px - fst (Circle2D.center circle)) ^ 2 +
                                (pz - snd (Circle2D.center circle)) ^ 2)
                          - Circle2D.radius circle)).
    cbv zeta. lra.
Qed.

(** What holds of every cylinder that [fitCylinder] returns. *)
Lemma fitCylinder_facts (random : nat -> R) (fuel : nat)
    (positions : list Point3) (axis : Axis) (k k' : nat) (cylinder : CylinderFit.t) :
  fitCylinder random fuel positions axis k = Done (Some cylinder, k') ->
  (10 <= length positions)%nat /\
  0 < CylinderFit.radius cylinder /\
  0 < CylinderFit.height cylinder /\
  0 <= CylinderFit.confidence cylinder <= 1 /\
  CylinderFit.axis cylinder = axis /\
  Forall (fun p =>
            coordY (CylinderFit.center cylinder) <= coordY p
              <= coordY (CylinderFit.center cylinder) + CylinderFit.height cylinder)
         positions.
Proof.
  intros Hrun.
  assert (Hlen : (10 <= length positions)%nat).
  { unfold fitCylinder in Hrun.
    destruct (Nat.ltb_spec (length positions) 10) as [ _ | H ]; [ | exact H ].
    apply ret_Done_inv in Hrun as [H _]. discriminate. }
  assert (Hconf : exists circle,
            0 < Circle2D.radius circle /\
            CylinderFit.confidence cylinder =
              Rmax 0 (1 - totalError circle positions / INR (length positions) /
                          Circle2D.radius circle)).
  { unfold fitCylinder in Hrun.
    destruct (_ <? _)%nat; [ apply ret_Done_inv in Hrun as [H _]; discriminate | ].
    apply bind_Done_inv in Hrun as ([circle | ] & k1 & Hfit & H);
      [ | apply ret_Done_inv in H as [H _]; discriminate ].
    destruct (heightExtent positions) as [[minY | ] [maxY | ]];
      try (apply ret_Done_inv in H as [H _]; discriminate).
    destruct (Rle_dec (maxY - minY) 0);
      [ apply ret_Done_inv in H as [H _]; discriminate | ].
    apply ret_Done_inv in H as [H _]. injection H as <-.
    exists circle. split; [ | reflexivity ].
    eapply fitCircleRANSAC_positive. exact Hfit. }
  apply fitCylinder_Some_inv in Hrun
    as (circle & minY & maxY & Hfit & Hext & Hh & Hr & Hheight & Hc & Ha).
  apply fitCircleRANSAC_positive in Hfit.
  split; [ exact Hlen | ]. split; [ lra | ]. split; [ lra | ].
  split; [ | split; [ exact Ha | ] ].
  - destruct Hconf as (c & Hcpos & ->). split; [ apply Rmax_l | ].
    apply Rmax_lub; [ lra | ].
    assert (Hn : 0 < INR (length positions)) by (apply lt_0_INR; lia).
    assert (Herr : 0 <= totalError c positions)
      by (apply totalError_fold_nonneg; lra).
    assert (0 <= totalError c positions / INR (length positions) / Circle2D.radius c).
    { apply Rmult_le_pos; [ apply Rmult_le_pos | ];
        [ exact Herr | left; apply Rinv_0_lt_compat; exact Hn
        | left; apply Rinv_0_lt_compat; exact Hcpos ]. }
    lra.
  - unfold heightExtent in Hext.
    apply heightExtent_fold in Hext as (_ & _ & Hall).
    eapply Forall_impl; [ | exact Hall ].
    intros p (lo & hi & Hlo & Hhi & Hp).
    injection Hlo as <-. injection Hhi as <-.
    rewrite Hc, Hheight. cbn [coordY]. lra.
Qed.

(** X12: a cylinder returned by [fitCylinder] has a positive radius and a
    positive height, a confidence in [0, 1], carries the axis it was given,
    and spans the heights of all points: every point lies between the base
    [center.y] and [center.y + height]. *)
Theorem fitCylinder_result_invariants (random : nat -> R) (fuel : nat)
    (positions : list Point3) (axis : Axis) (k k' : nat) (cylinder : CylinderFit.t) :
  fitCylinder random fuel positions axis k = Done (Some cylinder, k') ->
  (10 <= length positions)%nat /\
  0 < CylinderFit.radius cylinder /\
  0 < CylinderFit.height cylinder /\
  0 <= CylinderFit.confidence cylinder <= 1 /\
  CylinderFit.axis cylinder = axis /\
  Forall (fun p =>
            coordY (CylinderFit.center cylinder) <= coordY p
              <= coordY (CylinderFit.center cylinder) + CylinderFit.height cylinder)
         positions.
Proof. exact (fitCylinder_facts random fuel positions axis k k' cylinder). Qed.

(** *** A run of [fitCylinder] on ten points *)

Lemma cyclicOf_floor (n k m : nat) :
  (0 < n)%nat -> (k mod 3 = m)%nat ->
  JSMath.floor (cyclicStreamOf n k * INR n) = Z.of_nat m.
Proof.
  intros Hn <-. unfold JSMath.floor, cyclicStreamOf.
  assert (HnR : 0 < INR n) by (apply lt_0_INR; exact Hn).
  replace (INR (k mod 3) / INR n * INR n) with (INR (k mod 3)) by (field; lra).
  apply Int_part_INR.
Qed.

Lemma cyclicOf_draw (n fuel j : nat) :
  (0 < n)%nat ->
  drawIndices (cyclicStreamOf n) (3 + fuel) n [] (3 * j)%nat =
  Done ([0%Z; 1%Z; 2%Z], (3 * j + 3)%nat).
Proof.
  intros Hn.
  assert (H0 : ((3 * j) mod 3 = 0)%nat)
    by (rewrite Nat.mul_comm; apply Nat.Div0.mod_mul).
  assert (H1 : ((S (3 * j)) mod 3 = 1)%nat)
    by (replace (S (3 * j)) with (1 + j * 3)%nat by lia;
        rewrite Nat.Div0.mod_add; reflexivity).
  assert (H2 : ((S (S (3 * j))) mod 3 = 2)%nat)
    by (replace (S (S (3 * j))) with (2 + j * 3)%nat by lia;
        rewrite Nat.Div0.mod_add; reflexivity).
  cbn [drawIndices Nat.add length Nat.ltb Nat.leb].
  unfold bind, Math_random.
  rewrite (cyclicOf_floor n _ _ Hn H0).
  cbn [Z.of_nat setAdd existsb app length Nat.ltb Nat.leb].
  rewrite (cyclicOf_floor n _ _ Hn H1).
  cbn [Z.of_nat Pos.of_succ_nat setAdd existsb Z.eqb orb app length Nat.ltb Nat.leb].
  rewrite (cyclicOf_floor n _ _ Hn H2).
  cbn [Z.of_nat Pos.of_succ_nat Pos.succ setAdd existsb Z.eqb Pos.eqb orb app
       length Nat.ltb Nat.leb].
  destruct fuel; cbn [drawIndices length Nat.ltb Nat.leb];
    unfold ret; repeat f_equal; lia.
Qed.

Lemma ransacLoop_cyclicOf_settled (fuel : nat) (points : list Point2) (threshold : R)
    (sample : list Point2) (circle : Circle2D.t) :
  (0 < length points)%nat ->
  lookupAll points [0%Z; 1%Z; 2%Z] = Some sample ->
  fitCircle2D sample = Some circle ->
  forall iterations j,
    ransacLoop (cyclicStreamOf (length points)) (3 + fuel) points threshold iterations
      (Some circle) (length (filter (isInlier circle threshold) points)) (3 * j)%nat =
    Done (Some circle, (3 * (j + iterations))%nat).
Proof.
  intros Hlen Hsample Hfit.
  induction iterations as [ | iterations IH ]; intros j.
  - cbn [ransacLoop]. unfold ret. do 2 apply f_equal. lia.
  - cbn [ransacLoop]. unfold bind at 1. rewrite (cyclicOf_draw _ _ _ Hlen).
    rewrite Hsample, Hfit, Nat.ltb_irrefl.
    replace (3 * j + 3)%nat with (3 * (j + 1))%nat by lia.
    rewrite IH. do 2 apply f_equal. lia.
Qed.

Lemma ransacLoop_cyclicOf (fuel : nat) (points : list Point2) (threshold : R)
    (sample : list Point2) (circle : Circle2D.t) (iterations : nat) :
  (0 < length points)%nat ->
  lookupAll points [0%Z; 1%Z; 2%Z] = Some sample ->
  fitCircle2D sample = Some circle ->
  (0 < length (filter (isInlier circle threshold) points))%nat ->
  ransacLoop (cyclicStreamOf (length points)) (3 + fuel) points threshold
    (S iterations) None 0 0%nat =
  Done (Some circle, (3 * S iterations)%nat).
Proof.
  intros Hlen Hsample Hfit Hin.
  cbn [ransacLoop]. unfold bind at 1.
  pose proof (cyclicOf_draw (length points) fuel 0 Hlen) as Hdraw.
  change (3 * 0)%nat with 0%nat in Hdraw.
  change (0 + 3)%nat with (3 * 1)%nat in Hdraw.
  rewrite Hdraw, Hsample, Hfit.
  destruct (Nat.ltb_spec 0 (length (filter (isInlier circle threshold) points)))
    as [ _ | ]; [ | lia ].
  rewrite (ransacLoop_cyclicOf_settled fuel points threshold sample circle
             Hlen Hsample Hfit).
  do 2 apply f_equal. lia.
Qed.

Lemma filter_all_inliers (cx cz r threshold : R) (points : list Point2) :
  0 <= r -> 0 < threshold ->
  Forall (fun p => (fst p - cx) ^ 2 + (snd p - cz) ^ 2 = r * r) points ->
  filter (isInlier {| Circle2D.center := (cx, cz); Circle2D.radius := r |} threshold)
    points = points.
Proof.
  intros Hr Ht. induction 1 as [ | [px pz] points Hp _ IH ]; [ reflexivity | ].
  cbn [filter]. cbn [fst snd] in Hp.
  rewrite isInlier_on_circle by assumption. rewrite IH. reflexivity.
Qed.

Lemma totalError_on_circle (cx cz r : R) (positions : list Point3) :
  0 <= r ->
  Forall (fun p => (fst (fst p) - cx) ^ 2 + (snd p - cz) ^ 2 = r * r) positions ->
  totalError {| Circle2D.center := (cx, cz); Circle2D.radius := r |} positions = 0.
Proof.
  intros Hr Hall. unfold totalError. cbn [Circle2D.center Circle2D.radius fst snd].
  induction Hall as [ | [[px py] pz] positions Hp _ IH ]; [ reflexivity | ].
  cbn [fold_left]. cbn [fst snd] in Hp. cbv zeta.
  rewrite Hp, sqrt_square by exact Hr.
  replace (0 + Rabs (r - r)) with 0; [ exact IH | ].
  replace (r - r) with 0 by ring. rewrite Rabs_R0. ring.
Qed.

Lemma tenOnCylinder_on_circle :
  Forall (fun p => (fst p - 1) ^ 2 + (snd p - 0) ^ 2 = 1 ^ 2)
    (projectedPoints tenOnCylinder).
Proof.
  unfold tenOnCylinder. cbn [projectedPoints map].
  repeat constructor; cbn [fst snd]; lra.
Qed.

Lemma tenOnCylinder_fit :
  fitCircle2D (projectedPoints tenOnCylinder) = Some unitCircleAt1.
Proof.
  apply (fitCircle2D_through_origin _ 1 0 1).
  - exact tenOnCylinder_on_circle.
  - cbn. lia.
  - assert (Hdet : determinant3x3 (matrixA (projectedPoints tenOnCylinder)) = 242.4192).
    { cbv [determinant3x3 matrixA sums fold_left addPoint zeroSums entry nth length
           INR sumX sumY sumX2 sumY2 sumXY sumX3 sumY3 sumX2Y sumXY2
           tenOnCylinder projectedPoints map].
      lra. }
    rewrite Hdet. rewrite Rabs_pos_eq; lra.
  - lra.
  - lra.
Qed.

Lemma tenOnCylinder_sample_fit :
  fitCircle2D [(0, 0); (2, 0); (1, 1)] = Some unitCircleAt1.
Proof.
  apply (fitCircle2D_through_origin _ 1 0 1).
  - repeat constructor; cbn [fst snd]; lra.
  - cbn. lia.
  - rewrite determinant_three_points. rewrite Rabs_pos_eq; lra.
  - lra.
  - lra.
Qed.

Lemma tenOnCylinder_circle (fuel : nat) :
  fitCircleRANSAC (cyclicStreamOf 10) (3 + fuel) (projectedPoints tenOnCylinder)
    200 0.05 0%nat = Done (Some unitCircleAt1, 600%nat).
Proof.
  assert (Hin : filter (isInlier unitCircleAt1 0.05) (projectedPoints tenOnCylinder)
                = projectedPoints tenOnCylinder).
  { apply filter_all_inliers; [ lra | lra | ].
    eapply Forall_impl; [ | exact tenOnCylinder_on_circle ].
    intros p H. cbv beta in *. lra. }
  unfold fitCircleRANSAC.
  change (length (projectedPoints tenOnCylinder) <? 3)%nat with false. cbv iota.
  unfold bind.
  change (cyclicStreamOf 10)
    with (cyclicStreamOf (length (projectedPoints tenOnCylinder))).
  rewrite (ransacLoop_cyclicOf fuel (projectedPoints tenOnCylinder) 0.05 _
             unitCircleAt1 199 ltac:(cbn; lia) eq_refl tenOnCylinder_sample_fit).
  - unfold ret, refit. rewrite Hin.
    change (3 <=? length (projectedPoints tenOnCylinder))%nat with true. cbv iota.
    rewrite tenOnCylinder_fit. reflexivity.
  - rewrite Hin. cbn. lia.
Qed.

(** The fitted cylinder of the ten points. *)
Lemma tenOnCylinder_run (axis : Axis) :
  fitCylinder (cyclicStreamOf 10) 3 tenOnCylinder axis 0%nat =
  Done (Some {| CylinderFit.center := (1, 0, 0);
                CylinderFit.radius := 1;
                CylinderFit.height := 9;
                CylinderFit.axis := axis;
                CylinderFit.confidence := 1 |}, 600%nat).
Proof.
  unfold fitCylinder.
  change (length tenOnCylinder <? 10)%nat with false. cbv iota.
  pose proof (tenOnCylinder_circle 0) as Hcircle. cbn [Nat.add] in Hcircle.
  unfold bind. rewrite Hcircle.
  assert (Hext : heightExtent tenOnCylinder = (Some 0, Some 9)).
  { unfold heightExtent, tenOnCylinder. cbn [fold_left minStep maxStep].
    repeat match goal with
           | |- context [Rmin ?a ?b] =>
               first [ rewrite (Rmin_left a b) by lra
                     | rewrite (Rmin_right a b) by lra ]
           | |- context [Rmax ?a ?b] =>
               first [ rewrite (Rmax_left a b) by lra
                     | rewrite (Rmax_right a b) by lra ]
           end.
    reflexivity. }
  rewrite Hext.
  destruct (Rle_dec (9 - 0) 0) as [ | _ ]; [ lra | ].
  assert (Herr : totalError unitCircleAt1 tenOnCylinder = 0).
  { apply totalError_on_circle; [ lra | ].
    unfold tenOnCylinder. repeat constructor; cbn [fst snd]; lra. }
  rewrite Herr. unfold ret. cbn [unitCircleAt1 Circle2D.center Circle2D.radius fst snd].
  do 3 f_equal.
  replace (9 - 0) with 9 by lra.
  replace (1 - 0 / INR (length tenOnCylinder) / 1) with 1
    by (unfold Rdiv; rewrite !Rmult_0_l; lra).
  rewrite Rmax_right by lra. reflexivity.
Qed.

Lemma fitCylinder_result_invariants_witness :
  exists cylinder,
    fitCylinder (cyclicStreamOf 10) 3 tenOnCylinder defaultAxis 0%nat =
      Done (Some cylinder, 600%nat) /\
    0 < CylinderFit.radius cylinder /\ 0 < CylinderFit.height cylinder /\
    0 <= CylinderFit.confidence cylinder <= 1.
Proof.
  eexists. split; [ exact (tenOnCylinder_run defaultAxis) | ].
  destruct (fitCylinder_result_invariants (cyclicStreamOf 10) 3 tenOnCylinder
              defaultAxis 0 600 _ (tenOnCylinder_run defaultAxis))
    as (_ & Hr & Hh & Hc & _).
  split; [ exact Hr | split; [ exact Hh | exact Hc ] ].
Defined.

End CylinderFitExtras.

(** * Further properties of the volume detector *)

Section DetectionExtras.

Import CylinderFitting PlyParser VolumeDetection Vocabulary Samples.

Lemma sliceAtHeight_nonpositive (positions : list Point3) (height thickness : R) :
  thickness <= 0 -> sliceAtHeight positions height thickness = [].
Proof.
  intros Ht. unfold sliceAtHeight.
  replace (filter (inSlice height thickness) positions) with (@nil Point3);
    [ reflexivity | ].
  symmetry. induction positions as [ | p positions IH ]; [ reflexivity | ].
  cbn [filter]. destruct (inSlice height thickness p) eqn:E; [ | exact IH ].
  apply inSlice_spec in E. pose proof (Rabs_pos (coordY p - height)). lra.
Qed.

(** X13: a slice contains exactly the [(x, z)] components of the points whose
    height is strictly within half the thickness of the slice height; it is
    never longer than the point list, and it is empty when the thickness is
    not positive. *)
Theorem sliceAtHeight_members (positions : list Point3) (height thickness : R) :
  (forall q : Point2,
     In q (sliceAtHeight positions height thickness) <->
     exists py, In (fst q, py, snd q) positions /\
                Rabs (py - height) < thickness / 2) /\
  (length (sliceAtHeight positions height thickness) <= length positions)%nat /\
  (thickness <= 0 -> sliceAtHeight positions height thickness = []).
Proof.
  split; [ | split ].
  - intros [qx qz]. unfold sliceAtHeight. rewrite in_map_iff. cbn [fst snd]. split.
    + intros ([[px py] pz] & Hq & Hin). injection Hq as <- <-.
      apply filter_In in Hin as [Hin Hs]. apply inSlice_spec in Hs.
      exists py. split; assumption.
    + intros (py & Hin & Hs). exists (qx, py, qz). split; [ reflexivity | ].
      apply filter_In. split; [ exact Hin | apply inSlice_spec; exact Hs ].
  - rewrite sliceAtHeight_length. apply filter_length_le.
  - apply sliceAtHeight_nonpositive.
Qed.

Lemma sliceAtHeight_nonempty_thickness (positions : list Point3) (height thickness : R) :
  sliceAtHeight positions height thickness <> [] -> 0 < thickness.
Proof.
  intros Hne. destruct (Rle_lt_dec thickness 0) as [Hle | Hlt]; [ | exact Hlt ].
  exfalso. apply Hne. apply sliceAtHeight_nonpositive. exact Hle.
Qed.

Lemma findRimHeight_cases (positions : list Point3) (minY maxY : R) (numSlices : nat) :
  findRimHeight positions minY maxY numSlices = maxY \/
  exists i, (i < numSlices)%nat /\
    findRimHeight positions minY maxY numSlices =
    minY + (INR i + 0.5) * ((maxY - minY) / INR numSlices).
Proof.
  unfold findRimHeight.
  destruct (find _ (rev (densitiesOf positions minY maxY numSlices))) as [d | ] eqn:E;
    [ | left; reflexivity ].
  right. apply find_some in E as [Hin _]. apply in_rev in Hin.
  unfold densitiesOf in Hin. apply in_map_iff in Hin as (i & <- & Hi).
  apply in_seq in Hi. exists i. split; [ lia | reflexivity ].
Qed.

Lemma findRimHeight_in_bounds (positions : list Point3) (minY maxY : R) :
  minY <= maxY ->
  minY <= findRimHeight positions minY maxY defaultNumSlices <= maxY /\
  (minY < maxY -> minY < findRimHeight positions minY maxY defaultNumSlices).
Proof.
  intros Hle.
  destruct (findRimHeight_cases positions minY maxY defaultNumSlices)
    as [-> | (i & Hi & ->)]; [ lra | ].
  unfold defaultNumSlices in *. rewrite INR_20.
  assert (Hi0 : 0 <= INR i) by apply pos_INR.
  assert (Hi19 : INR i <= 19).
  { replace 19 with (INR 19) by (rewrite INR_IZR_INZ; reflexivity).
    apply le_INR. lia. }
  remember (maxY - minY) as E eqn:HE0.
  assert (HE : 0 <= E) by lra.
  replace ((INR i + 0.5) * (E / 20)) with ((INR i * E + 0.5 * E) / 20) by field.
  assert (Hprod : 0 <= INR i * E) by (apply Rmult_le_pos; assumption).
  assert (Hprod' : 0 <= (19 - INR i) * E) by (apply Rmult_le_pos; lra).
  replace ((19 - INR i) * E) with (19 * E - INR i * E) in Hprod' by ring.
  split; [ split | intros Hlt ]; lra.
Qed.

(** X14: for bounds with [minY <= maxY] the rim height found lies within the
    bounds, and strictly above the bottom when the bounds have a positive
    extent. *)
Theorem findRimHeight_within_bounds (positions : list Point3) (minY maxY : R) :
  minY <= maxY ->
  minY <= findRimHeight positions minY maxY defaultNumSlices <= maxY /\
  (minY < maxY -> minY < findRimHeight positions minY maxY defaultNumSlices).
Proof. exact (findRimHeight_in_bounds positions minY maxY). Qed.

Lemma findRimHeight_within_bounds_witness :
  0 <= findRimHeight thimblePositions 0 0.008 defaultNumSlices <= 0.008 /\
  findRimHeight thimblePositions 0 0.008 defaultNumSlices = 0.0078.
Proof.
  split; [ | exact thimble_rim_height ].
  apply (findRimHeight_within_bounds thimblePositions 0 0.008). lra.
Defined.

(** Points on one line of the plane, [a x + b y = c] with [(a, b)] not 0,
    are collinear. *)
Lemma collinear_on_line (a b c : R) (p1 p2 p3 : Point2) :
  (a <> 0 \/ b <> 0) ->
  a * fst p1 + b * snd p1 = c ->
  a * fst p2 + b * snd p2 = c ->
  a * fst p3 + b * snd p3 = c ->
  collinear p1 p2 p3.
Proof.
  intros Hab H1 H2 H3. unfold collinear.
  set (cross := (fst p2 - fst p1) * (snd p3 - snd p1)
                - (fst p3 - fst p1) * (snd p2 - snd p1)).
  assert (Hd2 : a * (fst p2 - fst p1) + b * (snd p2 - snd p1) = 0) by lra.
  assert (Hd3 : a * (fst p3 - fst p1) + b * (snd p3 - snd p1) = 0) by lra.
  assert (Ha : cross * a = 0).
  { unfold cross.
    replace (((fst p2 - fst p1) * (snd p3 - snd p1)
              - (fst p3 - fst p1) * (snd p2 - snd p1)) * a)
      with ((a * (fst p2 - fst p1) + b * (snd p2 - snd p1)) * (snd p3 - snd p1)
            - (a * (fst p3 - fst p1) + b * (snd p3 - snd p1)) * (snd p2 - snd p1))
      by ring.
    rewrite Hd2, Hd3. ring. }
  assert (Hb : cross * b = 0).
  { unfold cross.
    replace (((fst p2 - fst p1) * (snd p3 - snd p1)
              - (fst p3 - fst p1) * (snd p2 - snd p1)) * b)
      with ((a * (fst p3 - fst p1) + b * (snd p3 - snd p1)) * (fst p2 - fst p1)
            - (a * (fst p2 - fst p1) + b * (snd p2 - snd p1)) * (fst p3 - fst p1))
      by ring.
    rewrite Hd2, Hd3. ring. }
  assert (Hc : cross = 0).
  { destruct Hab as [Hne | Hne].
    - apply Rmult_integral in Ha as [ | ]; [ assumption | contradiction ].
    - apply Rmult_integral in Hb as [ | ]; [ assumption | contradiction ]. }
  unfold cross in Hc. lra.
Qed.

(** On the exact determinant, which is 0 for them, three collinear points
    are rejected. *)
Lemma fitCircle2D_collinear_sample (p1 p2 p3 : Point2) :
  collinear p1 p2 p3 -> fitCircle2D [p1; p2; p3] = None.
Proof.
  destruct p1 as [x1 y1], p2 as [x2 y2], p3 as [x3 y3].
  unfold collinear. cbn [fst snd]. intros Hcol.
  destruct (fitCircle2D [(x1, y1); (x2, y2); (x3, y3)]) as [c | ] eqn:E;
    [ exfalso | first [ reflexivity | exact E ] ].
  apply fitCircle2D_Some_inv in E as (_ & Hdet & _).
  rewrite determinant_three_points in Hdet.
  replace ((x2 - x1) * (y3 - y1) - (x3 - x1) * (y2 - y1)) with 0 in Hdet by lra.
  replace (0 ^ 2) with 0 in Hdet by ring. rewrite Rabs_R0 in Hdet. lra.
Qed.

(** When no three of the points admit a fit, the loop keeps no circle. *)
Lemma ransacLoop_without_fit (random : nat -> R) (fuel : nat)
    (points : list Point2) (threshold : R) :
  (forall p1 p2 p3 : Point2,
     In p1 points -> In p2 points -> In p3 points ->
     fitCircle2D [p1; p2; p3] = None) ->
  forall (iterations bestInliers k k' : nat) (result : option Circle2D.t),
    ransacLoop random fuel points threshold iterations None bestInliers k
      = Done (result, k') ->
    result = None.
Proof.
  intros Hnone.
  induction iterations as [ | iterations IH ]; intros bestInliers k k' result Hrun.
  - cbn in Hrun. apply ret_Done_inv in Hrun as [<- _]. reflexivity.
  - cbn [ransacLoop] in Hrun.
    apply bind_Done_inv in Hrun as (indices & k1 & Hdraw & Hrun).
    apply drawIndices_invariant in Hdraw as (_ & Hlen & _);
      [ | constructor | cbn; lia ].
    destruct (lookupAll points indices) as [sample | ] eqn:Hsample; [ | discriminate ].
    apply lookupAll_incl in Hsample as [Hincl Hl]. rewrite Hlen in Hl.
    destruct sample as [ | p1 [ | p2 [ | p3 [ | ] ] ] ]; try discriminate.
    rewrite Hnone in Hrun by (apply Hincl; cbn; tauto).
    eapply IH. exact Hrun.
Qed.

(** X15: [fitCircleRANSAC] keeps a circle only from a sample of three that
    [fitCircle2D] accepts: when [fitCircle2D] fails on every three of the
    points, it returns no circle whatever the random stream, the number of
    iterations and the threshold are, and [fitCylinder] returns no cylinder
    when the projected points are such. *)
Theorem fitCircleRANSAC_without_fit (random : nat -> R) (fuel : nat) :
  (forall (points : list Point2) (iterations : nat) (threshold : R) (k : nat),
     (forall p1 p2 p3 : Point2,
        In p1 points -> In p2 points -> In p3 points ->
        fitCircle2D [p1; p2; p3] = None) ->
     noResult (fitCircleRANSAC random fuel points iterations threshold k)) /\
  (forall (positions : list Point3) (axis : Axis) (k : nat),
     (forall p1 p2 p3 : Point2,
        In p1 (projectedPoints positions) ->
        In p2 (projectedPoints positions) ->
        In p3 (projectedPoints positions) ->
        fitCircle2D [p1; p2; p3] = None) ->
     noResult (fitCylinder random fuel positions axis k)).
Proof.
  assert (Hransac : forall points iterations threshold k,
     (forall p1 p2 p3 : Point2,
        In p1 points -> In p2 points -> In p3 points ->
        fitCircle2D [p1; p2; p3] = None) ->
     noResult (fitCircleRANSAC random fuel points iterations threshold k)).
  { intros points iterations threshold k Hnone.
    destruct (fitCircleRANSAC random fuel points iterations threshold k)
      as [[[circle | ] k'] | | ] eqn:Hrun; cbn; try exact I.
    unfold fitCircleRANSAC in Hrun. destruct (_ <? _)%nat.
    - apply ret_Done_inv in Hrun as [H _]. discriminate.
    - apply bind_Done_inv in Hrun as (best & k1 & Hloop & H).
      apply (ransacLoop_without_fit random fuel points threshold Hnone)
        in Hloop. subst best.
      apply ret_Done_inv in H as [H _]. discriminate. }
  split; [ exact Hransac | ].
  intros positions axis k Hnone.
  destruct (fitCylinder random fuel positions axis k)
    as [[[cylinder | ] k'] | | ] eqn:Hrun; cbn; try exact I.
  apply fitCylinder_Some_inv in Hrun as (circle & _ & _ & Hfit & _).
  assert (Hno : noResult (fitCircleRANSAC random fuel (projectedPoints positions)
                            200 0.05 k))
    by (apply Hransac; exact Hnone).
  rewrite Hfit in Hno. exact Hno.
Qed.

Lemma fitCircleRANSAC_without_fit_witness :
  (forall p1 p2 p3 : Point2,
     In p1 (projectedPoints tenInPlane) ->
     In p2 (projectedPoints tenInPlane) ->
     In p3 (projectedPoints tenInPlane) ->
     fitCircle2D [p1; p2; p3] = None) /\
  noResult (fitCylinder (cyclicStreamOf 10) 3 tenInPlane defaultAxis 0%nat).
Proof.
  assert (Hnone : forall p1 p2 p3 : Point2,
     In p1 (projectedPoints tenInPlane) ->
     In p2 (projectedPoints tenInPlane) ->
     In p3 (projectedPoints tenInPlane) ->
     fitCircle2D [p1; p2; p3] = None).
  { assert (Hline : Forall (fun p : Point2 => 1 * fst p + -1 * snd p = 0)
                      (projectedPoints tenInPlane))
      by (unfold tenInPlane; cbn [projectedPoints map];
          repeat constructor; cbn [fst snd]; lra).
    rewrite Forall_forall in Hline.
    intros p1 p2 p3 H1 H2 H3. apply fitCircle2D_collinear_sample.
    apply (collinear_on_line 1 (-1) 0); [ left; lra | | | ]; apply Hline; assumption. }
  split; [ exact Hnone | ].
  destruct (fitCircleRANSAC_without_fit (cyclicStreamOf 10) 3) as [_ H].
  apply H. exact Hnone.
Defined.

Lemma fitCircleRANSAC_Some_length (random : nat -> R) (fuel : nat)
    (points : list Point2) (iterations : nat) (threshold : R) (k k' : nat)
    (circle : Circle2D.t) :
  fitCircleRANSAC random fuel points iterations threshold k = Done (Some circle, k') ->
  (3 <= length points)%nat.
Proof.
  unfold fitCircleRANSAC.
  destruct (Nat.ltb_spec (length points) 3) as [ _ | H ]; [ | intros _; exact H ].
  intros H. apply ret_Done_inv in H as [H _]. discriminate.
Qed.

(** The rim fit can only succeed when the bounds have a positive extent. *)
Lemma rim_fit_needs_extent (random : nat -> R) (fuel : nat) (ply : ParsedPly)
    (k k' : nat) (rimCircle : Circle2D.t) :
  fitCircleRANSAC random fuel (rimPointsOf ply) 200 0.05 k
    = Done (Some rimCircle, k') ->
  coordY (Bounds.min (bounds ply)) < coordY (Bounds.max (bounds ply)).
Proof.
  intros Hrim. apply fitCircleRANSAC_Some_length in Hrim.
  unfold rimPointsOf in Hrim.
  assert (Hne : sliceAtHeight (getPositions ply)
                  (findRimHeight (getPositions ply) (coordY (Bounds.min (bounds ply)))
                     (coordY (Bounds.max (bounds ply))) defaultNumSlices)
                  ((coordY (Bounds.max (bounds ply))
                    - coordY (Bounds.min (bounds ply))) * 0.1) <> []).
  { intros E. rewrite E in Hrim. cbn in Hrim. lia. }
  apply sliceAtHeight_nonempty_thickness in Hne. lra.
Qed.

(** What holds of every result that [detectVolume] returns. *)
Lemma detectVolume_facts (random : nat -> R) (fuel : nat) (ply : ParsedPly)
    (k k' : nat) (res : VolumeDetectionResult.t) :
  detectVolume random fuel ply k = Done (Some res, k') ->
  let cylinder := VolumeDetectionResult.cylinder res in
  let rimHeight := VolumeDetectionResult.rimHeight res in
  let baseHeight := VolumeDetectionResult.baseHeight res in
  (100 <= length (getPositions ply))%nat /\
  0 < CylinderFit.radius cylinder /\
  0 < CylinderFit.height cylinder /\
  0 <= CylinderFit.confidence cylinder <= 1 /\
  baseHeight = coordY (CylinderFit.center cylinder) /\
  baseHeight < rimHeight /\
  rimHeight - baseHeight <= CylinderFit.height cylinder /\
  VolumeDetectionResult.interiorVolume res =
    PI * CylinderFit.radius cylinder ^ 2 * (rimHeight - baseHeight) /\
  0 < VolumeDetectionResult.interiorVolume res.
Proof.
  intros H. cbv zeta. pose proof PI_RGT_0 as Hpi.
  apply detectVolume_Some_inv in H
    as (Hlen & [(c & Hc & ->) | (k1 & cyl & _ & Hcyl & ->)]).
  - pose proof (rim_fit_needs_extent _ _ _ _ _ _ Hc) as Hext.
    apply fitCircleRANSAC_positive in Hc.
    destruct (findRimHeight_in_bounds (getPositions ply)
                (coordY (Bounds.min (bounds ply))) (coordY (Bounds.max (bounds ply))))
      as [_ Hrim]; [ lra | ].
    specialize (Hrim Hext).
    cbn [VolumeDetectionResult.cylinder VolumeDetectionResult.rimHeight
         VolumeDetectionResult.baseHeight VolumeDetectionResult.interiorVolume
         CylinderFit.radius CylinderFit.height CylinderFit.confidence
         CylinderFit.center coordY].
    set (rim := findRimHeight _ _ _ _) in *.
    set (minY := coordY (Bounds.min (bounds ply))) in *.
    assert (Hr : 0 < Circle2D.radius c * 0.85) by lra.
    assert (Hvol : 0 < PI * (Circle2D.radius c * 0.85) ^ 2 * (rim - minY)).
    { apply Rmult_lt_0_compat; [ apply Rmult_lt_0_compat | lra ];
        [ lra | apply pow_lt; exact Hr ]. }
    split; [ exact Hlen | ]. split; [ exact Hr | ].
    split; [ eapply Rlt_le_trans; [ | apply Rmax_l ]; lra | ].
    split; [ lra | ]. split; [ reflexivity | ]. split; [ exact Hrim | ].
    split; [ apply Rmax_r | ].
    rewrite Rmax_right by lra. split; [ reflexivity | exact Hvol ].
  - apply fitCylinder_facts in Hcyl as (_ & Hr & Hh & Hconf & _).
    cbn [VolumeDetectionResult.cylinder VolumeDetectionResult.rimHeight
         VolumeDetectionResult.baseHeight VolumeDetectionResult.interiorVolume].
    split; [ exact Hlen | ]. split; [ exact Hr | ]. split; [ exact Hh | ].
    split; [ exact Hconf | ]. split; [ reflexivity | ]. split; [ lra | ].
    split; [ lra | ].
    replace (coordY (CylinderFit.center cyl) + CylinderFit.height cyl
             - coordY (CylinderFit.center cyl)) with (CylinderFit.height cyl) by ring.
    split; [ reflexivity | ].
    apply Rmult_lt_0_compat; [ apply Rmult_lt_0_compat | exact Hh ];
      [ lra | apply pow_lt; exact Hr ].
Qed.

(** X16: every result of [detectVolume] comes from at least 100 points and
    has its rim strictly above its base, the base at the height of the
    cylinder's centre, a confidence in [0, 1], and an interior volume that is
    positive and equal to [PI * radius^2 * (rimHeight - baseHeight)], where
    [rimHeight - baseHeight] is at most the cylinder's height; the floor of
    the volume at 0 never takes effect. *)
Theorem detectVolume_result_invariants (random : nat -> R) (fuel : nat)
    (ply : ParsedPly) (k k' : nat) (res : VolumeDetectionResult.t) :
  detectVolume random fuel ply k = Done (Some res, k') ->
  let cylinder := VolumeDetectionResult.cylinder res in
  let rimHeight := VolumeDetectionResult.rimHeight res in
  let baseHeight := VolumeDetectionResult.baseHeight res in
  (100 <= length (getPositions ply))%nat /\
  0 < CylinderFit.radius cylinder /\
  0 < CylinderFit.height cylinder /\
  0 <= CylinderFit.confidence cylinder <= 1 /\
  baseHeight = coordY (CylinderFit.center cylinder) /\
  baseHeight < rimHeight /\
  rimHeight - baseHeight <= CylinderFit.height cylinder /\
  VolumeDetectionResult.interiorVolume res =
    PI * CylinderFit.radius cylinder ^ 2 * (rimHeight - baseHeight) /\
  0 < VolumeDetectionResult.interiorVolume res.
Proof. exact (detectVolume_facts random fuel ply k k' res). Qed.

Lemma detectVolume_result_invariants_witness :
  exists res,
    detectVolume cyclicStream 3 thimble 0%nat = Done (Some res, 600%nat) /\
    VolumeDetectionResult.baseHeight res < VolumeDetectionResult.rimHeight res /\
    0 < VolumeDetectionResult.interiorVolume res.
Proof.
  destruct thimble_run as (res & Hres). exists res.
  destruct (detectVolume_result_invariants cyclicStream 3 thimble 0 600 res Hres)
    as (_ & _ & _ & _ & _ & Hrim & _ & _ & Hvol).
  split; [ exact Hres | split; [ exact Hrim | exact Hvol ] ].
Defined.

Lemma heightExtent_level (level : R) (positions : list Point3) :
  Forall (fun p => coordY p = level) positions ->
  forall a b,
    (a = None \/ a = Some level) -> (b = None \/ b = Some level) ->
    forall mn mx,
      fold_left (fun '(minY, maxY) '(_, y, _) => (minStep minY y, maxStep maxY y))
        positions (a, b) = (mn, mx) ->
      (mn = None \/ mn = Some level) /\ (mx = None \/ mx = Some level).
Proof.
  induction 1 as [ | [[px py] pz] positions Hp _ IH ]; intros a b Ha Hb mn mx H.
  - cbn in H. injection H as <- <-. split; assumption.
  - cbn [fold_left] in H. cbn [coordY] in Hp. subst py.
    apply IH in H; [ exact H | | ].
    + right. destruct Ha as [-> | ->]; cbn; [ reflexivity | ].
      rewrite Rmin_left by lra. reflexivity.
    + right. destruct Hb as [-> | ->]; cbn; [ reflexivity | ].
      rewrite Rmax_left by lra. reflexivity.
Qed.

(** X17: a cloud whose points all have the same height, with bounds of no
    vertical extent, yields no result: the rim slice is empty, and the
    fallback cylinder would have height 0. *)
Theorem detectVolume_flat_cloud (random : nat -> R) (fuel : nat) (ply : ParsedPly)
    (level : R) (k : nat) :
  Forall (fun p => coordY p = level) (getPositions ply) ->
  coordY (Bounds.max (bounds ply)) <= coordY (Bounds.min (bounds ply)) ->
  noResult (detectVolume random fuel ply k).
Proof.
  intros Hflat Hbounds.
  destruct (detectVolume random fuel ply k) as [[[res | ] k'] | | ] eqn:Hrun;
    cbn; try exact I.
  apply detectVolume_Some_inv in Hrun
    as (_ & [(c & Hc & _) | (k1 & cyl & _ & Hcyl & _)]).
  - apply rim_fit_needs_extent in Hc. lra.
  - apply fitCylinder_Some_inv in Hcyl as (_ & mn & mx & _ & Hext & Hh & _).
    unfold heightExtent in Hext.
    apply (heightExtent_level level _ Hflat) in Hext as [Hmn Hmx];
      [ | left; reflexivity | left; reflexivity ].
    destruct Hmn as [ | Hmn ]; [ discriminate | ].
    destruct Hmx as [ | Hmx ]; [ discriminate | ].
    injection Hmn as ->. injection Hmx as ->. lra.
Qed.

Lemma detectVolume_flat_cloud_witness :
  (100 <= length (getPositions flatPly))%nat /\
  noResult (detectVolume cyclicStream 3 flatPly 0%nat).
Proof.
  split; [ cbn; lia | ].
  apply (detectVolume_flat_cloud cyclicStream 3 flatPly 1).
  - change (getPositions flatPly) with flatCloud. unfold flatCloud.
    apply Forall_forall. intros p Hp. apply repeat_spec in Hp. subst p. reflexivity.
  - cbn [flatPly bounds Bounds.min Bounds.max coordY]. lra.
Defined.

Lemma powerStep_unit (cov : list (list R)) (v : Axis) (a0 a1 a2 : R) :
  powerStep cov v = Some (a0, a1, a2) -> a0 ^ 2 + a1 ^ 2 + a2 ^ 2 = 1.
Proof.
  unfold powerStep. destruct v as [[[v0 v1] v2] | ]; [ | discriminate ].
  set (n0 := entry cov 0 0 * v0 + entry cov 0 1 * v1 + entry cov 0 2 * v2).
  set (n1 := entry cov 1 0 * v0 + entry cov 1 1 * v1 + entry cov 1 2 * v2).
  set (n2 := entry cov 2 0 * v0 + entry cov 2 1 * v1 + entry cov 2 2 * v2).
  set (len := sqrt (n0 ^ 2 + n1 ^ 2 + n2 ^ 2)).
  destruct (Req_dec_T len 0) as [ | Hlen ]; [ discriminate | ].
  intros H. injection H as <- <- <-.
  assert (Hsq : len * len = n0 ^ 2 + n1 ^ 2 + n2 ^ 2).
  { unfold len. apply sqrt_sqrt.
    pose proof (pow2_ge_0 n0). pose proof (pow2_ge_0 n1). pose proof (pow2_ge_0 n2).
    lra. }
  replace ((n0 / len) ^ 2 + (n1 / len) ^ 2 + (n2 / len) ^ 2)
    with ((n0 ^ 2 + n1 ^ 2 + n2 ^ 2) / (len * len)) by (field; exact Hlen).
  rewrite <- Hsq. field. exact Hlen.
Qed.

Lemma dominantEigenvector_unit (cov : list (list R)) (a0 a1 a2 : R) :
  dominantEigenvector cov = Some (a0, a1, a2) -> a0 ^ 2 + a1 ^ 2 + a2 ^ 2 = 1.
Proof.
  unfold dominantEigenvector.
  change (Nat.iter 50 (powerStep cov) (Some (1, 0, 0)))
    with (powerStep cov (Nat.iter 49 (powerStep cov) (Some (1, 0, 0)))).
  apply powerStep_unit.
Qed.

(** X18: the axis that [detectOrientation] returns is the vertical unit
    vector whenever the orientation is [upright] or [inverted]; it is a unit
    vector whenever it is not [NaN]; a sideways axis has a vertical component
    of absolute value at most 0.7, and a [NaN] axis is always classified
    [sideways]. *)
Theorem detectOrientation_axis (positions : list Point3) :
  let axis := fst (detectOrientation positions) in
  let orientation := snd (detectOrientation positions) in
  (orientation <> sideways -> axis = Some (0, 1, 0)) /\
  (forall a0 a1 a2, axis = Some (a0, a1, a2) ->
     a0 ^ 2 + a1 ^ 2 + a2 ^ 2 = 1 /\
     (orientation = sideways -> Rabs a1 <= 0.7)) /\
  (axis = None -> orientation = sideways).
Proof.
  cbv zeta. unfold detectOrientation.
  destruct (dominantEigenvector (computeCovariance positions))
    as [[[p0 p1] p2] | ] eqn:E.
  - apply dominantEigenvector_unit in E.
    destruct (Rlt_dec 0.7 (Rabs p1)) as [Hv | Hv]; cbn [fst snd].
    + split; [ reflexivity | split ].
      * intros a0 a1 a2 H. injection H as <- <- <-. split; [ ring | ].
        destruct (Rlt_dec 0 p1); discriminate.
      * discriminate.
    + split; [ intros H; contradiction | split ].
      * intros a0 a1 a2 H. injection H as <- <- <-. split; [ exact E | lra ].
      * discriminate.
  - cbn [fst snd]. split; [ intros H; contradiction | split ].
    + discriminate.
    + reflexivity.
Qed.

Lemma fitCylinder_no_throw (random : nat -> R) (fuel : nat)
    (positions : list Point3) (axis : Axis) (k : nat) :
  (forall j, 0 <= random j < 1) ->
  fitCylinder random fuel positions axis k <> Throws.
Proof.
  intros Hrandom. unfold fitCylinder. destruct (_ <? _)%nat; [ discriminate | ].
  unfold bind.
  destruct (fitCircleRANSAC random fuel (projectedPoints positions) 200 0.05 k)
    as [[[circle | ] k1] | | ] eqn:Hfit; try discriminate.
  - destruct (heightExtent positions) as [[minY | ] [maxY | ]]; try discriminate.
    destruct (Rle_dec (maxY - minY) 0); discriminate.
  - exfalso. revert Hfit. apply fitCircleRANSAC_never_throws. exact Hrandom.
Qed.

(** X19: when [Math.random] keeps its contract (values in [0, 1)) no run of
    [fitCircleRANSAC], [fitCylinder] or [detectVolume] raises: every sample
    index addresses a point, so insufficient or degenerate data is always
    reported by returning nothing, never by an exception. *)
Theorem detectVolume_never_throws (random : nat -> R) :
  (forall j, 0 <= random j < 1) ->
  forall (fuel k : nat),
    (forall points iterations threshold,
       fitCircleRANSAC random fuel points iterations threshold k <> Throws) /\
    (forall positions axis, fitCylinder random fuel positions axis k <> Throws) /\
    (forall ply, detectVolume random fuel ply k <> Throws).
Proof.
  intros Hrandom fuel k. split; [ | split ].
  - intros points iterations threshold.
    apply fitCircleRANSAC_never_throws. exact Hrandom.
  - intros positions axis. apply fitCylinder_no_throw. exact Hrandom.
  - intros ply. unfold detectVolume. destruct (_ <? _)%nat; [ discriminate | ].
    destruct (detectOrientation (getPositions ply)) as [axis orientation].
    unfold bind.
    match goal with |- context [fitCircleRANSAC random fuel ?pts 200 0.05 k] =>
      destruct (fitCircleRANSAC random fuel pts 200 0.05 k)
        as [[[circle | ] k1] | | ] eqn:Hfit end; try discriminate.
    + destruct (fitCylinder random fuel (getPositions ply) defaultAxis k1)
        as [[[cylinder | ] k2] | | ] eqn:Hcyl; try discriminate.
      exfalso. revert Hcyl. apply fitCylinder_no_throw. exact Hrandom.
    + exfalso. revert Hfit. apply fitCircleRANSAC_never_throws. exact Hrandom.
Qed.

Lemma cyclicStream_contract : forall j, 0 <= cyclicStream j < 1.
Proof.
  intros j. unfold cyclicStream.
  assert (H3 : (j mod 3 < 3)%nat) by (apply Nat.mod_upper_bound; lia).
  assert (H0 : 0 <= INR (j mod 3)) by apply pos_INR.
  assert (H2 : INR (j mod 3) <= 2).
  { replace 2 with (INR 2) by (rewrite INR_IZR_INZ; reflexivity).
    apply le_INR. lia. }
  lra.
Qed.

Lemma detectVolume_never_throws_witness :
  detectVolume cyclicStream 3 thimble 0%nat <> Throws /\
  detectVolume cyclicStream 0 thimble 0%nat <> Throws.
Proof.
  split; apply (detectVolume_never_throws cyclicStream cyclicStream_contract).
Defined.

(** X20: too few points give no result and draw no random number: fewer
    than 3 points for [fitCircleRANSAC], fewer than 10 for [fitCylinder],
    fewer than 100 for [detectVolume]; the outcome is "no result" with the
    cursor of the random stream unchanged, whatever the stream and the fuel
    are. *)
Theorem insufficient_points_no_result (random : nat -> R) (fuel k : nat) :
  (forall points iterations threshold,
     (length points < 3)%nat ->
     fitCircleRANSAC random fuel points iterations threshold k = Done (None, k)) /\
  (forall positions axis,
     (length positions < 10)%nat ->
     fitCylinder random fuel positions axis k = Done (None, k)) /\
  (forall ply,
     (length (points ply) < 100)%nat ->
     detectVolume random fuel ply k = Done (None, k)).
Proof.
  split; [ | split ].
  - intros pts iterations threshold H. unfold fitCircleRANSAC.
    destruct (Nat.ltb_spec (length pts) 3); [ reflexivity | lia ].
  - intros positions axis H. unfold fitCylinder.
    destruct (Nat.ltb_spec (length positions) 10); [ reflexivity | lia ].
  - intros ply H. unfold detectVolume, getPositions. rewrite length_map.
    destruct (Nat.ltb_spec (length (points ply)) 100); [ reflexivity | lia ].
Qed.

(** X21: for a positive outer radius, a height that is not negative, a
    positive density and a wall no thicker than the outer diameter, the
    estimated cup mass is positive; it is [PI * density * (w * (2 R - w) * h +
    R^2 * w)].  With the default wall of 0.005 this covers every outer
    radius from 0.0025 on. *)
Theorem estimateCupMass_positive (outerRadius height wallThickness density : R) :
  0 < outerRadius -> 0 <= height -> 0 < wallThickness <= 2 * outerRadius ->
  0 < density ->
  estimateCupMass outerRadius height wallThickness density =
    PI * density *
    (wallThickness * (2 * outerRadius - wallThickness) * height +
     outerRadius ^ 2 * wallThickness) /\
  0 < estimateCupMass outerRadius height wallThickness density.
Proof.
  intros HR Hh Hw Hd. pose proof PI_RGT_0 as Hpi.
  assert (Heq : estimateCupMass outerRadius height wallThickness density =
    PI * density *
    (wallThickness * (2 * outerRadius - wallThickness) * height +
     outerRadius ^ 2 * wallThickness)) by (unfold estimateCupMass; ring).
  split; [ exact Heq | ]. rewrite Heq.
  apply Rmult_lt_0_compat; [ apply Rmult_lt_0_compat; assumption | ].
  assert (0 <= wallThickness * (2 * outerRadius - wallThickness) * height).
  { apply Rmult_le_pos; [ apply Rmult_le_pos; lra | exact Hh ]. }
  assert (0 < outerRadius ^ 2 * wallThickness).
  { apply Rmult_lt_0_compat; [ apply pow_lt; exact HR | lra ]. }
  lra.
Qed.

Lemma estimateCupMass_positive_witness :
  0 < estimateCupMass 0.04 0.1 defaultWallThickness defaultCupDensity.
Proof.
  apply (estimateCupMass_positive 0.04 0.1 defaultWallThickness defaultCupDensity);
    unfold defaultWallThickness, defaultCupDensity; lra.
Defined.

End DetectionExtras.

(** * Properties of the values derived by the page and of the header lookup *)

Section PageExtras.

Import CylinderFitting PlyParser VolumeDetection Vocabulary Samples Page.

Lemma estimateUnitScale_positive (cylinder : CylinderFit.t) :
  0 < estimateUnitScale cylinder.
Proof.
  unfold estimateUnitScale.
  destruct (Rlt_dec _ 0.5); [ lra | ]. destruct (Rlt_dec _ 50); lra.
Qed.

Lemma adjustedCylinder_default_eq (res : VolumeDetectionResult.t) :
  adjustedCylinder (Some res) defaultAdjustments =
  Some (VolumeDetectionResult.cylinder res).
Proof.
  unfold adjustedCylinder, defaultAdjustments.
  destruct (VolumeDetectionResult.cylinder res) as [[[c0 c1] c2] r h a conf].
  cbn [CylinderFit.center CylinderFit.radius CylinderFit.height CylinderFit.axis
       CylinderFit.confidence offsetX offsetY offsetZ radiusScale heightScale].
  rewrite !Rplus_0_r, !Rmult_1_r. reflexivity.
Qed.

(** X22: with the default adjustments the page works on the detected
    cylinder itself; in general the adjusted cylinder keeps the axis and the
    confidence, and keeps a positive radius and a positive height when both
    scales are positive. *)
Theorem adjustedCylinder_properties (random : nat -> R) (fuel : nat)
    (ply : ParsedPly) (k k' : nat) (res : VolumeDetectionResult.t)
    (adj : CylinderAdjustments) :
  detectVolume random fuel ply k = Done (Some res, k') ->
  0 < radiusScale adj -> 0 < heightScale adj ->
  adjustedCylinder (Some res) defaultAdjustments =
    Some (VolumeDetectionResult.cylinder res) /\
  exists cyl,
    adjustedCylinder (Some res) adj = Some cyl /\
    0 < CylinderFit.radius cyl /\ 0 < CylinderFit.height cyl /\
    CylinderFit.axis cyl = CylinderFit.axis (VolumeDetectionResult.cylinder res) /\
    CylinderFit.confidence cyl =
      CylinderFit.confidence (VolumeDetectionResult.cylinder res).
Proof.
  intros Hrun Hrs Hhs. split; [ apply adjustedCylinder_default_eq | ].
  apply detectVolume_facts in Hrun as (_ & Hr & Hh & _). cbv zeta in Hr, Hh.
  unfold adjustedCylinder.
  destruct (CylinderFit.center (VolumeDetectionResult.cylinder res)) as [[c0 c1] c2].
  eexists. split; [ reflexivity | ].
  cbn [CylinderFit.radius CylinderFit.height CylinderFit.axis CylinderFit.confidence].
  repeat split; try reflexivity; apply Rmult_lt_0_compat; assumption.
Qed.

Lemma adjustedCylinder_properties_witness :
  exists res,
    detectVolume cyclicStream 3 thimble 0%nat = Done (Some res, 600%nat) /\
    adjustedCylinder (Some res) defaultAdjustments =
      Some (VolumeDetectionResult.cylinder res).
Proof.
  destruct thimble_run as (res & Hres). exists res. split; [ exact Hres | ].
  apply (adjustedCylinder_properties cyclicStream 3 thimble 0 600 res
           defaultAdjustments Hres); cbn [defaultAdjustments radiusScale heightScale];
    lra.
Defined.

(** X23: for every detection result and every adjustment with a positive
    radius scale, the page's physics state at a tilt of 0 degrees (or less)
    exists and reports a stable cup with a positive margin, whatever the fill
    level and the estimated cup mass are. *)
Theorem page_upright_cup_is_stable (random : nat -> R) (fuel : nat)
    (ply : ParsedPly) (k k' : nat) (res : VolumeDetectionResult.t)
    (adj : CylinderAdjustments) (fillLevel tiltAngle : R) :
  detectVolume random fuel ply k = Done (Some res, k') ->
  0 < radiusScale adj -> tiltAngle <= 0 ->
  exists st,
    physicsState (adjustedCylinder (Some res) adj) fillLevel tiltAngle = Some st /\
    TipoverPhysics.isStable st = true /\
    0 < TipoverPhysics.stabilityMargin st /\
    TipoverPhysics.tiltAngle st = 0.
Proof.
  intros Hrun Hrs Htilt.
  apply detectVolume_facts in Hrun as (_ & Hr & _). cbv zeta in Hr.
  unfold adjustedCylinder.
  destruct (CylinderFit.center (VolumeDetectionResult.cylinder res)) as [[c0 c1] c2].
  unfold physicsState. cbn [CylinderFit.center CylinderFit.radius CylinderFit.height].
  eexists. split; [ reflexivity | ].
  pose proof PI_RGT_0 as Hpi.
  assert (Hrad : TipoverPhysics.toRadians tiltAngle <= 0).
  { unfold TipoverPhysics.toRadians.
    assert (0 < PI / 180) by lra.
    replace 0 with (0 * (PI / 180)) by ring.
    apply Rmult_le_compat_r; lra. }
  match goal with |- context [TipoverPhysics.calculatePhysicsState ?c ?f ?t ?m ?d] =>
    destruct (upright_stable_facts c f t m d) as (_ & Hs);
      [ cbn [TipoverPhysics.radius]; apply Rmult_lt_0_compat; assumption | ];
    destruct (Hs Hrad) as [Hstable Hmargin]
  end.
  split; [ exact Hstable | split; [ exact Hmargin | ] ].
  unfold TipoverPhysics.calculatePhysicsState. cbn [TipoverPhysics.tiltAngle].
  pose proof PI2_RGT_0.
  rewrite Rmin_right by lra. apply Rmax_left. exact Hrad.
Qed.

Lemma page_upright_cup_is_stable_witness :
  exists res st,
    detectVolume cyclicStream 3 thimble 0%nat = Done (Some res, 600%nat) /\
    physicsState (adjustedCylinder (Some res) defaultAdjustments) 0.65 0 = Some st /\
    TipoverPhysics.isStable st = true.
Proof.
  destruct thimble_run as (res & Hres).
  destruct (page_upright_cup_is_stable cyclicStream 3 thimble 0 600 res
              defaultAdjustments 0.65 0 Hres) as (st & Hst & Hstable & _).
  - cbn [defaultAdjustments radiusScale]. lra.
  - lra.
  - exists res, st. split; [ exact Hres | split; [ exact Hst | exact Hstable ] ].
Defined.

(** X24: the volume that the page shows for the detected cylinder is a
    million times the volume of the cylinder with its radius and height
    multiplied by the unit scale; it is never below the detector's interior
    volume converted with the same scale, and equals it when the cylinder's
    height is [rimHeight - baseHeight]. *)
Theorem page_volumeML (random : nat -> R) (fuel : nat)
    (ply : ParsedPly) (k k' : nat) (res : VolumeDetectionResult.t) :
  detectVolume random fuel ply k = Done (Some res, k') ->
  let cyl := VolumeDetectionResult.cylinder res in
  let unitScale := estimateUnitScale cyl in
  let shown := volumeML (adjustedCylinder (Some res) defaultAdjustments) in
  shown =
    1e6 * (PI * (CylinderFit.radius cyl * unitScale) ^ 2 *
           (CylinderFit.height cyl * unitScale)) /\
  volumeToML (VolumeDetectionResult.interiorVolume res) unitScale <= shown /\
  (CylinderFit.height cyl =
     VolumeDetectionResult.rimHeight res - VolumeDetectionResult.baseHeight res ->
   shown = volumeToML (VolumeDetectionResult.interiorVolume res) unitScale).
Proof.
  intros Hrun cyl unitScale shown.
  apply detectVolume_facts in Hrun as (_ & Hr & Hh & _ & _ & _ & Hle & Hvol & _).
  cbv zeta in Hr, Hh, Hle, Hvol. fold cyl in Hr, Hh, Hle, Hvol.
  unfold shown. rewrite adjustedCylinder_default_eq. unfold volumeML.
  fold cyl. fold unitScale. unfold volumeToML. rewrite Hvol.
  pose proof (estimateUnitScale_positive cyl) as Hs. fold unitScale in Hs.
  pose proof PI_RGT_0 as Hpi.
  split; [ ring | split ].
  - assert (Hk : 0 <= PI * CylinderFit.radius cyl ^ 2 * (1e6 * unitScale ^ 3)).
    { apply Rmult_le_pos; [ apply Rmult_le_pos; [ lra | apply pow2_ge_0 ] | ].
      apply Rmult_le_pos; [ lra | left; apply pow_lt; exact Hs ]. }
    replace (PI * CylinderFit.radius cyl ^ 2 *
             (VolumeDetectionResult.rimHeight res
              - VolumeDetectionResult.baseHeight res) * 1e6 * unitScale ^ 3)
      with (PI * CylinderFit.radius cyl ^ 2 * (1e6 * unitScale ^ 3) *
            (VolumeDetectionResult.rimHeight res
             - VolumeDetectionResult.baseHeight res)) by ring.
    replace (PI * CylinderFit.radius cyl ^ 2 * CylinderFit.height cyl * 1e6 *
             unitScale ^ 3)
      with (PI * CylinderFit.radius cyl ^ 2 * (1e6 * unitScale ^ 3) *
            CylinderFit.height cyl) by ring.
    apply Rmult_le_compat_l; assumption.
  - intros ->. reflexivity.
Qed.

Lemma page_volumeML_witness :
  exists res,
    detectVolume cyclicStream 3 thimble 0%nat = Done (Some res, 600%nat) /\
    volumeToML (VolumeDetectionResult.interiorVolume res)
      (estimateUnitScale (VolumeDetectionResult.cylinder res))
    <= volumeML (adjustedCylinder (Some res) defaultAdjustments).
Proof.
  destruct thimble_run as (res & Hres). exists res. split; [ exact Hres | ].
  apply (page_volumeML cyclicStream 3 thimble 0 600 res Hres).
Defined.

Lemma findIndex_from_spec {A} (test : A -> bool) (l : list A) :
  forall i : Z, (0 <= i)%Z ->
    (findIndex_from test l i = (-1)%Z /\ forall a, In a l -> test a = false) \/
    (exists (j : nat) (a : A),
       findIndex_from test l i = (i + Z.of_nat j)%Z /\
       nth_error l j = Some a /\ test a = true /\
       forall j' a', (j' < j)%nat -> nth_error l j' = Some a' -> test a' = false).
Proof.
  induction l as [ | a l IH ]; intros i Hi.
  - left. split; [ reflexivity | intros a [] ].
  - cbn [findIndex_from]. destruct (test a) eqn:Ha.
    + right. exists 0%nat, a. repeat split; [ lia | assumption | ].
      intros j' a' Hj. lia.
    + destruct (IH (i + 1)%Z ltac:(lia)) as [[Hnone Hall] | (j & b & Hr & Hn & Hb & Hearlier)].
      * left. split; [ exact Hnone | ].
        intros a' [<- | Hin]; [ exact Ha | apply Hall; exact Hin ].
      * right. exists (S j), b. repeat split; [ lia | exact Hn | exact Hb | ].
        intros [ | j' ] a' Hj Hn'; cbn in Hn'.
        -- injection Hn' as <-. exact Ha.
        -- eapply Hearlier; [ | exact Hn' ]. lia.
Qed.

(** X25: [getPropertyIndex] returns -1 exactly when no property carries any
    of the names; otherwise it returns the index of the first property that
    carries the first of the names that occurs at all: names are tried in the
    order given, so an earlier name wins over a later name that occurs at a
    smaller index. *)
Theorem getPropertyIndex_first_name (properties : list PlyProperty)
    (names : list String.string) :
  let r := getPropertyIndex properties names in
  (r = (-1)%Z <->
   forall n p, In n names -> In p properties -> name p <> n) /\
  (r <> (-1)%Z ->
   exists (j : nat) (p : PlyProperty) (before after : list String.string),
     r = Z.of_nat j /\ nth_error properties j = Some p /\
     names = before ++ name p :: after /\
     (forall n q, In n before -> In q properties -> name q <> n) /\
     (forall j' q, (j' < j)%nat -> nth_error properties j' = Some q ->
                   name q <> name p)).
Proof.
  cbv zeta. induction names as [ | n names IH ].
  - cbn [getPropertyIndex]. split.
    + split; [ intros _ n p [] | reflexivity ].
    + intros H. contradiction.
  - cbn [getPropertyIndex]. unfold findIndex.
    destruct (findIndex_from_spec (fun p => String.eqb (name p) n) properties 0%Z
                ltac:(lia)) as [[Hnone Hall] | (j & p & Hr & Hn & Hp & Hearlier)].
    + rewrite Hnone. cbn [Z.eqb]. destruct IH as [IHnone IHsome].
      assert (Hn : forall q, In q properties -> name q <> n).
      { intros q Hq E. specialize (Hall q Hq). cbv beta in Hall.
        apply String.eqb_neq in Hall. contradiction. }
      split.
      * rewrite IHnone. split.
        -- intros H m q [<- | Hm] Hq; [ apply Hn; exact Hq | apply H; assumption ].
        -- intros H m q Hm Hq. apply H; [ right; exact Hm | exact Hq ].
      * intros Hne. destruct (IHsome Hne) as (j & p & before & after & H1 & H2 & H3 & H4 & H5).
        exists j, p, (n :: before), after.
        split; [ exact H1 | ]. split; [ exact H2 | ].
        split; [ rewrite H3; reflexivity | ]. split; [ | exact H5 ].
        intros m q [<- | Hm] Hq; [ apply Hn; exact Hq | apply H4; assumption ].
    + rewrite Hr. apply String.eqb_eq in Hp.
      assert (Hz : ((0 + Z.of_nat j =? -1) = false)%Z) by (apply Z.eqb_neq; lia).
      rewrite Hz. split.
      * split; [ lia | ].
        intros H. exfalso. apply (H n p); [ left; reflexivity | | exact Hp ].
        eapply nth_error_In. exact Hn.
      * intros _. exists j, p, [], names.
        split; [ lia | ]. split; [ exact Hn | ].
        split; [ rewrite Hp; reflexivity | ]. split; [ intros m q [] | ].
        intros j' q Hj Hq E. specialize (Hearlier j' q Hj Hq). cbv beta in Hearlier.
        apply String.eqb_neq in Hearlier. rewrite Hp in E. contradiction.
Qed.

Lemma getPropertyIndex_first_name_witness :
  getPropertyIndex colouredProperties colourNames = 3%Z /\
  getPropertyIndex colouredProperties alphaNames = (-1)%Z.
Proof.
  split; [ reflexivity | ].
  apply (getPropertyIndex_first_name colouredProperties alphaNames).
  intros n p Hn Hp E. subst n.
  unfold colouredProperties in Hp. cbn [map In] in Hp.
  unfold alphaNames in Hn. cbn [In] in Hn.
  repeat match goal with
         | H : _ \/ _ |- _ => destruct H as [H | H]
         | H : False |- _ => contradiction
         | H : mkPlyProperty _ _ _ _ = p |- _ => subst p; cbn [name] in *
         end; discriminate.
Defined.

End PageExtras.
